(** * Space Claw: the agent turn, its provider adapters, tool dispatch and
      conversation store

    A shallow embedding of the TypeScript sources
    - [agent.ts]                       (the agentic loop, [runAgentTurn]),
    - [tools/index.ts]                 (the tool registry and [dispatchTool]),
    - [memory.ts]                      (the SQLite conversation and note store),
    - [providers/openai-provider.ts], [providers/anthropic-provider.ts],
      [providers/google-provider.ts]   (the provider adapters),
    and the properties proved of them.

    JavaScript values are modelled by the type [JSON]; the parts of the
    running engine and of the outside world the code calls into (the JSON
    codec, the LLM backends, the tools' side effects, the order in which
    concurrent promises settle) are parameters, gathered in the classes
    [JSEngine] and [AgentEnv]. *)

From Stdlib Require Import String Ascii List ZArith Lia Bool.
From stdpp Require Import base tactics option list strings pretty.

Open Scope string_scope.
Open Scope list_scope.

(* ===================================================================== *)
(** * Part I: definitions                                                 *)
(* ===================================================================== *)

(** ** JavaScript values *)

(** A JavaScript value as it travels through this program: what [JSON.parse]
    can produce. An object is the list of its own enumerable properties in
    enumeration order; a number is carried by the text [String(n)] gives for
    it (the code never computes with one), so that zero is ["0"].
    [undefined] is the [None] of an [option JSON]. Objects are taken with
    their default prototype. *)
#[local] Unset Elimination Schemes.
Inductive JSON : Type :=
| JNull
| JBool (b : bool)
| JNumber (repr : string)
| JString (s : string)
| JArray (items : list JSON)
| JObject (fields : list (string * JSON)).
#[local] Set Elimination Schemes.

(** The induction principle that also gives hypotheses for the values nested
    in arrays and objects. *)
Section JSON_nested_ind.
  Variable P : JSON -> Prop.
  Hypothesis Hnull : P JNull.
  Hypothesis Hbool : forall b, P (JBool b).
  Hypothesis Hnum : forall r, P (JNumber r).
  Hypothesis Hstr : forall s, P (JString s).
  Hypothesis Harr : forall items, Forall P items -> P (JArray items).
  Hypothesis Hobj : forall fields, Forall (fun kv => P (snd kv)) fields -> P (JObject fields).

Fixpoint JSON_nested_ind (v : JSON) : P v :=
  match v with
  | JNull => Hnull
  | JBool b => Hbool b
  | JNumber r => Hnum r
  | JString s => Hstr s
  | JArray items =>
      Harr items
        ((fix go (l : list JSON) : Forall P l :=
            match l with
            | [] => List.Forall_nil P
            | x :: l' => @List.Forall_cons _ P x l' (JSON_nested_ind x) (go l')
            end) items)
  | JObject fields =>
      Hobj fields
        ((fix go (l : list (string * JSON)) : Forall (fun kv => P (snd kv)) l :=
            match l with
            | [] => List.Forall_nil _
            | kv :: l' => @List.Forall_cons _ _ kv l' (JSON_nested_ind (snd kv)) (go l')
            end) fields)
  end.
End JSON_nested_ind.

(** [fields[k]] on a property list: the first property named [k]. *)
Fixpoint assoc (k : string) (fields : list (string * JSON)) : option JSON :=
  match fields with
  | [] => None
  | (k', v) :: rest => if String.eqb k k' then Some v else assoc k rest
  end.

(** [v[k]] : property read; [undefined] on anything but an object that owns
    the property. *)
Definition get (k : string) (v : JSON) : option JSON :=
  match v with
  | JObject fields => assoc k fields
  | _ => None
  end.

(** [delete fields[k]] *)
Definition remove (k : string) (fields : list (string * JSON)) : list (string * JSON) :=
  List.filter (fun kv => negb (String.eqb k (fst kv))) fields.

(** [fields[k] = v] : overwrite in place, or add as the last property. *)
Fixpoint set (k : string) (v : JSON) (fields : list (string * JSON)) : list (string * JSON) :=
  match fields with
  | [] => [(k, v)]
  | (k', v') :: rest =>
      if String.eqb k k' then (k, v) :: rest else (k', v') :: set k v rest
  end.

(** The own property names of an object. *)
Definition keys (fields : list (string * JSON)) : list string := map fst fields.

(** [typeof v === "string" ? v : alt] and friends read a string out of a
    value. *)
Definition asString (v : option JSON) : option string :=
  match v with
  | Some (JString s) => Some s
  | _ => None
  end.

(** JavaScript truthiness ([if (v)], [v || alt], [!v]). *)
Definition truthy (v : option JSON) : bool :=
  match v with
  | None => false
  | Some JNull => false
  | Some (JBool b) => b
  | Some (JNumber r) => negb (String.eqb r "0" || String.eqb r "NaN")
  | Some (JString s) => negb (String.eqb s "")
  | Some (JArray _) => true
  | Some (JObject _) => true
  end.

(** [s || alt] on strings: the empty string is falsy. *)
Definition orElse (s alt : string) : string :=
  if String.eqb s "" then alt else s.

(** [String(v)], which is also how a value becomes a property name in
    [k in obj]. Inside an array, [null] prints as nothing. *)
Fixpoint toString (v : JSON) : string :=
  match v with
  | JNull => "null"
  | JBool true => "true"
  | JBool false => "false"
  | JNumber r => r
  | JString s => s
  | JArray items =>
      (fix join (l : list JSON) : string :=
         match l with
         | [] => ""
         | [x] => match x with JNull => "" | _ => toString x end
         | x :: l' => (match x with JNull => "" | _ => toString x end) +:+ "," +:+ join l'
         end) items
  | JObject _ => "[object Object]"
  end.

(** What the program takes from the JavaScript engine. [JSON_parse] is [None]
    where [JSON.parse] throws a SyntaxError. The two name lists are the
    properties every object, respectively every array, inherits from its
    prototype (["toString"], ["constructor"], ...; for arrays also
    ["map"], ["filter"], ...): the [in] operator sees them. *)
Class JSEngine := {
  JSON_parse : string -> option JSON;
  JSON_stringify : JSON -> string;
  Object_prototype_names : list string;
  Array_prototype_names : list string;
}.

(** A result or a thrown exception; the exception is carried as the text
    [String(err)] gives for it. *)
Inductive Result (A : Type) : Type :=
| Ok (a : A)
| Throw (err : string).
Arguments Ok {A} a.
Arguments Throw {A} err.

#[global] Instance Result_ret : MRet Result := fun _ a => Ok a.
#[global] Instance Result_bind : MBind Result :=
  fun _ _ f r => match r with Ok a => f a | Throw e => Throw e end.

(** [v.k] where [v] may be [undefined] or [null]: reading a property of
    either throws. *)
Definition readProp (k : string) (v : option JSON) : Result (option JSON) :=
  match v with
  | None => Throw "TypeError: Cannot read properties of undefined"
  | Some JNull => Throw "TypeError: Cannot read properties of null"
  | Some v => Ok (get k v)
  end.

(** A property of an object literal whose value may be [undefined]; such a
    property is not written when the object is serialised, and is left out
    here. *)
Definition optField (k : string) (v : option JSON) : list (string * JSON) :=
  match v with
  | Some x => [(k, x)]
  | None => []
  end.

(** [typeof c === "string" ? c : JSON.stringify(c)] *)
Definition textOrStringify `{JSEngine} (c : option JSON) : option JSON :=
  match c with
  | Some (JString s) => Some (JString s)
  | Some v => Some (JString (JSON_stringify v))
  | None => None
  end.

(** [JSON.parse(a || "{}")]: the argument is first turned into a string. *)
Definition parseArguments `{JSEngine} (a : option JSON) : Result JSON :=
  let text := if truthy a then match a with Some v => toString v | None => "{}" end else "{}" in
  match JSON_parse text with
  | Some v => Ok v
  | None => Throw "SyntaxError"
  end.

(** [m.role] as a string, when it is one. *)
Definition roleOf (m : JSON) : option string := asString (get "role" m).

Definition hasRole (r : string) (m : JSON) : bool :=
  match roleOf m with
  | Some r' => String.eqb r r'
  | None => false
  end.

(** ["tool_calls" in m && Array.isArray(m.tool_calls) ? m.tool_calls : []] *)
Definition toolCallsOf (m : JSON) : list JSON :=
  match get "tool_calls" m with
  | Some (JArray tcs) => tcs
  | _ => []
  end.

(** ** The Google adapter's schema sanitizer (providers/google-provider.ts) *)

Module Gemini.

Definition GEMINI_UNSUPPORTED_KEYS : list string :=
  ["additionalProperties"; "$schema"; "$defs"; "$ref";
   "examples"; "default"; "title"; "definitions"].

(** [GEMINI_UNSUPPORTED_KEYS.has(k)] *)
Definition unsupported (k : string) : bool :=
  existsb (String.eqb k) GEMINI_UNSUPPORTED_KEYS.

(** [stripGeminiUnsupported]: arrays are mapped, objects are rebuilt
    property by property ([cleaned[k] = ...]) without the unsupported
    names, anything else is returned as it is. *)
Fixpoint stripGeminiUnsupported (obj : JSON) : JSON :=
  match obj with
  | JArray items => JArray (map stripGeminiUnsupported items)
  | JObject fields =>
      JObject
        (fold_left
           (fun cleaned kv =>
              if unsupported (fst kv) then cleaned
              else set (fst kv) (stripGeminiUnsupported (snd kv)) cleaned)
           fields [])
  | _ => obj
  end.

(** [stripGeminiUnsupported(raw) as Record<string, unknown>] *)
Definition stripRecord (raw : list (string * JSON)) : list (string * JSON) :=
  match stripGeminiUnsupported (JObject raw) with
  | JObject cleaned => cleaned
  | _ => []
  end.

(** [k in obj]: own and inherited properties of an object or an array; a
    TypeError on a primitive. The own properties of an array are its
    indices and ["length"]. *)
Definition hasProperty `{JSEngine} (k : JSON) (obj : JSON) : Result bool :=
  match obj with
  | JObject fields =>
      Ok (existsb (String.eqb (toString k)) (keys fields ++ Object_prototype_names))
  | JArray items =>
      Ok (existsb (String.eqb (toString k))
            (map pretty (seq 0 (length items)) ++ "length" :: Array_prototype_names))
  | _ => Throw "TypeError: Cannot use 'in' operator"
  end.

(** [required.filter((k) => k in props)]; the first throwing test ends it. *)
Fixpoint filterIn `{JSEngine} (required : list JSON) (props : JSON) : Result (list JSON) :=
  match required with
  | [] => Ok []
  | k :: rest =>
      match hasProperty k props with
      | Throw e => Throw e
      | Ok b =>
          match filterIn rest props with
          | Throw e => Throw e
          | Ok kept => Ok (if b then k :: kept else kept)
          end
      end
  end.

(** [sanitizeGeminiParams] *)
Definition sanitizeGeminiParams `{JSEngine} (raw : list (string * JSON))
  : Result (list (string * JSON)) :=
  let stripped := stripRecord raw in
  let stripped := remove "type" stripped in
  let props := assoc "properties" stripped in
  let required := assoc "required" stripped in
  match required, props with
  | Some (JArray req), Some p =>
      if truthy props then
        match filterIn req p with
        | Throw e => Throw e
        | Ok kept =>
            let stripped := set "required" (JArray kept) stripped in
            Ok (if Nat.eqb (length kept) 0 then remove "required" stripped else stripped)
        end
      else Ok (remove "required" stripped)
  | _, _ =>
      if truthy required then Ok (remove "required" stripped) else Ok stripped
  end.

(** [{ ...base, ...extra }]: the properties of [extra] are assigned onto
    [base] in order. *)
Definition spread (base extra : list (string * JSON)) : list (string * JSON) :=
  fold_left (fun acc kv => set (fst kv) (snd kv) acc) extra base.

(** No property at any depth of [v] has an unsupported name. *)
Fixpoint mentionsUnsupported (v : JSON) : bool :=
  match v with
  | JArray items => existsb mentionsUnsupported items
  | JObject fields =>
      existsb (fun kv => unsupported (fst kv) || mentionsUnsupported (snd kv)) fields
  | _ => false
  end.

(** A property whose name is supported and whose value mentions no
    unsupported name. *)
Definition cleanField (kv : string * JSON) : Prop :=
  unsupported (fst kv) = false /\ mentionsUnsupported (snd kv) = false.

(** In the object [fields], every entry of a [required] list is the name of a
    property that the [properties] object of the same schema declares. *)
Definition requiredDeclaredHere (fields : list (string * JSON)) : bool :=
  match assoc "required" fields with
  | Some (JArray req) =>
      forallb
        (fun k =>
           match k, assoc "properties" fields with
           | JString name, Some (JObject props) => existsb (String.eqb name) (keys props)
           | _, _ => false
           end)
        req
  | _ => true
  end.

(** The same at every depth of [v]. *)
Fixpoint requiredDeclared (v : JSON) : bool :=
  match v with
  | JArray items => forallb requiredDeclared items
  | JObject fields =>
      requiredDeclaredHere fields && forallb (fun kv => requiredDeclared (snd kv)) fields
  | _ => true
  end.

End Gemini.

(** ** The provider interface (providers/types.ts) *)

Record ToolCall := {
  tc_id : string;
  tc_name : string;
  tc_arguments : string;   (* raw JSON text *)
}.

Record LLMResponse := {
  content : option string;
  toolCalls : option (list ToolCall);
  assistantMessage : JSON;
}.

(** [ChatCompletionTool]: [{ type: "function", function: { name,
    description?, parameters? } }]. *)
Record ToolSpec := {
  fn_name : string;
  fn_description : option string;
  fn_parameters : option (list (string * JSON));
}.

(** [LLMProvider]; [Ext] is the state of the world outside the process (the
    backends among it), which a completion reads and changes. *)
Record LLMProvider (Ext : Type) := {
  provider_id : string;
  provider_name : string;
  defaultModel : string;
  complete : list JSON -> list ToolSpec -> Ext -> Result LLMResponse * Ext;
}.
Arguments provider_id {Ext} _.
Arguments provider_name {Ext} _.
Arguments defaultModel {Ext} _.
Arguments complete {Ext} _ _ _ _.

(** [x ?? alt] on an optional string. *)
Definition orDefault (x : option string) (alt : string) : string :=
  match x with
  | Some s => s
  | None => alt
  end.

(** The tool call of an assistant message in the canonical (OpenAI) shape:
    [{ id, type: "function", function: { name, arguments } }]. *)
Definition toolCallObject (tc : ToolCall) : JSON :=
  JObject [("id", JString (tc_id tc));
           ("type", JString "function");
           ("function", JObject [("name", JString (tc_name tc));
                                 ("arguments", JString (tc_arguments tc))])].

(** ** The OpenAI-compatible adapter (providers/openai-provider.ts) *)

Module OpenAI.

(** A property the SDK types as a string. *)
Definition text (v : option JSON) : string :=
  match v with
  | Some (JString s) => s
  | _ => EmptyString
  end.

(** [tc.function.name], [tc.function.arguments] *)
Definition functionProp (k : string) (tc : JSON) : option JSON :=
  match get "function" tc with
  | Some f => get k f
  | None => None
  end.

(** [ChatCompletionMessageToolCall] as the SDK types it: a string [id], and
    a [function] with a string [name] and string [arguments]. *)
Definition isToolCall (tc : JSON) : bool :=
  match get "id" tc, functionProp "name" tc, functionProp "arguments" tc with
  | Some (JString _), Some (JString _), Some (JString _) => true
  | _, _, _ => false
  end.

(** [ChatCompletionMessage] as the SDK types it: an object whose [content]
    is a string or null, and whose [tool_calls], if there, is an array of
    tool calls. Nothing is asked of its other properties, [role] among
    them. *)
Definition isMessage (msg : JSON) : bool :=
  match msg with
  | JObject _ =>
      match get "content" msg with
      | None | Some JNull | Some (JString _) => true
      | _ => false
      end
      && match get "tool_calls" msg with
         | None | Some JNull => true
         | Some (JArray tcs) => forallb isToolCall tcs
         | _ => false
         end
  | _ => false
  end.

(** The message of a choice: the object the backend sent, of the type the
    SDK declares. *)
Record ChatCompletionMessage := {
  object : JSON;
  typed : isMessage object = true;
}.

(** The response: the messages of its [choices]. *)
Record ChatCompletion := {
  choices : list ChatCompletionMessage;
}.

Record Request := {
  req_model : string;
  req_messages : list JSON;
  req_tools : option (list ToolSpec);   (* sent with [tool_choice: "auto"] *)
}.

(** An SDK client: [client.chat.completions.create]. *)
Definition Client (Ext : Type) : Type := Request -> Ext -> Result ChatCompletion * Ext.

(** [{ id: tc.id, name: tc.function.name, arguments: tc.function.arguments }] *)
Definition toToolCall (tc : JSON) : ToolCall :=
  {| tc_id := text (get "id" tc);
     tc_name := text (functionProp "name" tc);
     tc_arguments := text (functionProp "arguments" tc) |}.

(** [msg as ChatCompletionMessageParam]: the message object itself. *)
Definition asMessageParam (msg : ChatCompletionMessage) : JSON := object msg.

(** What [complete] does with the backend's response. *)
Definition fromResponse (name : string) (response : ChatCompletion) : Result LLMResponse :=
  match choices response with
  | [] => Throw ("Error: " +:+ name +:+ " returned no choices")
  | msg :: _ =>
      match get "tool_calls" (object msg) with
      | Some (JArray (tc :: tcs)) =>
          Ok {| content := None;
                toolCalls := Some (map toToolCall (tc :: tcs));
                assistantMessage := asMessageParam msg |}
      | _ =>
          Ok {| content := Some (orDefault (asString (get "content" (object msg)))
                                   "(no response)");
                toolCalls := None;
                assistantMessage := asMessageParam msg |}
      end
  end.

Definition makeOpenAICompatible {Ext : Type} (client : Client Ext)
    (id name defaultModel : string) : LLMProvider Ext :=
  {| provider_id := id;
     provider_name := name;
     defaultModel := defaultModel;
     complete := fun messages tools ext =>
       let request :=
         {| req_model := defaultModel;
            req_messages := messages;
            req_tools := if Nat.ltb 0 (length tools) then Some tools else None |} in
       match client request ext with
       | (Throw e, ext') => (Throw e, ext')
       | (Ok response, ext') => (fromResponse name response, ext')
       end |}.

End OpenAI.

(** ** The Anthropic adapter (providers/anthropic-provider.ts) *)

Module Anthropic.

(** A content block of a response. *)
Inductive ContentBlock :=
| TextBlock (text : string)
| ToolUseBlock (id name : string) (input : JSON)
| OtherBlock (type : string).

Record Request := {
  req_model : string;
  req_max_tokens : nat;
  req_system : string;
  req_messages : list JSON;
  req_tools : option (list JSON);
}.

(** An SDK client: [client.messages.create], resolving to the content
    blocks of the response. *)
Definition Client (Ext : Type) : Type := Request -> Ext -> Result (list ContentBlock) * Ext.

(** The [tool_use] block of one tool call of an assistant message. *)
Definition toolUseOf `{JSEngine} (tc : JSON) : Result JSON :=
  id ← readProp "id" (Some tc);
  fn ← readProp "function" (Some tc);
  name ← readProp "name" fn;
  args ← readProp "arguments" fn;
  input ← parseArguments args;
  Ok (JObject ([("type", JString "tool_use")] ++ optField "id" id ++ optField "name" name
               ++ [("input", input)])).

Fixpoint toolUsesOf `{JSEngine} (tcs : list JSON) : Result (list JSON) :=
  match tcs with
  | [] => Ok []
  | tc :: rest =>
      b ← toolUseOf tc;
      bs ← toolUsesOf rest;
      Ok (b :: bs)
  end.

(** The tool branch of the loop: the result joins the blocks of a last user
    message whose content is an array, or starts a new user message. *)
Definition pushToolResult (block : JSON) (msgs : list JSON) : list JSON :=
  let fresh := JObject [("role", JString "user"); ("content", JArray [block])] in
  match last msgs with
  | Some (JObject fields) =>
      match assoc "content" fields with
      | Some (JArray blocks) =>
          if hasRole "user" (JObject fields)
          then removelast msgs ++ [JObject (set "content" (JArray (blocks ++ [block])) fields)]
          else msgs ++ [fresh]
      | _ => msgs ++ [fresh]
      end
  | _ => msgs ++ [fresh]
  end.

(** One round of the [for] loop of [toAnthropicMessages]. *)
Definition convertOne `{JSEngine} (m : JSON) (acc : string * list JSON)
  : Result (string * list JSON) :=
  let '(system, msgs) := acc in
  if hasRole "system" m then
    Ok (orDefault (asString (get "content" m)) EmptyString, msgs)
  else if hasRole "user" m then
    Ok (system,
        msgs ++ [JObject ([("role", JString "user")]
                          ++ optField "content" (textOrStringify (get "content" m)))])
  else if hasRole "assistant" m then
    let textBlocks :=
      match get "content" m with
      | Some (JString s) =>
          if String.eqb s EmptyString then []
          else [JObject [("type", JString "text"); ("text", JString s)]]
      | _ => []
      end in
    uses ← toolUsesOf (toolCallsOf m);
    let contentBlocks := textBlocks ++ uses in
    if Nat.ltb 0 (length contentBlocks)
    then Ok (system, msgs ++ [JObject [("role", JString "assistant");
                                       ("content", JArray contentBlocks)]])
    else Ok (system, msgs)
  else if hasRole "tool" m then
    let block :=
      JObject ([("type", JString "tool_result");
                ("tool_use_id",
                  match get "tool_call_id" m with
                  | Some JNull | None => JString EmptyString
                  | Some v => v
                  end)]
               ++ optField "content" (textOrStringify (get "content" m))) in
    Ok (system, pushToolResult block msgs)
  else Ok (system, msgs).

(** [toAnthropicMessages] *)
Fixpoint toAnthropicMessagesFrom `{JSEngine} (messages : list JSON) (acc : string * list JSON)
  : Result (string * list JSON) :=
  match messages with
  | [] => Ok acc
  | m :: rest =>
      acc' ← convertOne m acc;
      toAnthropicMessagesFrom rest acc'
  end.

Definition toAnthropicMessages `{JSEngine} (messages : list JSON) : Result (string * list JSON) :=
  toAnthropicMessagesFrom messages (EmptyString, []).

(** [toAnthropicTools] *)
Definition toAnthropicTools (tools : list ToolSpec) : list JSON :=
  map (fun t =>
         JObject ([("name", JString (fn_name t));
                   ("description", JString (orDefault (fn_description t) EmptyString))]
                  ++ optField "input_schema" (option_map JObject (fn_parameters t))))
      tools.

Definition isToolUse (b : ContentBlock) : bool :=
  match b with ToolUseBlock _ _ _ => true | _ => false end.

(** [content.filter(b => b.type === "text").map(b => b.text).join("")] *)
Definition textOf (blocks : list ContentBlock) : string :=
  fold_right String.append ""
    (omap (fun b => match b with TextBlock t => Some t | _ => None end) blocks).

Definition toToolCall `{JSEngine} (b : ContentBlock) : option ToolCall :=
  match b with
  | ToolUseBlock id name input =>
      Some {| tc_id := id; tc_name := name; tc_arguments := JSON_stringify input |}
  | _ => None
  end.

(** What [complete] does with the content of the backend's response. *)
Definition fromResponse `{JSEngine} (blocks : list ContentBlock) : LLMResponse :=
  let toolUseBlocks := List.filter isToolUse blocks in
  if Nat.ltb 0 (length toolUseBlocks) then
    let textContent := textOf blocks in
    let calls := omap toToolCall toolUseBlocks in
    {| content := None;
       toolCalls := Some calls;
       assistantMessage :=
         JObject [("role", JString "assistant");
                  ("content", if String.eqb textContent "" then JNull else JString textContent);
                  ("tool_calls", JArray (map toolCallObject calls))] |}
  else
    let text := textOf blocks in
    {| content := Some (orElse text "(no response)");
       toolCalls := None;
       assistantMessage :=
         JObject [("role", JString "assistant");
                  ("content", JString (orElse text "(no response)"))] |}.

Definition createAnthropicProvider `{JSEngine} {Ext : Type} (client : Client Ext)
    (model : string) : LLMProvider Ext :=
  {| provider_id := "anthropic";
     provider_name := "Anthropic";
     defaultModel := model;
     complete := fun messages tools ext =>
       match toAnthropicMessages messages with
       | Throw e => (Throw e, ext)
       | Ok (system, msgs) =>
           let anthropicTools := toAnthropicTools tools in
           let params :=
             {| req_model := model; req_max_tokens := 4096; req_system := system;
                req_messages := msgs;
                req_tools := if Nat.ltb 0 (length anthropicTools)
                             then Some anthropicTools else None |} in
           match client params ext with
           | (Throw e, ext') => (Throw e, ext')
           | (Ok blocks, ext') => (Ok (fromResponse blocks), ext')
           end
       end |}.

End Anthropic.

(** ** The Google adapter's response handling (providers/google-provider.ts) *)

Module Google.

Record FunctionCall := {
  fc_name : string;
  fc_args : JSON;
}.

(** The two readers of a response the adapter uses: [functionCalls()], which
    may be [undefined], and [text()], which may throw. *)
Record Response := {
  functionCalls : option (list FunctionCall);
  text : Result string;
}.

Record Request := {
  req_model : string;
  req_systemInstruction : string;
  req_functionDeclarations : option (list JSON);
  req_history : list JSON;
  req_message : string;
}.

(** An SDK client: [getGenerativeModel(...).startChat({ history })
    .sendMessage(lastUserMessage)], resolving to the response. *)
Definition Client (Ext : Type) : Type := Request -> Ext -> Result Response * Ext.

(** The system instruction: the content of the last system message. *)
Definition systemOf (messages : list JSON) : string :=
  fold_left
    (fun system m =>
       if hasRole "system" m then orDefault (asString (get "content" m)) EmptyString
       else system)
    messages EmptyString.

(** The [functionCall] part of one tool call of an assistant message. *)
Definition functionCallPart `{JSEngine} (tc : JSON) : Result JSON :=
  fn ← readProp "function" (Some tc);
  name ← readProp "name" fn;
  args ← readProp "arguments" fn;
  input ← parseArguments args;
  Ok (JObject [("functionCall", JObject (optField "name" name ++ [("args", input)]))]).

Fixpoint functionCallParts `{JSEngine} (tcs : list JSON) : Result (list JSON) :=
  match tcs with
  | [] => Ok []
  | tc :: rest =>
      part ← functionCallPart tc;
      parts ← functionCallParts rest;
      Ok (part :: parts)
  end.

(** The second [for] loop of [toGeminiHistory], over what is left of
    [nonSystem]; the round is at the last index when nothing follows. *)
Fixpoint historyFrom `{JSEngine} (nonSystem : list JSON) (history : list JSON)
    (lastUserMessage : string) : Result (list JSON * string) :=
  match nonSystem with
  | [] => Ok (history, lastUserMessage)
  | m :: rest =>
      if hasRole "user" m then
        let text :=
          match get "content" m with
          | Some (JString s) => s
          | Some JNull | None => JSON_stringify (JString EmptyString)
          | Some v => JSON_stringify v
          end in
        match rest with
        | [] => historyFrom rest history text
        | _ =>
            historyFrom rest
              (history ++ [JObject [("role", JString "user");
                                    ("parts", JArray [JObject [("text", JString text)]])]])
              lastUserMessage
        end
      else if hasRole "assistant" m then
        let text := orDefault (asString (get "content" m)) EmptyString in
        let tcs := toolCallsOf m in
        if Nat.ltb 0 (length tcs) then
          parts ← functionCallParts tcs;
          historyFrom rest
            (history ++ [JObject [("role", JString "model"); ("parts", JArray parts)]])
            lastUserMessage
        else if negb (String.eqb text EmptyString) then
          historyFrom rest
            (history ++ [JObject [("role", JString "model");
                                  ("parts", JArray [JObject [("text", JString text)]])]])
            lastUserMessage
        else historyFrom rest history lastUserMessage
      else if hasRole "tool" m then
        let c := match get "content" m with
                 | Some JNull | None => JString EmptyString
                 | Some v => v
                 end in
        historyFrom rest
          (history ++
             [JObject [("role", JString "function");
                       ("parts",
                         JArray [JObject [("functionResponse",
                                   JObject [("name", JString "tool");
                                            ("response", JObject [("content", c)])])]])]])
          lastUserMessage
      else historyFrom rest history lastUserMessage
  end.

(** [toGeminiHistory]: the system instruction, the history, and the last
    user prompt. *)
Definition toGeminiHistory `{JSEngine} (messages : list JSON)
  : Result (string * list JSON * string) :=
  let nonSystem := List.filter (fun m => negb (hasRole "system" m)) messages in
  let system := systemOf messages in
  hl ← historyFrom nonSystem [] EmptyString;
  Ok (system, fst hl, snd hl).

(** The declaration of one tool, with its sanitized schema. *)
Definition toolDecl `{JSEngine} (t : ToolSpec) : Result JSON :=
  let raw := match fn_parameters t with Some p => p | None => [] end in
  clean ← Gemini.sanitizeGeminiParams raw;
  Ok (JObject [("name", JString (fn_name t));
               ("description", JString (orDefault (fn_description t) EmptyString));
               ("parameters", JObject (Gemini.spread [("type", JString "OBJECT")] clean))]).

Fixpoint toolDecls `{JSEngine} (tools : list ToolSpec) : Result (list JSON) :=
  match tools with
  | [] => Ok []
  | t :: rest =>
      d ← toolDecl t;
      ds ← toolDecls rest;
      Ok (d :: ds)
  end.

(** [fnCalls.map(fc => ({ id: `gemini-${callIdx++}`, ... }))], [callIdx]
    being the counter's value on entry. *)
Fixpoint numberCalls `{JSEngine} (callIdx : nat) (fnCalls : list FunctionCall) : list ToolCall :=
  match fnCalls with
  | [] => []
  | fc :: rest =>
      {| tc_id := "gemini-" +:+ pretty callIdx;
         tc_name := fc_name fc;
         tc_arguments := JSON_stringify (fc_args fc) |}
      :: numberCalls (S callIdx) rest
  end.

Definition fromResponse `{JSEngine} (response : Response) : Result LLMResponse :=
  match functionCalls response with
  | Some (fc :: fcs) =>
      let toolCalls := numberCalls 0 (fc :: fcs) in
      Ok {| content := None;
            toolCalls := Some toolCalls;
            assistantMessage :=
              JObject [("role", JString "assistant");
                       ("content", JNull);
                       ("tool_calls", JArray (map toolCallObject toolCalls))] |}
  | _ =>
      match text response with
      | Throw e => Throw e
      | Ok text =>
          Ok {| content := Some (orElse text "(no response)");
                toolCalls := None;
                assistantMessage :=
                  JObject [("role", JString "assistant");
                           ("content", JString (orElse text "(no response)"))] |}
      end
  end.

Definition createGoogleProvider `{JSEngine} {Ext : Type} (client : Client Ext)
    (model : string) : LLMProvider Ext :=
  {| provider_id := "google";
     provider_name := "Google Gemini";
     defaultModel := model;
     complete := fun messages tools ext =>
       match toGeminiHistory messages with
       | Throw e => (Throw e, ext)
       | Ok (system, history, lastUserMessage) =>
           match toolDecls tools with
           | Throw e => (Throw e, ext)
           | Ok geminiToolDecls =>
               let request :=
                 {| req_model := model;
                    req_systemInstruction := system;
                    req_functionDeclarations :=
                      if Nat.ltb 0 (length geminiToolDecls) then Some geminiToolDecls else None;
                    req_history := history;
                    req_message := lastUserMessage |} in
               match client request ext with
               | (Throw e, ext') => (Throw e, ext')
               | (Ok response, ext') => (fromResponse response, ext')
               end
           end
       end |}.

End Google.

(** ** The SQLite store (memory.ts, core-memory.ts) *)

Module Memory.

(** A row of [messages(id, chat_id, role, content, ts, raw_json)]. *)
Record MessageRow := {
  row_id : Z;
  chat_id : Z;
  role : string;
  row_content : string;
  ts : Z;
  raw_json : option string;   (* NULL in rows older than the migration *)
}.

(** A row of [notes(id, title, body, ts)]. *)
Record NoteRow := {
  note_id : Z;
  title : string;
  body : string;
  note_ts : Z;
}.

(** An entry of the full-text index [notes_fts(rowid, title, body)]. *)
Record FtsEntry := {
  fts_rowid : Z;
  fts_title : string;
  fts_body : string;
}.

(** A row of [core_memories(key, label, value, ts)]. *)
Record CoreMemoryRow := {
  cm_key : string;
  cm_label : string;
  cm_value : string;
  cm_ts : Z;
}.

(** The database file. A table is the list of its rows; [core_memories] is
    kept in rowid order. [messages_seq] and [notes_seq] are the
    [sqlite_sequence] counters of the two AUTOINCREMENT keys. [setup_state]
    maps a chat to its step. *)
Record Db := {
  messages : list MessageRow;
  messages_seq : Z;
  notes : list NoteRow;
  notes_seq : Z;
  notes_fts : list FtsEntry;
  core_memories : list CoreMemoryRow;
  setup_state : list (Z * Z);
}.

Definition withMessages (rows : list MessageRow) (seq : Z) (db : Db) : Db :=
  {| messages := rows; messages_seq := seq;
     notes := notes db; notes_seq := notes_seq db; notes_fts := notes_fts db;
     core_memories := core_memories db; setup_state := setup_state db |}.

(** The key an [INTEGER PRIMARY KEY AUTOINCREMENT] column gives the next row:
    one more than the largest key the table holds or has ever held. *)
Definition nextKey (used : list Z) (seq : Z) : Z :=
  (Z.max seq (fold_right Z.max 0 used) + 1)%Z.

(** [stmtInsertMsg.run(chatId, role, content, rawJson)], at time [now]. *)
Definition stmtInsertMsg (now : Z) (chatId : Z) (role content rawJson : string) (db : Db) : Db :=
  let key := nextKey (map row_id (messages db)) (messages_seq db) in
  withMessages
    (messages db ++
       [{| row_id := key; chat_id := chatId; role := role; row_content := content;
           ts := now; raw_json := Some rawJson |}])
    key db.

(** [ORDER BY id ASC] *)
Fixpoint insertById (r : MessageRow) (rows : list MessageRow) : list MessageRow :=
  match rows with
  | [] => [r]
  | r' :: rest =>
      if (row_id r <=? row_id r')%Z then r :: rows else r' :: insertById r rest
  end.

Definition orderById (rows : list MessageRow) : list MessageRow :=
  fold_right insertById [] rows.

(** [stmtLoadMsgs.all(chatId)] :
    [SELECT role, content, raw_json FROM messages WHERE chat_id = ? ORDER BY id ASC] *)
Definition stmtLoadMsgs (chatId : Z) (db : Db) : list MessageRow :=
  orderById (List.filter (fun r => (chat_id r =? chatId)%Z) (messages db)).

(** [stmtDeleteMsgs.run(chatId)] : [DELETE FROM messages WHERE chat_id = ?] *)
Definition stmtDeleteMsgs (chatId : Z) (db : Db) : Db :=
  withMessages
    (List.filter (fun r => negb (chat_id r =? chatId)%Z) (messages db))
    (messages_seq db) db.

(** The message a row stands for: the parsed [raw_json] when the column holds
    a non-empty text, else the legacy reconstruction from role and content. *)
Definition rowMessage `{JSEngine} (r : MessageRow) : Result JSON :=
  match raw_json r with
  | Some text =>
      if String.eqb text "" then
        Ok (JObject [("role", JString (role r)); ("content", JString (row_content r))])
      else
        match JSON_parse text with
        | Some v => Ok v
        | None => Throw "SyntaxError"
        end
  | None => Ok (JObject [("role", JString (role r)); ("content", JString (row_content r))])
  end.

(** [rows.map(f)] where [f] may throw. *)
Fixpoint mapResult {A B : Type} (f : A -> Result B) (l : list A) : Result (list B) :=
  match l with
  | [] => Ok []
  | x :: rest =>
      match f x with
      | Throw e => Throw e
      | Ok y =>
          match mapResult f rest with
          | Throw e => Throw e
          | Ok ys => Ok (y :: ys)
          end
      end
  end.

(** [loadHistory] *)
Definition loadHistory `{JSEngine} (chatId : Z) (db : Db) : Result (list JSON) :=
  mapResult rowMessage (stmtLoadMsgs chatId db).

(** The body of the [for] loop of [saveHistory] for one message. A message
    is typed [ChatCompletionMessageParam], whose [role] is a string; the
    statement is taken to reject any other value. *)
Definition persistOne `{JSEngine} (now : Z) (chatId : Z) (msg : JSON) (db : Db) : Result Db :=
  let content :=
    match get "content" msg with
    | Some (JString s) => s
    | Some JNull | None => JSON_stringify (JString "")
    | Some other => JSON_stringify other
    end in
  let rawJson := JSON_stringify msg in
  match get "role" msg with
  | Some (JString role) => Ok (stmtInsertMsg now chatId role content rawJson db)
  | _ => Throw "TypeError: role is not a string"
  end.

Fixpoint persistAll `{JSEngine} (now : Z) (chatId : Z) (messages : list JSON) (db : Db) : Result Db :=
  match messages with
  | [] => Ok db
  | msg :: rest =>
      match persistOne now chatId msg db with
      | Throw e => Throw e
      | Ok db' => persistAll now chatId rest db'
      end
  end.

(** [saveHistory]: the delete and the inserts are one transaction, so that
    [Throw] leaves the database as it was. *)
Definition saveHistory `{JSEngine} (now : Z) (chatId : Z) (messages : list JSON) (db : Db)
  : Result Db :=
  persistAll now chatId messages (stmtDeleteMsgs chatId db).

(** [deleteHistory] *)
Definition deleteHistory (chatId : Z) (db : Db) : Db :=
  stmtDeleteMsgs chatId db.

(** A well-formed message, for the store: it has a string role, and it is a
    value the JSON codec of the engine writes as a non-empty text and reads
    back as it was. *)
Definition wellFormed `{JSEngine} (m : JSON) : Prop :=
  (exists r, get "role" m = Some (JString r))
  /\ JSON_stringify m <> EmptyString
  /\ JSON_parse (JSON_stringify m) = Some m.

(** Rows whose keys increase strictly, all above [bound]. *)
Fixpoint ascendingFrom (bound : Z) (rows : list MessageRow) : Prop :=
  match rows with
  | [] => True
  | r :: rest => (bound < row_id r)%Z /\ ascendingFrom (row_id r) rest
  end.

(** The largest key the [messages] table holds or has held. *)
Definition keyBound (db : Db) : Z :=
  Z.max (messages_seq db) (fold_right Z.max 0%Z (map row_id (messages db))).

(** *** Notes *)

Definition withNotes (rows : list NoteRow) (seq : Z) (index : list FtsEntry) (db : Db) : Db :=
  {| messages := messages db; messages_seq := messages_seq db;
     notes := rows; notes_seq := seq; notes_fts := index;
     core_memories := core_memories db; setup_state := setup_state db |}.

(** SQLite's [lower()], which folds the ASCII letters only. *)
Definition lowerAscii (c : ascii) : ascii :=
  let n := nat_of_ascii c in
  if Nat.leb 65 n && Nat.leb n 90 then ascii_of_nat (n + 32) else c.

Fixpoint lower (s : string) : string :=
  match s with
  | EmptyString => EmptyString
  | String c rest => String (lowerAscii c) (lower rest)
  end.

(** [SELECT id FROM notes WHERE lower(title) = lower(?) LIMIT 1] *)
Definition findNote (t : string) (db : Db) : option NoteRow :=
  List.find (fun n => String.eqb (lower (title n)) (lower t)) (notes db).

Definition ftsEntryOf (n : NoteRow) : FtsEntry :=
  {| fts_rowid := note_id n; fts_title := title n; fts_body := body n |}.

Definition ftsEntry_eqb (a b : FtsEntry) : bool :=
  (fts_rowid a =? fts_rowid b)%Z && String.eqb (fts_title a) (fts_title b)
  && String.eqb (fts_body a) (fts_body b).

(** The index command [INSERT INTO notes_fts(notes_fts, rowid, title, body)
    VALUES ('delete', ...)]. *)
Definition ftsDelete (e : FtsEntry) (index : list FtsEntry) : list FtsEntry :=
  List.filter (fun e' => negb (ftsEntry_eqb e e')) index.

(** [UPDATE notes SET body = ?, ts = unixepoch() WHERE id = ?], with the
    trigger [notes_au] run for each row it changes. *)
Fixpoint updateNote (now : Z) (b : string) (key : Z) (rows : list NoteRow) (index : list FtsEntry)
  : list NoteRow * list FtsEntry :=
  match rows with
  | [] => ([], index)
  | n :: rest =>
      if (note_id n =? key)%Z then
        let n' := {| note_id := note_id n; title := title n; body := b; note_ts := now |} in
        let index := ftsDelete (ftsEntryOf n) index ++ [ftsEntryOf n'] in
        let '(rest', index') := updateNote now b key rest index in
        (n' :: rest', index')
      else
        let '(rest', index') := updateNote now b key rest index in
        (n :: rest', index')
  end.

(** The database part of [saveNote(title, body)], at time [now]. *)
Definition saveNote (now : Z) (t b : string) (db : Db) : Db :=
  match findNote t db with
  | Some existing =>
      let '(rows, index) := updateNote now b (note_id existing) (notes db) (notes_fts db) in
      withNotes rows (notes_seq db) index db
  | None =>
      let key := nextKey (map note_id (notes db)) (notes_seq db) in
      let n := {| note_id := key; title := t; body := b; note_ts := now |} in
      (* the trigger [notes_ai] *)
      withNotes (notes db ++ [n]) key (notes_fts db ++ [ftsEntryOf n]) db
  end.

(** *** Core memories and setup state (core-memory.ts) *)

Definition withCoreMemories (rows : list CoreMemoryRow) (db : Db) : Db :=
  {| messages := messages db; messages_seq := messages_seq db;
     notes := notes db; notes_seq := notes_seq db; notes_fts := notes_fts db;
     core_memories := rows; setup_state := setup_state db |}.

Definition withSetupState (rows : list (Z * Z)) (db : Db) : Db :=
  {| messages := messages db; messages_seq := messages_seq db;
     notes := notes db; notes_seq := notes_seq db; notes_fts := notes_fts db;
     core_memories := core_memories db; setup_state := rows |}.

(** [INSERT ... ON CONFLICT(key) DO UPDATE SET label, value, ts] *)
Fixpoint upsertCore (now : Z) (k l v : string) (rows : list CoreMemoryRow) : list CoreMemoryRow :=
  match rows with
  | [] => [{| cm_key := k; cm_label := l; cm_value := v; cm_ts := now |}]
  | r :: rest =>
      if String.eqb (cm_key r) k
      then {| cm_key := k; cm_label := l; cm_value := v; cm_ts := now |} :: rest
      else r :: upsertCore now k l v rest
  end.

Definition setCoreMemory (now : Z) (k l v : string) (db : Db) : Db :=
  withCoreMemories (upsertCore now k l v (core_memories db)) db.

(** [SELECT key, label, value FROM core_memories ORDER BY rowid ASC] *)
Definition getAllCoreMemories (db : Db) : list CoreMemoryRow := core_memories db.

Definition deleteCoreMemory (k : string) (db : Db) : Db :=
  withCoreMemories (List.filter (fun r => negb (String.eqb (cm_key r) k)) (core_memories db)) db.

Definition getSetupStep (chatId : Z) (db : Db) : option Z :=
  option_map snd (List.find (fun r => (fst r =? chatId)%Z) (setup_state db)).

(** [INSERT ... ON CONFLICT(chat_id) DO UPDATE SET step] *)
Fixpoint upsertStep (chatId step : Z) (rows : list (Z * Z)) : list (Z * Z) :=
  match rows with
  | [] => [(chatId, step)]
  | r :: rest =>
      if (fst r =? chatId)%Z then (chatId, step) :: rest else r :: upsertStep chatId step rest
  end.

Definition setSetupStep (chatId step : Z) (db : Db) : Db :=
  withSetupState (upsertStep chatId step (setup_state db)) db.

Definition clearSetupState (chatId : Z) (db : Db) : Db :=
  withSetupState (List.filter (fun r => negb (fst r =? chatId)%Z) (setup_state db)) db.

End Memory.

(** ** The process and its surroundings *)

(** The state a turn runs in: the SQLite file, and everything else (the
    module-level variables of the process, the file system, the backends),
    of a type [Ext] that is left open. *)
Record World (Ext : Type) := {
  db : Memory.Db;
  ext : Ext;
}.
Arguments db {Ext} _.
Arguments ext {Ext} _.

Definition withDb {Ext : Type} (d : Memory.Db) (w : World Ext) : World Ext :=
  {| db := d; ext := ext w |}.

Definition withExt {Ext : Type} (x : Ext) (w : World Ext) : World Ext :=
  {| db := db w; ext := x |}.

(** [ToolDefinition] (tools/index.ts): [execute] may do anything to the
    world, and may throw. *)
Record ToolDefinition (Ext : Type) := {
  spec : ToolSpec;
  execute : JSON -> World Ext -> Result string * World Ext;
}.
Arguments spec {Ext} _.
Arguments execute {Ext} _ _ _.

(** The echo tool (tools/echo.ts): [`Echo: ${String(args["text"] ?? "")}`]. *)
Definition echoTool {Ext : Type} : ToolDefinition Ext :=
  {| spec :=
       {| fn_name := "echo";
          fn_description :=
            Some "Echoes back whatever text you give it. Use this to test that the tool-calling loop is working.";
          fn_parameters :=
            Some [("type", JString "object");
                  ("properties",
                    JObject [("text", JObject [("type", JString "string");
                                               ("description", JString "The text to echo back.")])]);
                  ("required", JArray [JString "text"]);
                  ("additionalProperties", JBool false)] |};
     execute := fun args w =>
       match readProp "text" (Some args) with
       | Throw e => (Throw e, w)
       | Ok v =>
           (Ok ("Echo: " +:+ match v with
                             | None | Some JNull => EmptyString
                             | Some x => toString x
                             end), w)
       end |}.

(** The double quote, for the texts that contain one. *)
Definition dq : string := String (ascii_of_nat 34) EmptyString.

(** [lines.join(sep)] *)
Fixpoint join (sep : string) (lines : list string) : string :=
  match lines with
  | [] => EmptyString
  | [l] => l
  | l :: rest => l +:+ sep +:+ join sep rest
  end.

(** A row of the Supabase [memories] table as a search returns it. *)
Record MemoryRecord := {
  mem_title : string;
  mem_body : string;
  mem_similarity : string;
}.

(** What [supabase.rpc] resolves to: [{ data, error }]. *)
Inductive RpcReply (A : Type) : Type :=
| RpcData (data : A)
| RpcError (message : string).
Arguments RpcData {A} data.
Arguments RpcError {A} message.

(** The outside of semantic-memory.ts and of [saveNote]: configuration, the
    clock, the embedding endpoint and the two Supabase procedures. An
    embedding is carried as a JavaScript value. *)
Class StoreEnv (Ext : Type) := {
  isSupabaseConfigured : bool;
  unixepoch : Ext -> Z;
  getEmbedding : string -> Ext -> Result JSON * Ext;
  rpc_search_memories : JSON -> nat -> Ext -> Result (RpcReply (list MemoryRecord)) * Ext;
  rpc_upsert_memory : string -> string -> JSON -> Ext -> Result (RpcReply unit) * Ext;
  trim : string -> string;   (* [String.prototype.trim] *)
}.

(** The outside of [extractAndSaveFacts]: the key, and the gpt-4o-mini call,
    which resolves to [response.choices[0]?.message?.content] or throws. *)
Class FactsEnv (Ext : Type) := {
  OPENAI_API_KEY : string;
  createExtraction : string -> Ext -> Result (option string) * Ext;
}.

(** The outside of the agent loop: the iteration cap, the tool registry, the
    active provider (building it may throw), the base prompt, and the order
    in which concurrent tool executions settle: with [n] of them pending in
    world [w], the one at position [settlesNext w n mod n] settles next. *)
Class AgentEnv (Ext : Type) := {
  AGENT_MAX_ITERATIONS : nat;
  tools : list (ToolDefinition Ext);
  getActiveProvider : Ext -> Result (LLMProvider Ext) * Ext;
  BASE_SYSTEM_PROMPT : Ext -> string;
  settlesNext : World Ext -> nat -> nat;
}.

(** ** Semantic memory (semantic-memory.ts) *)

Section SemanticMemory.
Context {Ext : Type} `{StoreEnv Ext}.

(** [semanticSearch(query, limit)]: empty when unconfigured and on any error. *)
Definition semanticSearch (query : string) (limit : nat) (x : Ext) : list MemoryRecord * Ext :=
  if negb isSupabaseConfigured then ([], x)
  else
    match getEmbedding query x with
    | (Throw _, x1) => ([], x1)
    | (Ok embedding, x1) =>
        match rpc_search_memories embedding limit x1 with
        | (Throw _, x2) => ([], x2)
        | (Ok (RpcError _), x2) => ([], x2)
        | (Ok (RpcData rows), x2) => (rows, x2)
        end
    end.

(** [upsertMemory(title, body)]: [true] on success, [false] otherwise. *)
Definition upsertMemory (title body : string) (x : Ext) : bool * Ext :=
  if negb isSupabaseConfigured then (false, x)
  else
    match getEmbedding (title +:+ ": " +:+ body) x with
    | (Throw _, x1) => (false, x1)
    | (Ok embedding, x1) =>
        match rpc_upsert_memory title body embedding x1 with
        | (Throw _, x2) => (false, x2)
        | (Ok (RpcError _), x2) => (false, x2)
        | (Ok (RpcData _), x2) => (true, x2)
        end
    end.

End SemanticMemory.

(** ** The tool registry (tools/index.ts) *)

Section Tools.
Context {Ext : Type} `{JSEngine} `{AgentEnv Ext}.

(** [getOpenAITools()] *)
Definition getOpenAITools : list ToolSpec := map spec tools.

(** [tools.find((t) => t.spec.function.name === name)] *)
Definition lookupTool (name : string) : option (ToolDefinition Ext) :=
  List.find (fun t => String.eqb (fn_name (spec t)) name) tools.

(** [dispatchTool(name, rawArgs)] *)
Definition dispatchTool (name rawArgs : string) (w : World Ext) : string * World Ext :=
  match lookupTool name with
  | None => ("Error: unknown tool " +:+ dq +:+ name +:+ dq, w)
  | Some tool =>
      match JSON_parse rawArgs with
      | None => ("Error: could not parse arguments as JSON: " +:+ rawArgs, w)
      | Some args =>
          match execute tool args w with
          | (Ok output, w') => (output, w')
          | (Throw err, w') =>
              ("Error executing " +:+ dq +:+ name +:+ dq +:+ ": " +:+ err, w')
          end
      end
  end.

End Tools.

(** ** The agent (agent.ts) *)

(** The line feed. *)
Definition nl : string := String (ascii_of_nat 10) EmptyString.

Definition systemMessage (systemPrompt : string) : JSON :=
  JObject [("role", JString "system"); ("content", JString systemPrompt)].

Definition userMessageOf (userMessage : string) : JSON :=
  JObject [("role", JString "user"); ("content", JString userMessage)].

(** [{ role: "tool", tool_call_id: call.id, content: output }] *)
Definition toolMessage (tool_call_id output : string) : JSON :=
  JObject [("role", JString "tool");
           ("tool_call_id", JString tool_call_id);
           ("content", JString output)].

Definition MAX_ITERATIONS_REPLY : string :=
  "⚠️ I hit my maximum tool-call limit for this turn. Please try again or rephrase your request.".

(** What the process does to its surroundings that the properties below
    speak of: a completion requested from the provider, with the message
    list sent, and a tool dispatched. *)
Inductive Event :=
| ProviderCall (messages : list JSON)
| ToolDispatch (name rawArgs : string).

(** How a turn ends: by the [return] of the final reply, by the [return]
    after the loop, by an exception, or never (a promise awaited that does
    not settle). *)
Inductive Outcome :=
| FinalReply (reply : string) (updatedHistory : list JSON)
| MaxIterations (reply : string) (updatedHistory : list JSON)
| Raised (err : string)
| Pending.

(** The [{ reply, updatedHistory }] a turn returns, if it returns. *)
Definition returned (o : Outcome) : option (string * list JSON) :=
  match o with
  | FinalReply reply updatedHistory => Some (reply, updatedHistory)
  | MaxIterations reply updatedHistory => Some (reply, updatedHistory)
  | Raised _ => None
  | Pending => None
  end.

Section Facts.
Context {Ext : Type} `{JSEngine} `{StoreEnv Ext} `{FactsEnv Ext}.

(** [saveNote(title, body)] (memory.ts): the database write, then the vector
    upsert, started and not awaited. *)
Definition saveNote (title body : string) (w : World Ext) : World Ext :=
  let d := Memory.saveNote (unixepoch (ext w)) title body (db w) in
  let '(_, x) := upsertMemory title body (ext w) in
  {| db := d; ext := x |}.

Definition extractionPrompt (userMessage assistantReply : string) : string :=
  "You are a memory extraction assistant. Given the exchange below, extract up to 5 specific, memorable facts, preferences, goals, decisions, or personal details that were shared."
  +:+ nl +:+ nl +:+
  "Output ONLY a JSON array like: [{" +:+ dq +:+ "title" +:+ dq +:+ ": " +:+ dq +:+ "short label"
  +:+ dq +:+ ", " +:+ dq +:+ "body" +:+ dq +:+ ": " +:+ dq +:+ "concise fact" +:+ dq +:+ "}]"
  +:+ nl +:+
  "If there is nothing worth saving (small talk, questions with no new info), output: []"
  +:+ nl +:+ nl +:+
  "User: " +:+ userMessage +:+ nl +:+
  "Assistant: " +:+ assistantReply +:+ nl +:+ nl +:+
  "Remember: only save concrete, reusable information. Do NOT save conversational filler.".

(** The [for] loop over the extracted facts; it ends at the first fact that
    makes it throw. *)
Fixpoint saveFacts (facts : list JSON) (w : World Ext) : Result unit * World Ext :=
  match facts with
  | [] => (Ok tt, w)
  | fact :: rest =>
      match fact with
      | JNull => (Throw "TypeError: Cannot read properties of null", w)
      | _ =>
          if truthy (get "title" fact) && truthy (get "body" fact) then
            match get "title" fact, get "body" fact with
            | Some (JString t), Some (JString b) => saveFacts rest (saveNote (trim t) (trim b) w)
            | _, _ => (Throw "TypeError: trim is not a function", w)
            end
          else saveFacts rest w
      end
  end.

(** The facts a parsed reply holds: the array itself, or the array under
    its [facts] property, or none. *)
Definition factsIn (parsed : JSON) : list JSON :=
  match parsed with
  | JArray items => items
  | JObject fields =>
      match assoc "facts" fields with
      | Some (JArray items) => items
      | _ => []
      end
  | _ => []
  end.

(** The [try] block of [extractAndSaveFacts]. *)
Definition extractAndSaveFactsBody (userMessage assistantReply : string) (w : World Ext)
  : Result unit * World Ext :=
  match createExtraction (extractionPrompt userMessage assistantReply) (ext w) with
  | (Throw e, x) => (Throw e, withExt x w)
  | (Ok c, x) =>
      let raw := orDefault c "{}" in
      match JSON_parse raw with
      | None => (Throw "SyntaxError", withExt x w)
      | Some parsed => saveFacts (firstn 5 (factsIn parsed)) (withExt x w)
      end
  end.

(** [extractAndSaveFacts]: the promise it returns is always fulfilled. *)
Definition extractAndSaveFacts (userMessage assistantReply : string) (w : World Ext)
  : Result unit * World Ext :=
  if String.eqb OPENAI_API_KEY "" then (Ok tt, w)
  else
    match extractAndSaveFactsBody userMessage assistantReply w with
    | (Ok _, w') => (Ok tt, w')
    | (Throw _, w') => (Ok tt, w')   (* logged, never propagated *)
    end.

End Facts.

Section Agent.
Context {Ext : Type} `{JSEngine} `{StoreEnv Ext} `{FactsEnv Ext} `{AgentEnv Ext}.

(** [buildSystemPrompt(userMessage)] *)
Definition buildSystemPrompt (userMessage : string) (w : World Ext) : string * World Ext :=
  let coreMemories := Memory.getAllCoreMemories (db w) in
  let coreBlock :=
    if Nat.ltb 0 (length coreMemories) then
      nl +:+ nl +:+ "[OWNER PROFILE — always accurate, set by /setup]" +:+ nl +:+
      join nl (map (fun m => "• " +:+ Memory.cm_label m +:+ ": " +:+ Memory.cm_value m) coreMemories)
    else EmptyString in
  let baseWithCore := BASE_SYSTEM_PROMPT (ext w) +:+ coreBlock in
  if negb isSupabaseConfigured then (baseWithCore, w)
  else
    let '(memories, x) := semanticSearch userMessage 3 (ext w) in
    if Nat.eqb (length memories) 0 then (baseWithCore, withExt x w)
    else
      let memBlock :=
        join nl (map (fun m => "• " +:+ mem_title m +:+ ": " +:+ mem_body m) memories) in
      (baseWithCore +:+ nl +:+ nl +:+
       "[MEMORY CONTEXT — retrieved from your long-term memory based on this message]" +:+ nl +:+
       memBlock,
       withExt x w).

(** One of the concurrent executions of a tool-call batch: the [async]
    function given to [toolCalls.map]. *)
Definition toolTask (call : ToolCall) (w : World Ext) : JSON * World Ext :=
  let '(output, w') := dispatchTool (tc_name call) (tc_arguments call) w in
  (toolMessage (tc_id call) output, w').

(** The executions settle one after the other, each taken as one step on
    the world, in the order [settlesNext] decides; the result of the one
    started for the [i]-th call is stored at index [i] of [values]. *)
Fixpoint settle (steps : nat) (pending : list nat) (calls : list ToolCall)
    (values : list (option JSON)) (w : World Ext) (log : list Event)
  : list (option JSON) * World Ext * list Event :=
  match steps with
  | 0 => (values, w, log)
  | S steps' =>
      let position := settlesNext w (length pending) mod length pending in
      match pending !! position with
      | None => (values, w, log)
      | Some i =>
          match calls !! i with
          | None => (values, w, log)
          | Some call =>
              let '(message, w') := toolTask call w in
              settle steps' (delete position pending) calls
                (<[i := Some message]> values) w'
                (log ++ [ToolDispatch (tc_name call) (tc_arguments call)])
          end
      end
  end.

(** [await Promise.all(toolCalls.map(async (call) => ...))]: the array of the
    results in the order of the calls, once every execution has settled;
    [None] if one never does. *)
Definition promiseAll (calls : list ToolCall) (w : World Ext) (log : list Event)
  : option (list JSON) * World Ext * list Event :=
  let '(values, w', log') :=
    settle (length calls) (seq 0 (length calls)) calls
      (replicate (length calls) None) w log in
  (mapM (fun v => v) values, w', log').

(** [messages.slice(1)] *)
Definition slice1 (messages : list JSON) : list JSON := drop 1 messages.

(** The [while] loop of [runAgentTurn], with
    [remaining = AGENT_MAX_ITERATIONS - iterations]. *)
Fixpoint agentLoop (remaining : nat) (userMessage : string) (messages : list JSON)
    (w : World Ext) (log : list Event) : Outcome * World Ext * list Event :=
  match remaining with
  | 0 => (MaxIterations MAX_ITERATIONS_REPLY (slice1 messages), w, log)
  | S remaining' =>
      match getActiveProvider (ext w) with
      | (Throw e, x) => (Raised e, withExt x w, log)
      | (Ok provider, x) =>
          let log := log ++ [ProviderCall messages] in
          match complete provider messages getOpenAITools x with
          | (Throw e, x') => (Raised e, withExt x' w, log)
          | (Ok result, x') =>
              let w := withExt x' w in
              let messages := messages ++ [assistantMessage result] in
              match toolCalls result with
              | Some (call :: calls) =>
                  match promiseAll (call :: calls) w log with
                  | (None, w', log') => (Pending, w', log')
                  | (Some toolResults, w', log') =>
                      agentLoop remaining' userMessage (messages ++ toolResults) w' log'
                  end
              | _ =>
                  let reply := orDefault (content result) "(no response)" in
                  let updatedHistory := slice1 messages in
                  (* [void extractAndSaveFacts(userMessage, reply).catch(() => {})] *)
                  let '(_, w') := extractAndSaveFacts userMessage reply w in
                  (FinalReply reply updatedHistory, w', log)
              end
          end
      end
  end.

(** [runAgentTurn(history, userMessage)] *)
Definition runAgentTurn (history : list JSON) (userMessage : string) (w : World Ext)
  : Outcome * World Ext * list Event :=
  let '(systemPrompt, w) := buildSystemPrompt userMessage w in
  let messages := systemMessage systemPrompt :: history ++ [userMessageOf userMessage] in
  agentLoop AGENT_MAX_ITERATIONS userMessage messages w [].

End Agent.

(** ** What a turn can be said to have done *)

Section Provenance.
Context {Ext : Type} `{JSEngine} `{AgentEnv Ext}.

(** [r] is a response the active provider gave to a completion request. *)
Definition producedBy (r : LLMResponse) : Prop :=
  exists x p x1 messages x2,
    getActiveProvider x = (Ok p, x1)
    /\ complete p messages getOpenAITools x1 = (Ok r, x2).

(** [e] is what building the active provider, or one of its completions,
    threw. *)
Definition thrownByProvider (e : string) : Prop :=
  (exists x x1, getActiveProvider x = (Throw e, x1))
  \/ (exists x p x1 messages x2,
        getActiveProvider x = (Ok p, x1)
        /\ complete p messages getOpenAITools x1 = (Throw e, x2)).

(** What the loop pushes onto the message list: the assistant message of a
    provider response, or the result message of a tool call. *)
Definition pushedInTurn (m : JSON) : Prop :=
  (exists tool_call_id output, m = toolMessage tool_call_id output)
  \/ (exists r, producedBy r /\ assistantMessage r = m).

(** The active provider can always be built, never throws, and always asks
    for at least one tool call. *)
Definition alwaysRequestsTools : Prop :=
  (forall x, exists p x1, getActiveProvider x = (Ok p, x1))
  /\ (forall x p x1, getActiveProvider x = (Ok p, x1) ->
       forall messages x2, exists r x3 call calls,
         complete p messages getOpenAITools x2 = (Ok r, x3)
         /\ toolCalls r = Some (call :: calls)).

End Provenance.

(** [served] reads, off the world outside the process, how many completions
    the provider has been asked for: every call of [complete] on the active
    provider adds one to it, whatever the call resolves to, and nothing else
    the turn does outside (getting hold of the provider, running a tool, an
    embedding, a Supabase procedure, the fact extraction) changes it. *)
Definition countsCompletions {Ext : Type} `{StoreEnv Ext} `{FactsEnv Ext} `{AgentEnv Ext}
    (served : Ext -> nat) : Prop :=
  (forall x, served (snd (getActiveProvider x)) = served x)
  /\ (forall x p x1, getActiveProvider x = (Ok p, x1) ->
       forall messages tools x2,
         served (snd (complete p messages tools x2)) = S (served x2))
  /\ (forall tool, In tool tools ->
       forall args (w : World Ext), served (ext (snd (execute tool args w))) = served (ext w))
  /\ (forall text x, served (snd (getEmbedding text x)) = served x)
  /\ (forall embedding limit x,
        served (snd (rpc_search_memories embedding limit x)) = served x)
  /\ (forall title body embedding x,
        served (snd (rpc_upsert_memory title body embedding x)) = served x)
  /\ (forall prompt x, served (snd (createExtraction prompt x)) = served x).

Definition isProviderCall (e : Event) : bool :=
  match e with
  | ProviderCall _ => true
  | ToolDispatch _ _ => false
  end.

(** How many completions the log records. *)
Definition providerCalls (log : list Event) : nat :=
  length (List.filter isProviderCall log).

(** [m.tool_call_id] *)
Definition toolCallIdOf (m : JSON) : option string := asString (get "tool_call_id" m).

(** The contract of [LLMResponse]: content is null exactly when there is a
    non-empty list of tool calls, and the tool calls are null exactly when
    there is a content string. *)
Definition exactlyOne (r : LLMResponse) : Prop :=
  (content r = None <-> exists call calls, toolCalls r = Some (call :: calls))
  /\ (toolCalls r = None <-> exists text, content r = Some text).

(** The same of what a completion resolves to, when it does. *)
Definition keepsContract (res : Result LLMResponse) : Prop :=
  match res with
  | Ok r => exactlyOne r
  | Throw _ => True
  end.


(** The event a dispatched tool call leaves in the log. *)
Definition dispatchEvent (c : ToolCall) : Event :=
  ToolDispatch (tc_name c) (tc_arguments c).

(** The tools leave the [messages] table and its key counter alone. *)
Definition toolsKeepMessages {Ext : Type} `{AgentEnv Ext} : Prop :=
  forall tool, In tool tools ->
    forall args (w : World Ext),
      Memory.messages (db (snd (execute tool args w))) = Memory.messages (db w)
      /\ Memory.messages_seq (db (snd (execute tool args w))) = Memory.messages_seq (db w).

(** Two worlds hold the same conversations. *)
Definition sameConversations {Ext : Type} (w w' : World Ext) : Prop :=
  Memory.messages (db w') = Memory.messages (db w)
  /\ Memory.messages_seq (db w') = Memory.messages_seq (db w).

(** The full-text index mirrors the notes: the notes have distinct keys, and
    the index holds exactly one entry per note, with its key, title and
    body. *)
Definition ftsInSync (d : Memory.Db) : Prop :=
  NoDup (map Memory.note_id (Memory.notes d))
  /\ Memory.notes_fts d ≡ₚ map Memory.ftsEntryOf (Memory.notes d).

(** [SELECT ... FROM core_memories WHERE key = ?] *)
Definition coreMemory (k : string) (d : Memory.Db) : option Memory.CoreMemoryRow :=
  List.find (fun r => String.eqb (Memory.cm_key r) k) (Memory.core_memories d).

(** The text the Google adapter makes of a user message. *)
Definition geminiUserText `{JSEngine} (m : JSON) : string :=
  match get "content" m with
  | Some (JString s) => s
  | Some JNull | None => JSON_stringify (JString EmptyString)
  | Some v => JSON_stringify v
  end.

(** The text of the last message that is not a system message, if that is a
    user message; the empty string otherwise. *)
Definition geminiPrompt `{JSEngine} (messages : list JSON) : string :=
  match last (List.filter (fun m => negb (hasRole "system" m)) messages) with
  | Some m => if hasRole "user" m then geminiUserText m else EmptyString
  | None => EmptyString
  end.

(** A message of the Anthropic conversation: from the user or from the
    assistant. *)
Definition userOrAssistant (m : JSON) : Prop :=
  hasRole "user" m = true \/ hasRole "assistant" m = true.

(** ** The provider registry (providers/registry.ts) *)

Module Registry.

(** The part of the configuration the registry reads. An API key that is
    not set is the empty string. *)
Record Config := {
  OPENAI_KEY : string;
  OPENAI_MODEL : string;
  ANTHROPIC_API_KEY : string;
  GOOGLE_API_KEY : string;
  GROQ_API_KEY : string;
}.

(** The constructors of the three SDK clients: [new OpenAI({ apiKey,
    baseURL })], [new Anthropic({ apiKey })], [new GoogleGenerativeAI(apiKey)]. *)
Class SDKs (Ext : Type) := {
  newOpenAI : string -> option string -> OpenAI.Client Ext;
  newAnthropic : string -> Anthropic.Client Ext;
  newGoogle : string -> Google.Client Ext;
}.

Definition ACTIVE_LLM_KEY : string := "active_llm".


(** [s.split(sep)] for a separator of one character. *)
Fixpoint split (sep : ascii) (s : string) : list string :=
  match s with
  | EmptyString => [EmptyString]
  | String c rest =>
      if Ascii.eqb c sep then EmptyString :: split sep rest
      else
        match split sep rest with
        | head :: tail => String c head :: tail
        | [] => [String c EmptyString]
        end
  end.

Definition colon : ascii := ascii_of_nat 58.

Section WithSDKs.
Context {Ext : Type} `{JSEngine} `{SDKs Ext}.

Definition createOpenAIProvider (apiKey model : string) : LLMProvider Ext :=
  OpenAI.makeOpenAICompatible (newOpenAI apiKey None) "openai" "OpenAI" model.

Definition createDeepSeekProvider (apiKey model : string) : LLMProvider Ext :=
  OpenAI.makeOpenAICompatible (newOpenAI apiKey (Some "https://api.deepseek.com"))
    "deepseek" "DeepSeek" model.

Definition createGroqProvider (apiKey model : string) : LLMProvider Ext :=
  OpenAI.makeOpenAICompatible (newOpenAI apiKey (Some "https://api.groq.com/openai/v1"))
    "groq" "Groq" model.

(** [buildProvider(providerId, model)] *)
Definition buildProvider (config : Config) (providerId model : string)
  : Result (LLMProvider Ext) :=
  if String.eqb providerId "openai" then
    Ok (createOpenAIProvider (OPENAI_KEY config) model)
  else if String.eqb providerId "anthropic" then
    if String.eqb (ANTHROPIC_API_KEY config) EmptyString
    then Throw "Error: ANTHROPIC_API_KEY is not set"
    else Ok (Anthropic.createAnthropicProvider (newAnthropic (ANTHROPIC_API_KEY config)) model)
  else if String.eqb providerId "google" then
    if String.eqb (GOOGLE_API_KEY config) EmptyString
    then Throw "Error: GOOGLE_API_KEY is not set"
    else Ok (Google.createGoogleProvider (newGoogle (GOOGLE_API_KEY config)) model)
  else if String.eqb providerId "groq" then
    if String.eqb (GROQ_API_KEY config) EmptyString
    then Throw "Error: GROQ_API_KEY is not set"
    else Ok (createGroqProvider (GROQ_API_KEY config) model)
  else Throw ("Error: Unknown provider: " +:+ dq +:+ providerId +:+ dq).

(** [loadActiveSpec()]: the provider id and model stored under
    [active_llm] as [id:model], or OpenAI with the configured model. *)
Definition loadActiveSpec (config : Config) (d : Memory.Db) : string * string :=
  let fallback := ("openai", OPENAI_MODEL config) in
  match List.find (fun m => String.eqb (Memory.cm_key m) ACTIVE_LLM_KEY)
          (Memory.getAllCoreMemories d) with
  | Some entry =>
      match split colon (Memory.cm_value entry) with
      | providerId :: rest =>
          let model := join (String colon EmptyString) rest in
          if negb (String.eqb providerId EmptyString) && negb (String.eqb model EmptyString)
          then (providerId, model)
          else fallback
      | [] => fallback
      end
  | None => fallback
  end.

(** The module-level variables [_provider] and [_activeSpec]. *)
Record State := {
  _provider : option (LLMProvider Ext);
  _activeSpec : string * string;
}.

(** [getActiveProvider()]: built on first use, then kept. *)
Definition getActiveProvider (config : Config) (st : State) : Result (LLMProvider Ext) * State :=
  match _provider st with
  | Some p => (Ok p, st)
  | None =>
      match buildProvider config (fst (_activeSpec st)) (snd (_activeSpec st)) with
      | Ok p => (Ok p, {| _provider := Some p; _activeSpec := _activeSpec st |})
      | Throw e => (Throw e, st)
      end
  end.



End WithSDKs.

End Registry.

(** ** The remember tool (tools/remember.ts) *)

(** The white heavy check mark that opens the tool's confirmation, in UTF-8. *)
Definition checkMark : string :=
  String (ascii_of_nat 226) (String (ascii_of_nat 156) (String (ascii_of_nat 133) EmptyString)).

(** [String(args[k] ?? "").trim()] *)
Definition argText {Ext : Type} `{StoreEnv Ext} (k : string) (args : JSON) : Result string :=
  v ← readProp k (Some args);
  Ok (trim (match v with
            | None | Some JNull => EmptyString
            | Some x => toString x
            end)).

Definition rememberTool {Ext : Type} `{JSEngine} `{StoreEnv Ext} : ToolDefinition Ext :=
  {| spec :=
       {| fn_name := "remember";
          fn_description :=
            Some ("Save a named note to persistent memory. "
                  +:+ "Use this whenever the owner asks you to remember something. "
                  +:+ "If a note with the same title already exists it is overwritten.");
          fn_parameters :=
            Some [("type", JString "object");
                  ("properties",
                    JObject
                      [("title",
                         JObject [("type", JString "string");
                                  ("description",
                                    JString "A short, descriptive title for the note (e.g. 'favorite color', 'gym schedule').")]);
                       ("body",
                         JObject [("type", JString "string");
                                  ("description", JString "The content to remember.")])]);
                  ("required", JArray [JString "title"; JString "body"]);
                  ("additionalProperties", JBool false)] |};
     execute := fun args w =>
       match argText "title" args, argText "body" args with
       | Throw e, _ => (Throw e, w)
       | _, Throw e => (Throw e, w)
       | Ok title, Ok body =>
           if String.eqb title EmptyString || String.eqb body EmptyString
           then (Ok "Error: both title and body are required.", w)
           else
             (Ok (checkMark +:+ " Remembered: **" +:+ title +:+ "**"),
              saveNote title body w)
       end |}.

(** ** The shell tool (tools/shell.ts) *)

Module Shell.

(** The texts of this tool are taken as sequences of UTF-16 code units:
    [trim] and the regular expression [\s] test one code unit at a time. *)
Definition JsString : Type := list N.

(** An ASCII literal. *)
Definition lit (s : string) : JsString := map N_of_ascii (list_ascii_of_string s).

(** White space and line terminators of ECMAScript: what [trim] removes and
    what [\s] matches. *)
Definition isSpace (c : N) : bool :=
  existsb (N.eqb c)
    [0x9; 0xA; 0xB; 0xC; 0xD; 0x20; 0xA0; 0x1680; 0x2028; 0x2029; 0x202F; 0x205F;
     0x3000; 0xFEFF]%N
  || ((0x2000 <=? c) && (c <=? 0x200A))%N.

Fixpoint trimStart (s : JsString) : JsString :=
  match s with
  | c :: rest => if isSpace c then trimStart rest else s
  | [] => []
  end.

Fixpoint trimEnd (s : JsString) : JsString :=
  match s with
  | c :: rest =>
      match trimEnd rest with
      | [] => if isSpace c then [] else [c]
      | kept => c :: kept
      end
  | [] => []
  end.

(** [s.trim()] *)
Definition trim (s : JsString) : JsString := trimEnd (trimStart s).

(** [s.split(/\s+/)]: the pieces between the maximal runs of white space;
    a run at either end leaves an empty piece there, and the empty text
    gives one empty piece. [inRun] says that the code unit before was white
    space. *)
Fixpoint splitSpaces (inRun : bool) (s : JsString) : list JsString :=
  match s with
  | [] => [[]]
  | c :: rest =>
      if isSpace c then
        if inRun then splitSpaces true rest else [] :: splitSpaces true rest
      else
        match splitSpaces false rest with
        | piece :: pieces => (c :: piece) :: pieces
        | [] => [[c]]
        end
  end.

(** [s.split(sep)] for a separator of one code unit. *)
Fixpoint splitOn (sep : N) (s : JsString) : list JsString :=
  match s with
  | [] => [[]]
  | c :: rest =>
      if (c =? sep)%N then [] :: splitOn sep rest
      else
        match splitOn sep rest with
        | piece :: pieces => (c :: piece) :: pieces
        | [] => [[c]]
        end
  end.

(** [a === b] on texts. *)
Fixpoint sameText (a b : JsString) : bool :=
  match a, b with
  | [], [] => true
  | x :: a', y :: b' => (x =? y)%N && sameText a' b'
  | _, _ => false
  end.

Definition comma : N := 0x2C.

Definition MAX_OUTPUT_BYTES : nat := 8 * 1024.

(** [command.trim().split(/\s+/)[0] ?? ""] *)
Definition parseExecutable (command : JsString) : JsString :=
  match splitSpaces false (trim command) with
  | first :: _ => first
  | [] => []
  end.

(** What a finished child process leaves. *)
Record Finished := {
  exit_code : Z;
  stdout : JsString;
  stderr : JsString;
}.

(** The surroundings of the tool: the configured allowlist,
    [String.prototype.toLowerCase], and [runCommand], which hands the whole
    command line to [/bin/sh -c] (or [cmd.exe /c]) and always resolves. *)
Class ShellEnv (Ext : Type) := {
  SHELL_ALLOWED_COMMANDS : JsString;
  toLowerCase : JsString -> JsString;
  runCommand : JsString -> JsString -> Ext -> Finished * Ext;
}.

Section WithShell.
Context {Ext : Type} `{ShellEnv Ext}.

(** The allowlist as [isAllowed] reads it: split at commas, each entry
    trimmed and lower-cased, the empty entries dropped. *)
Definition allowed : list JsString :=
  List.filter (fun s => negb (sameText s []))
    (map (fun s => toLowerCase (trim s)) (splitOn comma SHELL_ALLOWED_COMMANDS)).

Definition isAllowed (executable : JsString) : bool :=
  existsb (sameText (toLowerCase executable)) allowed.

Definition nl2 : JsString := [0xA; 0xA]%N.

(** [parts.join("\n\n")] *)
Fixpoint joinParts (parts : list JsString) : JsString :=
  match parts with
  | [] => []
  | [part] => part
  | part :: rest => part ++ nl2 ++ joinParts rest
  end.

(** The reply for a finished command. *)
Definition report (r : Finished) : JsString :=
  let trimmedStdout := firstn MAX_OUTPUT_BYTES (stdout r) in
  let trimmedStderr := firstn MAX_OUTPUT_BYTES (stderr r) in
  joinParts
    ([lit "exit_code: " ++ lit (pretty (exit_code r))]
     ++ (if sameText trimmedStdout [] then [] else [lit "stdout:" ++ [0xA%N] ++ trimmedStdout])
     ++ (if sameText trimmedStderr [] then [] else [lit "stderr:" ++ [0xA%N] ++ trimmedStderr])
     ++ (if sameText trimmedStdout [] && sameText trimmedStderr []
         then [lit "(no output)"] else [])).

Definition refusal (executable : JsString) : JsString :=
  [0x274C%N] ++ lit " Executable " ++ [0x22%N] ++ executable ++ [0x22%N]
  ++ lit " is not in the allowlist." ++ [0xA%N]
  ++ lit "Allowed: " ++ SHELL_ALLOWED_COMMANDS ++ [0xA%N]
  ++ lit "Set SHELL_ALLOWED_COMMANDS in .env to expand access.".

(** [shellExecTool.execute(args)], from the two texts it reads:
    [commandArg] is [String(args["command"] ?? "")] and [cwd] is
    [String(args["cwd"] ?? process.cwd())]. *)
Definition shellExec (commandArg cwd : JsString) (x : Ext) : JsString * Ext :=
  let command := trim commandArg in
  if sameText command [] then (lit "Error: 'command' is required.", x)
  else
    let executable := parseExecutable command in
    if negb (isAllowed executable) then (refusal executable, x)
    else
      let '(finished, x') := runCommand command cwd x in
      (report finished, x').

End WithShell.

End Shell.

(** ** MCP tools in the registry (mcp/client.ts, tools/mcp-bridge.ts,
       tools/index.ts) *)

Module Mcp.

(** A tool as an MCP server lists it. *)
Record ListedTool := {
  lt_name : string;
  lt_description : option string;
  lt_inputSchema : option (list (string * JSON));
}.

Record McpTool := {
  fullName : string;
  toolName : string;
  serverName : string;
  description : string;
  inputSchema : list (string * JSON);
}.

(** The [map] of [discoverTools] (mcp/client.ts), for the server [name]. *)
Definition discovered (name : string) (listed : list ListedTool) : list McpTool :=
  map (fun t =>
         {| fullName := "mcp__" +:+ name +:+ "__" +:+ lt_name t;
            toolName := lt_name t;
            serverName := name;
            description := orDefault (lt_description t) EmptyString;
            inputSchema :=
              match lt_inputSchema t with
              | Some schema => schema
              | None => [("type", JString "object"); ("properties", JObject [])]
              end |})
      listed.

(** [getMcpTools()]: the tools of the connected servers, server by server. *)
Definition getMcpTools (connected : list (string * list ListedTool)) : list McpTool :=
  concat (map (fun c => discovered (fst c) (snd c)) connected).

Section WithCall.
Context {Ext : Type}.
Variable callMcpTool : string -> JSON -> World Ext -> Result string * World Ext.

(** [buildMcpTools()] (tools/mcp-bridge.ts) *)
Definition buildMcpTools (mcpTools : list McpTool) : list (ToolDefinition Ext) :=
  map (fun mcpTool =>
         {| spec :=
              {| fn_name := fullName mcpTool;
                 fn_description :=
                   Some ("[MCP:" +:+ serverName mcpTool +:+ "] " +:+ description mcpTool);
                 fn_parameters := Some (inputSchema mcpTool) |};
            execute := callMcpTool (fullName mcpTool) |})
      mcpTools.

End WithCall.

(** [s.startsWith(p)] *)
Fixpoint startsWith (p s : string) : bool :=
  match p, s with
  | EmptyString, _ => true
  | String a p', String b s' => Ascii.eqb a b && startsWith p' s'
  | String _ _, EmptyString => false
  end.

(** [t.spec.function.name.startsWith("mcp__")] *)
Definition isMcp {Ext : Type} (t : ToolDefinition Ext) : bool :=
  startsWith "mcp__" (fn_name (spec t)).

(** [refreshMcpTools()] (tools/index.ts): the registry after the call, from
    the registry before it and the tools [buildMcpTools()] returns. *)
Definition refreshMcpTools {Ext : Type} (tools mcpTools : list (ToolDefinition Ext))
  : list (ToolDefinition Ext) :=
  let nonMcp := List.filter (fun t => negb (isMcp t)) tools in
  nonMcp ++ mcpTools.

End Mcp.

(** ** Test doubles *)

Module Stub.

Definition quoted (s : string) : string := dq +:+ s +:+ dq.

(** [{"role":r,"content":c}] as text. *)
Definition messageText (r c : string) : string :=
  "{" +:+ quoted "role" +:+ ":" +:+ quoted r +:+ "," +:+ quoted "content" +:+ ":" +:+ quoted c +:+ "}".

Definition plainMessage (r c : string) : JSON :=
  JObject [("role", JString r); ("content", JString c)].

Fixpoint JSON_eqb (a b : JSON) : bool :=
  match a, b with
  | JNull, JNull => true
  | JBool x, JBool y => Bool.eqb x y
  | JNumber x, JNumber y => String.eqb x y
  | JString x, JString y => String.eqb x y
  | JArray xs, JArray ys =>
      (fix go (xs ys : list JSON) : bool :=
         match xs, ys with
         | [], [] => true
         | x :: xs', y :: ys' => JSON_eqb x y && go xs' ys'
         | _, _ => false
         end) xs ys
  | JObject xs, JObject ys =>
      (fix go (xs ys : list (string * JSON)) : bool :=
         match xs, ys with
         | [], [] => true
         | (k, x) :: xs', (k', y) :: ys' => String.eqb k k' && JSON_eqb x y && go xs' ys'
         | _, _ => false
         end) xs ys
  | _, _ => false
  end.

(** The texts the stub codec knows. *)
Definition texts : list (string * JSON) :=
  [("{}", JObject []);
   (messageText "user" "hi", plainMessage "user" "hi");
   (messageText "assistant" "hello", plainMessage "assistant" "hello")].

(** A codec over a finite table, and a few inherited names. *)
Definition engine : JSEngine :=
  {| JSON_parse := fun text => assoc text texts;
     JSON_stringify := fun v =>
       match List.find (fun tv => JSON_eqb (snd tv) v) texts with
       | Some tv => fst tv
       | None => "null"
       end;
     Object_prototype_names := ["constructor"; "toString"; "valueOf"; "hasOwnProperty"];
     Array_prototype_names := ["constructor"; "toString"; "map"; "filter"] |}.

Definition store : StoreEnv nat :=
  {| isSupabaseConfigured := false;
     unixepoch := fun _ => 0%Z;
     getEmbedding := fun _ x => (Throw "offline", x);
     rpc_search_memories := fun _ _ x => (Throw "offline", x);
     rpc_upsert_memory := fun _ _ _ x => (Throw "offline", x);
     trim := fun s => s |}.

(** An extraction backend that always fails. *)
Definition facts : FactsEnv nat :=
  {| OPENAI_API_KEY := "sk-test";
     createExtraction := fun _ x => (Throw "offline", x) |}.

(** A provider that answers every request with [r]; the outside world
    counts the requests. *)
Definition respond (r : LLMResponse) : LLMProvider nat :=
  {| provider_id := "stub";
     provider_name := "Stub";
     defaultModel := "stub-1";
     complete := fun _ _ n => (Ok r, S n) |}.

(** An agent with iteration cap [cap], the echo tool, the provider
    [respond r], and executions that settle as [order] says. *)
Definition agent (cap : nat) (r : LLMResponse) (order : nat -> nat) : AgentEnv nat :=
  {| AGENT_MAX_ITERATIONS := cap;
     tools := [echoTool];
     getActiveProvider := fun x => (Ok (respond r), x);
     BASE_SYSTEM_PROMPT := fun _ => "You are Space Claw.";
     settlesNext := fun _ n => order n |}.

Definition call (id : string) : ToolCall :=
  {| tc_id := id; tc_name := "echo"; tc_arguments := "{}" |}.

Definition requests (calls : list ToolCall) : LLMResponse :=
  {| content := None;
     toolCalls := Some calls;
     assistantMessage :=
       JObject [("role", JString "assistant"); ("content", JNull);
                ("tool_calls", JArray (map toolCallObject calls))] |}.

Definition says (text : string) : LLMResponse :=
  {| content := Some text;
     toolCalls := None;
     assistantMessage := plainMessage "assistant" text |}.

(** The parameter schema of a tool that takes one object, [meta], with one
    required string property, [title]. *)
Definition nestedSchema : list (string * JSON) :=
  [("type", JString "object");
   ("properties",
     JObject [("meta",
       JObject [("type", JString "object");
                ("properties", JObject [("title", JObject [("type", JString "string")])]);
                ("required", JArray [JString "title"])])]);
   ("required", JArray [JString "meta"])].

Definition emptyDb : Memory.Db :=
  {| Memory.messages := []; Memory.messages_seq := 0;
     Memory.notes := []; Memory.notes_seq := 0; Memory.notes_fts := [];
     Memory.core_memories := []; Memory.setup_state := [] |}.

Definition world0 : World nat := {| db := emptyDb; ext := 0 |}.

Definition row (key chat : Z) (r c : string) (raw : option string) : Memory.MessageRow :=
  {| Memory.row_id := key; Memory.chat_id := chat; Memory.role := r;
     Memory.row_content := c; Memory.ts := 0; Memory.raw_json := raw |}.

(** A database with the histories of the chats 7 and 8 interleaved, a
    legacy row among them, and one note. *)
Definition busyDb : Memory.Db :=
  {| Memory.messages :=
       [row 1 7 "user" "old question" (Some (messageText "user" "hi"));
        row 2 8 "user" "hi" (Some (messageText "user" "hi"));
        row 3 7 "assistant" "old answer" None;
        row 4 8 "assistant" "hello" (Some (messageText "assistant" "hello"))];
     Memory.messages_seq := 9;
     Memory.notes :=
       [{| Memory.note_id := 1; Memory.title := "colour"; Memory.body := "green";
           Memory.note_ts := 5 |}];
     Memory.notes_seq := 1;
     Memory.notes_fts :=
       [{| Memory.fts_rowid := 1; Memory.fts_title := "colour"; Memory.fts_body := "green" |}];
     Memory.core_memories := [];
     Memory.setup_state := [] |}.


Definition config : Registry.Config :=
  {| Registry.OPENAI_KEY := "sk-test";
     Registry.OPENAI_MODEL := "gpt-4o";
     Registry.ANTHROPIC_API_KEY := EmptyString;
     Registry.GOOGLE_API_KEY := "g-test";
     Registry.GROQ_API_KEY := EmptyString |}.

(** An OpenAI backend that answers every request with the text "hello",
    and counts the requests; the other backends are out of reach. *)
Definition helloMessage : OpenAI.ChatCompletionMessage :=
  {| OpenAI.object := plainMessage "assistant" "hello"; OpenAI.typed := eq_refl |}.

Definition backend : Registry.SDKs nat :=
  {| Registry.newOpenAI := fun _ _ _ x => (Ok {| OpenAI.choices := [helloMessage] |}, S x);
     Registry.newAnthropic := fun _ _ x => (Throw "offline", x);
     Registry.newGoogle := fun _ _ x => (Throw "offline", x) |}.

(** An agent whose provider is the one the registry builds for OpenAI. *)
Definition registryAgent (cap : nat) : AgentEnv nat :=
  {| AGENT_MAX_ITERATIONS := cap;
     tools := [echoTool];
     getActiveProvider := fun x =>
       (@Registry.buildProvider nat engine backend config "openai" "gpt-4o", x);
     BASE_SYSTEM_PROMPT := fun _ => "You are Space Claw.";
     settlesNext := fun _ n => 0 |}.

(** A shell whose commands all exit with 0 and print nothing; the world
    counts the commands run. Lower-casing is left out (the texts used with
    it are lower-case already). *)
Definition shell : Shell.ShellEnv nat :=
  {| Shell.SHELL_ALLOWED_COMMANDS := Shell.lit "git, ls,,echo";
     Shell.toLowerCase := fun s => s;
     Shell.runCommand := fun _ _ x =>
       ({| Shell.exit_code := 0; Shell.stdout := []; Shell.stderr := [] |}, S x) |}.

End Stub.

(* ===================================================================== *)
(** * Part II: properties                                                 *)
(* ===================================================================== *)

(** ** Property lists *)

Lemma in_set_inv k v fs kv :
  In kv (set k v fs) -> kv = (k, v) \/ In kv fs.
Proof.
  induction fs as [|[k' v'] fs IH]; simpl.
  - intros [<-|[]]; auto.
  - destruct (String.eqb k k'); simpl.
    + intros [<-|Hin]; auto.
    + intros [<-|Hin]; auto. destruct (IH Hin); auto.
Qed.

Lemma Forall_set (P : string * JSON -> Prop) k v fs :
  P (k, v) -> List.Forall P fs -> List.Forall P (set k v fs).
Proof.
  intros Hkv Hfs. apply List.Forall_forall. intros kv Hin.
  destruct (in_set_inv _ _ _ _ Hin) as [->|Hin']; [done|].
  rewrite List.Forall_forall in Hfs. auto.
Qed.

Lemma Forall_remove (P : string * JSON -> Prop) k fs :
  List.Forall P fs -> List.Forall P (remove k fs).
Proof.
  intros Hfs. apply List.Forall_forall. intros kv Hin.
  apply List.filter_In in Hin as [Hin _].
  rewrite List.Forall_forall in Hfs. auto.
Qed.

Lemma assoc_In k fs v : assoc k fs = Some v -> In (k, v) fs.
Proof.
  induction fs as [|[k' v'] fs IH]; simpl; [done|].
  destruct (String.eqb_spec k k') as [->|Hne].
  - intros [= ->]. auto.
  - auto.
Qed.

Lemma assoc_set_eq k v fs : assoc k (set k v fs) = Some v.
Proof.
  induction fs as [|[k' v'] fs IH]; simpl.
  - by rewrite String.eqb_refl.
  - destruct (String.eqb_spec k k') as [->|Hne]; simpl.
    + by rewrite String.eqb_refl.
    + destruct (String.eqb_spec k k'); [done|]. exact IH.
Qed.

Lemma assoc_set_ne k k' v fs : k <> k' -> assoc k' (set k v fs) = assoc k' fs.
Proof.
  intros Hne. induction fs as [|[k0 v0] fs IH]; simpl.
  - destruct (String.eqb_spec k' k); congruence.
  - destruct (String.eqb_spec k k0) as [->|Hk]; simpl.
    + destruct (String.eqb_spec k' k0); congruence.
    + destruct (String.eqb_spec k' k0); [done|]. exact IH.
Qed.

Lemma assoc_remove_eq k fs : assoc k (remove k fs) = None.
Proof.
  induction fs as [|[k' v'] fs IH]; simpl; [done|].
  destruct (String.eqb_spec k k') as [->|Hne]; simpl; [done|].
  destruct (String.eqb_spec k k'); [done|]. exact IH.
Qed.

Lemma assoc_remove_ne k k' fs : k <> k' -> assoc k' (remove k fs) = assoc k' fs.
Proof.
  intros Hne. induction fs as [|[k0 v0] fs IH]; simpl; [done|].
  destruct (String.eqb_spec k k0) as [->|Hk]; simpl.
  - destruct (String.eqb_spec k' k0); congruence.
  - destruct (String.eqb_spec k' k0); [done|]. exact IH.
Qed.

(** ** The schema sanitizer *)

Section GeminiFacts.
Context `{JSEngine}.
Import Gemini.

Lemma clean_fields fs :
  List.Forall cleanField fs <-> mentionsUnsupported (JObject fs) = false.
Proof.
  simpl. induction fs as [|kv fs IH]; simpl.
  - split; [done|constructor].
  - rewrite orb_false_iff, orb_false_iff, <- IH. split.
    + intros Hall. inversion Hall as [|? ? [? ?] ?]; subst. auto.
    + intros [[? ?] ?]. constructor; [split|]; auto.
Qed.

Lemma clean_items items :
  List.Forall (fun v => mentionsUnsupported v = false) items
  <-> mentionsUnsupported (JArray items) = false.
Proof.
  simpl. induction items as [|v items IH]; simpl.
  - split; [done|constructor].
  - rewrite orb_false_iff, <- IH. split.
    + intros Hall. inversion Hall; subst. auto.
    + intros [? ?]. constructor; auto.
Qed.

Lemma strip_clean v : mentionsUnsupported (stripGeminiUnsupported v) = false.
Proof.
  induction v as [| | | |items IH|fields IH] using JSON_nested_ind; try done.
  - cbn [stripGeminiUnsupported]. apply clean_items.
    apply List.Forall_forall. intros v Hin.
    apply List.in_map_iff in Hin as (v0 & <- & Hin0).
    rewrite List.Forall_forall in IH. auto.
  - cbn [stripGeminiUnsupported]. apply clean_fields.
    assert (Hgen : forall acc, List.Forall cleanField acc ->
      List.Forall cleanField
        (fold_left (fun cleaned kv =>
           if unsupported (fst kv) then cleaned
           else set (fst kv) (stripGeminiUnsupported (snd kv)) cleaned) fields acc)).
    { induction IH as [|kv fields Hkv _ IHf]; intros acc Hacc; simpl; [done|].
      apply IHf. destruct (unsupported (fst kv)) eqn:Hu; [done|].
      apply Forall_set; [|done]. split; simpl; done. }
    apply Hgen. constructor.
Qed.

Lemma stripRecord_clean raw : List.Forall cleanField (stripRecord raw).
Proof.
  unfold stripRecord.
  pose proof (strip_clean (JObject raw)) as Hc.
  destruct (stripGeminiUnsupported (JObject raw)) eqn:E; try constructor.
  by apply clean_fields.
Qed.

Lemma filterIn_sub req p kept :
  filterIn req p = Ok kept -> forall k, In k kept -> In k req.
Proof.
  revert kept. induction req as [|k0 req IH]; simpl; intros kept.
  - intros [= <-] k [].
  - destruct (hasProperty k0 p) as [b|]; [|done].
    destruct (filterIn req p) as [kept'|]; [|done].
    intros [= <-] k Hin. destruct b; simpl in *; [destruct Hin as [<-|Hin]|]; eauto.
Qed.

Lemma filterIn_kept req p kept :
  filterIn req p = Ok kept -> forall k, In k kept -> hasProperty k p = Ok true.
Proof.
  revert kept. induction req as [|k0 req IH]; simpl; intros kept.
  - intros [= <-] k [].
  - destruct (hasProperty k0 p) as [b|] eqn:Hk0; [|done].
    destruct (filterIn req p) as [kept'|]; [|done].
    intros [= <-] k Hin. destruct b; simpl in *; [destruct Hin as [<-|Hin]|]; eauto.
Qed.

Lemma sanitize_clean raw :
  match sanitizeGeminiParams raw with
  | Ok clean => List.Forall cleanField clean
  | Throw _ => True
  end.
Proof.
  unfold sanitizeGeminiParams.
  pose proof (Forall_remove _ "type" _ (stripRecord_clean raw)) as Hs.
  set (stripped := remove "type" (stripRecord raw)) in *.
  destruct (assoc "required" stripped) as [required|] eqn:Hreq.
  - destruct required as [| | | |req|];
      try (destruct (truthy _); [apply Forall_remove|]; done).
    destruct (assoc "properties" stripped) as [p|] eqn:Hp;
      [|by apply Forall_remove].
    destruct (truthy (Some p)); [|by apply Forall_remove].
    destruct (filterIn req p) as [kept|] eqn:Hf; [|done].
    assert (Hset : List.Forall cleanField (set "required" (JArray kept) stripped)).
    { apply Forall_set; [|done]. split; [done|]. simpl.
      apply clean_items. apply List.Forall_forall. intros k Hk.
      apply (filterIn_sub _ _ _ Hf) in Hk.
      apply assoc_In in Hreq. rewrite List.Forall_forall in Hs.
      destruct (Hs _ Hreq) as [_ Hclean]. simpl in Hclean.
      apply clean_items in Hclean. rewrite List.Forall_forall in Hclean. auto. }
    destruct (Nat.eqb (length kept) 0); [by apply Forall_remove|done].
  - destruct (assoc "properties" stripped); simpl; done.
Qed.

End GeminiFacts.

(** ** The conversation store *)

Section StoreFacts.
Context `{JSEngine}.
Import Memory.

Lemma fold_right_max_nonneg (l : list Z) : (0 <= fold_right Z.max 0 l)%Z.
Proof. induction l as [|a l IH]; simpl; lia. Qed.

Lemma max_keys_app (l1 l2 : list Z) :
  fold_right Z.max 0%Z (l1 ++ l2)
  = Z.max (fold_right Z.max 0%Z l1) (fold_right Z.max 0%Z l2).
Proof.
  induction l1 as [|a l1 IH]; simpl.
  - pose proof (fold_right_max_nonneg l2) as Hn. lia.
  - rewrite IH. lia.
Qed.

Lemma keyBound_insert now c r t raw d :
  keyBound (stmtInsertMsg now c r t raw d) = (keyBound d + 1)%Z.
Proof.
  unfold keyBound, stmtInsertMsg, nextKey. simpl.
  rewrite map_app, max_keys_app. simpl.
  pose proof (fold_right_max_nonneg (map row_id (messages d))). lia.
Qed.

Lemma ascendingFrom_weaken b b' rows :
  (b' <= b)%Z -> ascendingFrom b rows -> ascendingFrom b' rows.
Proof. destruct rows; simpl; [done|]. intros ? [? ?]. split; [lia|done]. Qed.

Lemma orderById_ascending b rows :
  ascendingFrom b rows -> orderById rows = rows.
Proof.
  revert b. induction rows as [|r rows IH]; intros b; [done|].
  intros [_ Hrest].
  change (orderById (r :: rows)) with (insertById r (orderById rows)).
  rewrite (IH _ Hrest).
  destruct rows as [|r' rows']; simpl; [done|].
  destruct Hrest as [Hlt _].
  destruct (Z.leb_spec (row_id r) (row_id r')); [done|lia].
Qed.

(** What the inserts of [saveHistory] add to the table. *)
Lemma persistAll_rows now c (M : list JSON) d :
  List.Forall wellFormed M ->
  exists d' rows,
    persistAll now c M d = Ok d'
    /\ messages d' = messages d ++ rows
    /\ ascendingFrom (keyBound d) rows
    /\ List.Forall (fun r => chat_id r = c) rows
    /\ map raw_json rows = map (fun m => Some (JSON_stringify m)) M
    /\ notes d' = notes d /\ notes_seq d' = notes_seq d /\ notes_fts d' = notes_fts d
    /\ core_memories d' = core_memories d /\ setup_state d' = setup_state d.
Proof.
  intros HM. revert d. induction HM as [|m M [[r Hr] _] _ IH]; intros d; simpl.
  - exists d, []. rewrite app_nil_r. repeat split; constructor.
  - unfold persistOne. rewrite Hr.
    set (t := match get "content" m with
              | Some (JString s) => s
              | Some JNull | None => JSON_stringify (JString EmptyString)
              | Some other => JSON_stringify other
              end).
    set (d1 := stmtInsertMsg now c r t (JSON_stringify m) d).
    destruct (IH d1) as (d' & rows & Hp & Hm & Hasc & Hc & Hraw & Hn).
    exists d', ({| row_id := nextKey (map row_id (messages d)) (messages_seq d);
                   chat_id := c; role := r; row_content := t; ts := now;
                   raw_json := Some (JSON_stringify m) |} :: rows).
    split; [exact Hp|]. split.
    { rewrite Hm. subst d1. simpl. by rewrite <- app_assoc. }
    split.
    { simpl. split; [unfold keyBound, nextKey; lia|].
      subst d1. rewrite keyBound_insert in Hasc.
      eapply ascendingFrom_weaken; [|exact Hasc]. unfold keyBound, nextKey. lia. }
    split; [by constructor|].
    split; [simpl; by rewrite Hraw|].
    exact Hn.
Qed.

Lemma filter_other_chat c rows :
  List.Forall (fun r => chat_id r = c) rows ->
  forall c', c' <> c -> List.filter (fun r => (chat_id r =? c')%Z) rows = [].
Proof.
  intros Hall c' Hne. induction Hall as [|r rows Hr _ IH]; simpl; [done|].
  destruct (Z.eqb_spec (chat_id r) c'); [congruence|done].
Qed.

Lemma filter_same_chat c rows :
  List.Forall (fun r => chat_id r = c) rows ->
  List.filter (fun r => (chat_id r =? c)%Z) rows = rows.
Proof.
  intros Hall. induction Hall as [|r rows Hr _ IH]; simpl; [done|].
  destruct (Z.eqb_spec (chat_id r) c); [by rewrite IH|congruence].
Qed.

Lemma filter_deleted c (rows : list MessageRow) :
  List.filter (fun r => (chat_id r =? c)%Z)
    (List.filter (fun r => negb (chat_id r =? c)%Z) rows) = [].
Proof.
  induction rows as [|r rows IH]; simpl; [done|].
  destruct (Z.eqb_spec (chat_id r) c) as [He|Hne]; simpl; [done|].
  destruct (Z.eqb_spec (chat_id r) c); [congruence|done].
Qed.

Lemma filter_kept c c' (rows : list MessageRow) :
  c' <> c ->
  List.filter (fun r => (chat_id r =? c')%Z)
    (List.filter (fun r => negb (chat_id r =? c)%Z) rows)
  = List.filter (fun r => (chat_id r =? c')%Z) rows.
Proof.
  intros Hne. induction rows as [|r rows IH]; simpl; [done|].
  destruct (Z.eqb_spec (chat_id r) c) as [He|Hc]; simpl.
  - destruct (Z.eqb_spec (chat_id r) c'); [congruence|done].
  - destruct (Z.eqb_spec (chat_id r) c'); by rewrite IH.
Qed.

Lemma rowMessage_stored (M : list JSON) rows :
  List.Forall wellFormed M ->
  map raw_json rows = map (fun m => Some (JSON_stringify m)) M ->
  mapResult rowMessage rows = Ok M.
Proof.
  intros HM. revert rows. induction HM as [|m M (_ & Hne & Hrt) _ IH]; intros rows.
  - destruct rows; [done|discriminate].
  - destruct rows as [|r rows]; [discriminate|]. intros [= Hr Hrows].
    cbn [mapResult]. rewrite (IH _ Hrows).
    unfold rowMessage. rewrite Hr.
    destruct (String.eqb_spec (JSON_stringify m) ""); [done|].
    by rewrite Hrt.
Qed.

End StoreFacts.

Section StoreClaims.
Context `{JSEngine}.
Import Memory.

Lemma stmtLoadMsgs_saved now c (M : list JSON) d :
  List.Forall wellFormed M ->
  exists d' rows,
    saveHistory now c M d = Ok d'
    /\ messages d' = List.filter (fun r => negb (chat_id r =? c)%Z) (messages d) ++ rows
    /\ stmtLoadMsgs c d' = rows
    /\ List.Forall (fun r => chat_id r = c) rows
    /\ map raw_json rows = map (fun m => Some (JSON_stringify m)) M
    /\ notes d' = notes d /\ notes_seq d' = notes_seq d /\ notes_fts d' = notes_fts d
    /\ core_memories d' = core_memories d /\ setup_state d' = setup_state d.
Proof.
  intros HM. unfold saveHistory.
  destruct (persistAll_rows now c M (stmtDeleteMsgs c d) HM)
    as (d' & rows & Hp & Hm & Hasc & Hc & Hraw & Hn).
  exists d', rows. split; [exact Hp|]. split; [exact Hm|]. split.
  { unfold stmtLoadMsgs. rewrite Hm. simpl.
    rewrite List.filter_app, filter_deleted, (filter_same_chat _ _ Hc). simpl.
    eapply orderById_ascending, Hasc. }
  split; [exact Hc|]. split; [exact Hraw|]. exact Hn.
Qed.

(** C6. Round trip of the conversation store: for every chat and every list
    [M] of well-formed messages, [saveHistory] succeeds and a [loadHistory]
    of the same chat afterwards returns exactly [M] (same length, same
    order, every message as it was), whatever the database held before. *)
Theorem saveHistory_loadHistory_roundtrip (now chatId : Z) (M : list JSON) (d : Db) :
  List.Forall wellFormed M ->
  exists d', saveHistory now chatId M d = Ok d' /\ loadHistory chatId d' = Ok M.
Proof.
  intros HM.
  destruct (stmtLoadMsgs_saved now chatId M d HM)
    as (d' & rows & Hs & _ & Hl & _ & Hraw & _).
  exists d'. split; [exact Hs|].
  unfold loadHistory. rewrite Hl. by apply rowMessage_stored.
Qed.

(** C9. [deleteHistory] removes the messages of its chat and nothing else:
    the notes, their counter and full-text index, the core memories and the
    setup state are what they were, and so are the stored rows and the
    loaded history of every other chat. *)
Theorem deleteHistory_frame (chatId : Z) (d : Db) :
  notes (deleteHistory chatId d) = notes d
  /\ notes_seq (deleteHistory chatId d) = notes_seq d
  /\ notes_fts (deleteHistory chatId d) = notes_fts d
  /\ core_memories (deleteHistory chatId d) = core_memories d
  /\ setup_state (deleteHistory chatId d) = setup_state d
  /\ stmtLoadMsgs chatId (deleteHistory chatId d) = []
  /\ (forall other, other <> chatId ->
        List.filter (fun r => (chat_id r =? other)%Z) (messages (deleteHistory chatId d))
        = List.filter (fun r => (chat_id r =? other)%Z) (messages d)
        /\ loadHistory other (deleteHistory chatId d) = loadHistory other d).
Proof.
  repeat split; try reflexivity.
  - unfold stmtLoadMsgs, deleteHistory. simpl. by rewrite filter_deleted.
  - unfold deleteHistory. simpl. by apply filter_kept.
  - unfold loadHistory, stmtLoadMsgs, deleteHistory. simpl. by rewrite filter_kept.
Qed.

End StoreClaims.

Lemma saveHistory_loadHistory_roundtrip_witness :
  exists d',
    @Memory.saveHistory Stub.engine 100 7
      [Stub.plainMessage "user" "hi"; Stub.plainMessage "assistant" "hello"] Stub.busyDb = Ok d'
    /\ @Memory.loadHistory Stub.engine 7 d'
       = Ok [Stub.plainMessage "user" "hi"; Stub.plainMessage "assistant" "hello"].
Proof.
  apply (@saveHistory_loadHistory_roundtrip Stub.engine 100 7
           [Stub.plainMessage "user" "hi"; Stub.plainMessage "assistant" "hello"] Stub.busyDb).
  repeat constructor; try (eexists; reflexivity); vm_compute; congruence.
Defined.

Lemma deleteHistory_frame_witness :
  Memory.notes (Memory.deleteHistory 7 Stub.busyDb) = Memory.notes Stub.busyDb
  /\ @Memory.loadHistory Stub.engine 8 (Memory.deleteHistory 7 Stub.busyDb)
     = @Memory.loadHistory Stub.engine 8 Stub.busyDb.
Proof.
  pose proof (@deleteHistory_frame Stub.engine 7 Stub.busyDb)
    as (Hnotes & _ & _ & _ & _ & _ & Hother).
  split; [exact Hnotes|]. apply (Hother 8%Z). lia.
Defined.

(** ** Tool dispatch *)

Lemma prefix_append (p s : string) : String.prefix p (p +:+ s) = true.
Proof.
  induction p as [|a p IH]; simpl; [by destruct s|].
  destruct (ascii_dec a a); [exact IH|done].
Qed.

Section DispatchFacts.
Context {Ext : Type} `{JSEngine} `{AgentEnv Ext}.

Lemma lookupTool_none (name : string) :
  lookupTool name = None <-> (forall t, In t tools -> fn_name (spec t) <> name).
Proof.
  unfold lookupTool. induction tools as [|t ts IH]; simpl.
  - split; [by intros _ t []|done].
  - destruct (String.eqb_spec (fn_name (spec t)) name) as [Heq|Hne].
    + split; [done|]. intros Hall. exfalso. apply (Hall t); [by left|done].
    + rewrite IH. split.
      * intros Hall t' [<-|Hin]; [done|by apply Hall].
      * intros Hall t' Hin. apply Hall. by right.
Qed.

Lemma lookupTool_first (name : string) (before after : list (ToolDefinition Ext))
    (tool : ToolDefinition Ext) :
  tools = before ++ tool :: after ->
  fn_name (spec tool) = name ->
  (forall t, In t before -> fn_name (spec t) <> name) ->
  lookupTool name = Some tool.
Proof.
  unfold lookupTool. intros -> Hname Hbefore.
  induction before as [|t before IH]; simpl.
  - by destruct (String.eqb_spec (fn_name (spec tool)) name).
  - destruct (String.eqb_spec (fn_name (spec t)) name) as [Heq|_].
    + exfalso. apply (Hbefore t); [by left|done].
    + apply IH. intros t' Hin. apply Hbefore. by right.
Qed.

Lemma lookupTool_some (name : string) (tool : ToolDefinition Ext) :
  lookupTool name = Some tool ->
  exists before after,
    tools = before ++ tool :: after
    /\ fn_name (spec tool) = name
    /\ (forall t, In t before -> fn_name (spec t) <> name).
Proof.
  unfold lookupTool. induction tools as [|t ts IH]; simpl; [done|].
  destruct (String.eqb_spec (fn_name (spec t)) name) as [Heq|Hne].
  - intros [= <-]. exists [], ts. split; [done|]. split; [done|]. by intros t' [].
  - intros Hfind. destruct (IH Hfind) as (before & after & -> & Hname & Hbefore).
    exists (t :: before), after. split; [done|]. split; [done|].
    intros t' [<-|Hin]; [done|by apply Hbefore].
Qed.

(** C3. [dispatchTool] always returns a string (it has no way to raise),
    and which one is settled by the registry [tools], the parser and the
    tool. If no registered tool has the name, the string starts with
    "Error: unknown tool" and the world is untouched. Otherwise let [tool]
    be the first registered tool with that name: if [JSON.parse] rejects the
    arguments the string starts with "Error: could not parse arguments" and
    the world is untouched; if the tool's [execute] throws, the string
    starts with "Error executing"; and otherwise it is the string the tool
    returned; in these two cases the world is as the tool left it. One of
    the two, no tool or a first tool with the name, is always the case. *)
Theorem dispatchTool_never_raises (name rawArgs : string) (w : World Ext) :
  ((forall t, In t tools -> fn_name (spec t) <> name) ->
   dispatchTool name rawArgs w = ("Error: unknown tool " +:+ dq +:+ name +:+ dq, w)
   /\ String.prefix "Error: unknown tool" (fst (dispatchTool name rawArgs w)) = true)
  /\ (forall before tool after,
        tools = before ++ tool :: after ->
        fn_name (spec tool) = name ->
        (forall t, In t before -> fn_name (spec t) <> name) ->
        match JSON_parse rawArgs with
        | None =>
            dispatchTool name rawArgs w
            = ("Error: could not parse arguments as JSON: " +:+ rawArgs, w)
            /\ String.prefix "Error: could not parse arguments"
                 (fst (dispatchTool name rawArgs w)) = true
        | Some args =>
            match execute tool args w with
            | (Throw err, w') =>
                dispatchTool name rawArgs w
                = ("Error executing " +:+ dq +:+ name +:+ dq +:+ ": " +:+ err, w')
                /\ String.prefix "Error executing" (fst (dispatchTool name rawArgs w)) = true
            | (Ok output, w') => dispatchTool name rawArgs w = (output, w')
            end
        end)
  /\ ((forall t, In t tools -> fn_name (spec t) <> name)
      \/ exists before tool after,
           tools = before ++ tool :: after
           /\ fn_name (spec tool) = name
           /\ (forall t, In t before -> fn_name (spec t) <> name)).
Proof.
  split; [|split].
  - intros Hnone. apply lookupTool_none in Hnone.
    unfold dispatchTool. rewrite Hnone. split; reflexivity.
  - intros before tool after Htools Hname Hbefore.
    pose proof (lookupTool_first name before after tool Htools Hname Hbefore) as Hfind.
    unfold dispatchTool. rewrite Hfind.
    destruct (JSON_parse rawArgs) as [args|]; [|split; reflexivity].
    destruct (execute tool args w) as [[output|err] w']; [done|].
    split; reflexivity.
  - destruct (lookupTool name) as [tool|] eqn:Hfind.
    + right. destruct (lookupTool_some name tool Hfind) as (before & after & ?).
      by exists before, tool, after.
    + left. by apply lookupTool_none.
Qed.

End DispatchFacts.

Lemma dispatchTool_never_raises_witness :
  @dispatchTool nat Stub.engine (Stub.agent 3 (Stub.says "hello") (fun _ => 0))
    "foo_bar" "{}" Stub.world0
  = ("Error: unknown tool " +:+ dq +:+ "foo_bar" +:+ dq, Stub.world0)
  /\ @dispatchTool nat Stub.engine (Stub.agent 3 (Stub.says "hello") (fun _ => 0))
       "echo" "{bad json" Stub.world0
     = ("Error: could not parse arguments as JSON: {bad json", Stub.world0).
Proof.
  destruct (@dispatchTool_never_raises nat Stub.engine
              (Stub.agent 3 (Stub.says "hello") (fun _ => 0)) "foo_bar" "{}" Stub.world0)
    as (Hunknown & _ & _).
  destruct (@dispatchTool_never_raises nat Stub.engine
              (Stub.agent 3 (Stub.says "hello") (fun _ => 0)) "echo" "{bad json" Stub.world0)
    as (_ & Hfound & _).
  split.
  - apply Hunknown. intros t [<-|[]]. discriminate.
  - apply (Hfound [] echoTool []); [reflexivity|reflexivity|by intros t []].
Defined.

(** ** The agent loop *)

Section AgentFacts.
Context {Ext : Type} `{JSEngine} `{StoreEnv Ext} `{FactsEnv Ext} `{AgentEnv Ext}.

Lemma providerCalls_app (l1 l2 : list Event) :
  providerCalls (l1 ++ l2) = providerCalls l1 + providerCalls l2.
Proof. unfold providerCalls. by rewrite List.filter_app, length_app. Qed.

(** The invariant of [settle]: the result of every execution that is no
    longer pending is in its slot. *)
Lemma settle_fills (steps : nat) :
  forall pending calls values (w : World Ext) log values' w' log',
    settle steps pending calls values w log = (values', w', log') ->
    length pending = steps ->
    length values = length calls ->
    (forall i, i ∈ pending -> i < length calls) ->
    (forall i call, calls !! i = Some call ->
       i ∈ pending \/ exists out, values !! i = Some (Some (toolMessage (tc_id call) out))) ->
    length values' = length calls
    /\ (forall i call, calls !! i = Some call ->
          exists out, values' !! i = Some (Some (toolMessage (tc_id call) out)))
    /\ providerCalls log' = providerCalls log.
Proof.
  induction steps as [|steps IH];
    intros pending calls values w log values' w' log' Hs Hlen Hvalues Hin Hfilled.
  - simpl in Hs. injection Hs as <- <- <-.
    destruct pending; [|done].
    split; [done|]. split; [|done].
    intros i call Hi. destruct (Hfilled i call Hi) as [Hp|?]; [|done].
    by apply elem_of_nil in Hp.
  - simpl in Hs.
    set (position := settlesNext w (length pending) mod length pending) in *.
    assert (Hpos : position < length pending).
    { subst position. apply Nat.mod_upper_bound. lia. }
    destruct (lookup_lt_is_Some_2 _ _ Hpos) as [i Hi]. rewrite Hi in Hs.
    assert (Hi_in : i ∈ pending) by (by eapply list_elem_of_lookup_2).
    destruct (lookup_lt_is_Some_2 _ _ (Hin i Hi_in)) as [call Hcall].
    rewrite Hcall in Hs.
    destruct (toolTask call w) as [message w1] eqn:Htask.
    assert (Hmsg : exists out, message = toolMessage (tc_id call) out).
    { unfold toolTask in Htask.
      destruct (dispatchTool (tc_name call) (tc_arguments call) w) as [out w2].
      injection Htask as <- _. by exists out. }
    destruct Hmsg as [out ->].
    pose proof (take_drop_middle _ _ _ Hi) as Hsplit.
    apply IH in Hs as (Hl & Hall & Hlog).
    + split; [done|]. split; [done|].
      rewrite Hlog, providerCalls_app. unfold providerCalls. simpl. lia.
    + rewrite length_delete by eauto. lia.
    + by rewrite length_insert.
    + intros j Hj. apply Hin. rewrite delete_take_drop in Hj.
      rewrite <- Hsplit. rewrite elem_of_app in Hj.
      rewrite elem_of_app, elem_of_cons. tauto.
    + intros j callj Hj.
      destruct (decide (j = i)) as [->|Hne].
      * right. exists out. rewrite Hcall in Hj. injection Hj as <-.
        apply list_lookup_insert_eq. rewrite Hvalues. by eapply lookup_lt_Some.
      * destruct (Hfilled j callj Hj) as [Hp|[out' Hv]].
        -- left. rewrite delete_take_drop. rewrite <- Hsplit in Hp.
           rewrite elem_of_app, elem_of_cons in Hp. rewrite elem_of_app. tauto.
        -- right. exists out'. by rewrite list_lookup_insert_ne.
Qed.

Lemma mapM_filled (calls : list ToolCall) (values : list (option JSON)) :
  Forall2 (fun call v => exists out, v = Some (toolMessage (tc_id call) out)) calls values ->
  exists toolResults,
    mapM (fun v => v) values = Some toolResults
    /\ Forall2 (fun call m => exists out, m = toolMessage (tc_id call) out) calls toolResults.
Proof.
  induction 1 as [|call v calls values [out ->] _ (toolResults & Hm & Hall)].
  - by exists [].
  - exists (toolMessage (tc_id call) out :: toolResults). split.
    + simpl. by rewrite Hm.
    + constructor; eauto.
Qed.

(** The [await] of the tool-call batch always resumes, with one result
    message per call, in the order of the calls. *)
Lemma promiseAll_settles (calls : list ToolCall) (w : World Ext) (log : list Event) :
  exists toolResults w' log',
    promiseAll calls w log = (Some toolResults, w', log')
    /\ Forall2 (fun call m => exists out, m = toolMessage (tc_id call) out) calls toolResults
    /\ providerCalls log' = providerCalls log.
Proof.
  unfold promiseAll.
  destruct (settle _ _ _ _ _ _) as [[values w'] log'] eqn:Hs.
  apply settle_fills in Hs as (Hlen & Hall & Hlog).
  - destruct (mapM_filled calls values) as (toolResults & Hm & HF).
    { apply Forall2_same_length_lookup_2; [done|].
      intros i call v Hc Hv. destruct (Hall i call Hc) as [out Ho].
      exists out. congruence. }
    exists toolResults, w', log'. by rewrite Hm.
  - by rewrite length_seq.
  - by rewrite length_replicate.
  - intros i Hi. apply elem_of_seq in Hi. lia.
  - intros i call Hc. left. apply elem_of_seq.
    apply lookup_lt_Some in Hc. lia.
Qed.

Lemma toolResults_pushed (calls : list ToolCall) (toolResults : list JSON) :
  Forall2 (fun call m => exists out, m = toolMessage (tc_id call) out) calls toolResults ->
  Forall pushedInTurn toolResults.
Proof.
  induction 1 as [|call m calls toolResults [out ->] _ IH]; constructor; [|done].
  left. eauto.
Qed.

(** What the loop returns, from any point of the turn on: the message list
    only grows, by messages the provider built and by tool results; the final
    reply is read off a response without tool calls; and, the database
    reads and the tool executions being total here, an exception comes from
    the provider and every batch of tool calls settles. *)
Lemma agentLoop_spec (remaining : nat) :
  forall um messages (w : World Ext) log,
    match fst (fst (agentLoop remaining um messages w log)) with
    | FinalReply reply updatedHistory =>
        exists pushed r,
          updatedHistory = slice1 (messages ++ pushed)
          /\ Forall pushedInTurn pushed
          /\ producedBy r
          /\ (toolCalls r = None \/ toolCalls r = Some [])
          /\ reply = orDefault (content r) "(no response)"
    | MaxIterations reply updatedHistory =>
        exists pushed,
          updatedHistory = slice1 (messages ++ pushed)
          /\ Forall pushedInTurn pushed
          /\ reply = MAX_ITERATIONS_REPLY
    | Raised e => thrownByProvider e
    | Pending => False
    end.
Proof.
  induction remaining as [|remaining IH]; intros um messages w log; simpl.
  - exists []. by rewrite app_nil_r.
  - destruct (getActiveProvider (ext w)) as [[p|e] x] eqn:Hp; simpl.
    2:{ left. eauto. }
    destruct (complete p messages getOpenAITools x) as [[r|e] x'] eqn:Hc; simpl.
    2:{ right. eauto 10. }
    assert (Hr : producedBy r) by (unfold producedBy; eauto 10).
    assert (Hfinal :
      forall o w' log',
        (let '(_, w1) := extractAndSaveFacts um (orDefault (content r) "(no response)")
                          (withExt x' w) in
         (FinalReply (orDefault (content r) "(no response)")
            (slice1 (messages ++ [assistantMessage r])), w1, log ++ [ProviderCall messages]))
        = (o, w', log') ->
        (toolCalls r = None \/ toolCalls r = Some []) ->
        match o with
        | FinalReply reply updatedHistory =>
            exists pushed r0,
              updatedHistory = slice1 (messages ++ pushed)
              /\ Forall pushedInTurn pushed /\ producedBy r0
              /\ (toolCalls r0 = None \/ toolCalls r0 = Some [])
              /\ reply = orDefault (content r0) "(no response)"
        | MaxIterations reply updatedHistory =>
            exists pushed,
              updatedHistory = slice1 (messages ++ pushed)
              /\ Forall pushedInTurn pushed /\ reply = MAX_ITERATIONS_REPLY
        | Raised e => thrownByProvider e
        | Pending => False
        end).
    { intros o w' log' Heq Hnone.
      destruct (extractAndSaveFacts _ _ _) as [u w1]. injection Heq as <- _ _.
      exists [assistantMessage r], r. repeat split; try done.
      constructor; [|constructor]. right. eauto. }
    destruct (toolCalls r) as [[|call calls]|] eqn:Htc.
    + match goal with
      | |- context [fst (fst ?t)] => destruct t as [[o w'] log'] eqn:Hout
      end.
      simpl. eapply Hfinal; eauto.
    + destruct (promiseAll_settles (call :: calls) (withExt x' w)
                  (log ++ [ProviderCall messages]))
        as (toolResults & w' & log' & Hpa & HF & _).
      rewrite Hpa.
      specialize (IH um ((messages ++ [assistantMessage r]) ++ toolResults) w' log').
      destruct (fst (fst (agentLoop remaining um _ w' log'))) as [reply hist|reply hist|e|];
        [| |exact IH|exact IH].
      * destruct IH as (pushed & r0 & -> & Hall & ?).
        exists ([assistantMessage r] ++ toolResults ++ pushed), r0.
        split; [by rewrite <- !app_assoc|]. split; [|done].
        apply Forall_app. split; [constructor; [right; eauto|constructor]|].
        apply Forall_app. split; [by eapply toolResults_pushed|done].
      * destruct IH as (pushed & -> & Hall & ?).
        exists ([assistantMessage r] ++ toolResults ++ pushed).
        split; [by rewrite <- !app_assoc|]. split; [|done].
        apply Forall_app. split; [constructor; [right; eauto|constructor]|].
        apply Forall_app. split; [by eapply toolResults_pushed|done].
    + match goal with
      | |- context [fst (fst ?t)] => destruct t as [[o w'] log'] eqn:Hout
      end.
      simpl. eapply Hfinal; eauto.
Qed.

(** One turn of the loop that gets tool calls back: the loop goes on with
    the message list extended by the assistant message and the results. *)
Lemma agentLoop_step (remaining : nat) um messages (w : World Ext) log p x r x' call calls :
  getActiveProvider (ext w) = (Ok p, x) ->
  complete p messages getOpenAITools x = (Ok r, x') ->
  toolCalls r = Some (call :: calls) ->
  exists toolResults w' log',
    promiseAll (call :: calls) (withExt x' w) (log ++ [ProviderCall messages])
    = (Some toolResults, w', log')
    /\ agentLoop (S remaining) um messages w log
       = agentLoop remaining um ((messages ++ [assistantMessage r]) ++ toolResults) w' log'
    /\ Forall2 (fun call m => exists out, m = toolMessage (tc_id call) out)
         (call :: calls) toolResults
    /\ providerCalls log' = S (providerCalls log).
Proof.
  intros Hp Hc Htc.
  destruct (promiseAll_settles (call :: calls) (withExt x' w)
              (log ++ [ProviderCall messages]))
    as (toolResults & w' & log' & Hpa & HF & Hlog).
  exists toolResults, w', log'. split; [exact Hpa|]. split; [|split; [exact HF|]].
  - cbn [agentLoop]. rewrite Hp, Hc, Htc, Hpa. reflexivity.
  - rewrite Hlog, providerCalls_app. unfold providerCalls. simpl. lia.
Qed.

Lemma agentLoop_calls (remaining : nat) :
  forall um messages (w : World Ext) log,
    providerCalls (snd (agentLoop remaining um messages w log))
    <= providerCalls log + remaining.
Proof.
  induction remaining as [|remaining IH]; intros um messages w log.
  - simpl. lia.
  - destruct (getActiveProvider (ext w)) as [[p|e] x] eqn:Hp.
    2:{ cbn [agentLoop]. rewrite Hp. simpl. lia. }
    destruct (complete p messages getOpenAITools x) as [[r|e] x'] eqn:Hc.
    2:{ cbn [agentLoop]. rewrite Hp, Hc. simpl.
        rewrite providerCalls_app. unfold providerCalls. simpl. lia. }
    destruct (toolCalls r) as [[|call calls]|] eqn:Htc.
    + cbn [agentLoop]. rewrite Hp, Hc, Htc.
      destruct (extractAndSaveFacts _ _ _) as [u w1]. simpl.
      rewrite providerCalls_app. unfold providerCalls. simpl. lia.
    + destruct (agentLoop_step remaining um messages w log p x r x' call calls Hp Hc Htc)
        as (toolResults & w' & log' & _ & -> & _ & Hlog).
      specialize (IH um ((messages ++ [assistantMessage r]) ++ toolResults) w' log'). lia.
    + cbn [agentLoop]. rewrite Hp, Hc, Htc.
      destruct (extractAndSaveFacts _ _ _) as [u w1]. simpl.
      rewrite providerCalls_app. unfold providerCalls. simpl. lia.
Qed.

Lemma agentLoop_exhausts (remaining : nat) :
  alwaysRequestsTools ->
  forall um messages (w : World Ext) log,
    providerCalls (snd (agentLoop remaining um messages w log))
    = providerCalls log + remaining
    /\ exists updatedHistory,
         fst (fst (agentLoop remaining um messages w log))
         = MaxIterations MAX_ITERATIONS_REPLY updatedHistory.
Proof.
  intros [Hbuild Hasks].
  induction remaining as [|remaining IH]; intros um messages w log.
  - simpl. split; [lia|eauto].
  - destruct (Hbuild (ext w)) as (p & x & Hp).
    destruct (Hasks _ _ _ Hp messages x) as (r & x' & call & calls & Hc & Htc).
    destruct (agentLoop_step remaining um messages w log p x r x' call calls Hp Hc Htc)
      as (toolResults & w' & log' & _ & -> & _ & Hlog).
    destruct (IH um ((messages ++ [assistantMessage r]) ++ toolResults) w' log')
      as [Hn Hout].
    split; [lia|exact Hout].
Qed.

Lemma runAgentTurn_exceptions (history : list JSON) (userMessage : string)
    (w : World Ext) :
  match fst (fst (runAgentTurn history userMessage w)) with
  | Raised e => thrownByProvider e
  | Pending => False
  | _ => True
  end.
Proof.
  unfold runAgentTurn.
  destruct (buildSystemPrompt userMessage w) as [systemPrompt w0].
  pose proof (agentLoop_spec AGENT_MAX_ITERATIONS userMessage
                (systemMessage systemPrompt :: history ++ [userMessageOf userMessage]) w0 [])
    as Hspec.
  by destruct (fst (fst (agentLoop _ _ _ _ _))).
Qed.

(** What the turn does outside the process, as the counter [served] sees
    it. *)
Section Served.
Variable served : Ext -> nat.
Hypothesis Hcounts : countsCompletions served.

Lemma served_upsertMemory (t b : string) (x : Ext) :
  served (snd (upsertMemory t b x)) = served x.
Proof.
  destruct Hcounts as (_ & _ & _ & Hembed & _ & Hupsert & _).
  unfold upsertMemory. destruct isSupabaseConfigured; simpl; [|done].
  pose proof (Hembed (t +:+ ": " +:+ b) x) as He.
  destruct (getEmbedding _ x) as [[embedding|e] x1]; simpl in *; [|done].
  pose proof (Hupsert t b embedding x1) as Hu.
  destruct (rpc_upsert_memory t b embedding x1) as [[[u|m]|e] x2]; simpl in *; congruence.
Qed.

Lemma served_semanticSearch (query : string) (limit : nat) (x : Ext) :
  served (snd (semanticSearch query limit x)) = served x.
Proof.
  destruct Hcounts as (_ & _ & _ & Hembed & Hsearch & _).
  unfold semanticSearch. destruct isSupabaseConfigured; simpl; [|done].
  pose proof (Hembed query x) as He.
  destruct (getEmbedding _ x) as [[embedding|e] x1]; simpl in *; [|done].
  pose proof (Hsearch embedding limit x1) as Hs.
  destruct (rpc_search_memories embedding limit x1) as [[[rows|m]|e] x2]; simpl in *;
    congruence.
Qed.

Lemma served_saveNote (t b : string) (w : World Ext) :
  served (ext (saveNote t b w)) = served (ext w).
Proof.
  unfold saveNote. pose proof (served_upsertMemory t b (ext w)) as Hu.
  by destruct (upsertMemory t b (ext w)).
Qed.

Lemma served_saveFacts (facts : list JSON) :
  forall w : World Ext, served (ext (snd (saveFacts facts w))) = served (ext w).
Proof.
  induction facts as [|fact facts IH]; intros w; [done|].
  cbn [saveFacts].
  assert (Hstep :
    served (ext (snd
      (if truthy (get "title" fact) && truthy (get "body" fact)
       then match get "title" fact, get "body" fact with
            | Some (JString t), Some (JString b) =>
                saveFacts facts (saveNote (trim t) (trim b) w)
            | _, _ => (Throw "TypeError: trim is not a function", w)
            end
       else saveFacts facts w)))
    = served (ext w)).
  { destruct (truthy (get "title" fact) && truthy (get "body" fact)); [|apply IH].
    destruct (get "title" fact) as [[| | |t| |]|]; try done.
    destruct (get "body" fact) as [[| | |b| |]|]; try done.
    rewrite IH. apply served_saveNote. }
  by destruct fact.
Qed.

Lemma served_extractAndSaveFacts (um reply : string) (w : World Ext) :
  served (ext (snd (extractAndSaveFacts um reply w))) = served (ext w).
Proof.
  destruct Hcounts as (_ & _ & _ & _ & _ & _ & Hextract).
  unfold extractAndSaveFacts. destruct (String.eqb OPENAI_API_KEY ""); [done|].
  assert (Hbody : served (ext (snd (extractAndSaveFactsBody um reply w))) = served (ext w)).
  { unfold extractAndSaveFactsBody.
    pose proof (Hextract (extractionPrompt um reply) (ext w)) as He.
    destruct (createExtraction _ (ext w)) as [[c|e] x]; simpl in *; [|done].
    destruct (JSON_parse (orDefault c "{}")) as [parsed|]; [|done].
    by rewrite served_saveFacts. }
  by destruct (extractAndSaveFactsBody um reply w) as [[u|e] w'].
Qed.

Lemma served_buildSystemPrompt (um : string) (w : World Ext) :
  served (ext (snd (buildSystemPrompt um w))) = served (ext w).
Proof.
  unfold buildSystemPrompt. destruct isSupabaseConfigured; simpl; [|done].
  pose proof (served_semanticSearch um 3 (ext w)) as Hs.
  destruct (semanticSearch um 3 (ext w)) as [memories x].
  by destruct (Nat.eqb (length memories) 0).
Qed.

Lemma served_dispatchTool (name rawArgs : string) (w : World Ext) :
  served (ext (snd (dispatchTool name rawArgs w))) = served (ext w).
Proof.
  destruct Hcounts as (_ & _ & Htools & _).
  unfold dispatchTool. destruct (lookupTool name) as [tool|] eqn:Hfind; [|done].
  destruct (JSON_parse rawArgs) as [args|]; [|done].
  apply List.find_some in Hfind as [Hin _].
  pose proof (Htools tool Hin args w) as Ht.
  by destruct (execute tool args w) as [[output|err] w'].
Qed.

Lemma served_settle (steps : nat) :
  forall pending calls values (w : World Ext) log,
    served (ext (snd (fst (settle steps pending calls values w log)))) = served (ext w).
Proof.
  induction steps as [|steps IH]; intros pending calls values w log; [done|].
  cbn [settle].
  destruct (pending !! (settlesNext w (length pending) mod length pending)) as [i|]; [|done].
  destruct (calls !! i) as [call|]; [|done].
  unfold toolTask.
  pose proof (served_dispatchTool (tc_name call) (tc_arguments call) w) as Hd.
  destruct (dispatchTool (tc_name call) (tc_arguments call) w) as [output w1].
  by rewrite IH.
Qed.

Lemma served_promiseAll (calls : list ToolCall) (w : World Ext) (log : list Event) :
  served (ext (snd (fst (promiseAll calls w log)))) = served (ext w).
Proof.
  unfold promiseAll.
  pose proof (served_settle (length calls) (seq 0 (length calls)) calls
                (replicate (length calls) None) w log) as Hs.
  by destruct (settle _ _ _ _ _ _) as [[values w'] log'].
Qed.

(** The completions the loop records in its log are the completions the
    provider was asked for. *)
Lemma agentLoop_served (remaining : nat) :
  forall um messages (w : World Ext) log,
    served (ext (snd (fst (agentLoop remaining um messages w log)))) + providerCalls log
    = served (ext w) + providerCalls (snd (agentLoop remaining um messages w log)).
Proof.
  pose proof Hcounts as (Hget & Hcomplete & _).
  induction remaining as [|remaining IH]; intros um messages w log; [done|].
  pose proof (Hget (ext w)) as Hg.
  destruct (getActiveProvider (ext w)) as [[p|e] x] eqn:Hp; simpl in Hg.
  2:{ cbn [agentLoop]. rewrite Hp. simpl. lia. }
  pose proof (Hcomplete _ _ _ Hp messages getOpenAITools x) as Hc1.
  destruct (complete p messages getOpenAITools x) as [[r|e] x'] eqn:Hc; simpl in Hc1.
  2:{ cbn [agentLoop]. rewrite Hp, Hc. simpl.
      rewrite providerCalls_app. unfold providerCalls. simpl. lia. }
  assert (Hfinal :
    (toolCalls r = None \/ toolCalls r = Some []) ->
    served (ext (snd (fst (agentLoop (S remaining) um messages w log)))) + providerCalls log
    = served (ext w) + providerCalls (snd (agentLoop (S remaining) um messages w log))).
  { intros Hnone. cbn [agentLoop]. rewrite Hp, Hc.
    pose proof (served_extractAndSaveFacts um (orDefault (content r) "(no response)")
                  (withExt x' w)) as He.
    destruct Hnone as [-> | ->];
      destruct (extractAndSaveFacts _ _ _) as [u w1]; simpl in *;
      rewrite providerCalls_app; unfold providerCalls; simpl; lia. }
  destruct (toolCalls r) as [[|call calls]|] eqn:Htc; [by apply Hfinal; right| |by apply Hfinal; left].
  destruct (agentLoop_step remaining um messages w log p x r x' call calls Hp Hc Htc)
    as (toolResults & w' & log' & Hpa & -> & _ & Hlog).
  pose proof (served_promiseAll (call :: calls) (withExt x' w)
                (log ++ [ProviderCall messages])) as Hs.
  rewrite Hpa in Hs. simpl in Hs.
  specialize (IH um ((messages ++ [assistantMessage r]) ++ toolResults) w' log'). lia.
Qed.

End Served.

(** C2. The provider is asked for at most [AGENT_MAX_ITERATIONS]
    completions in a turn, counted where they arrive: for any count
    [served] of the completions the provider has been asked for, a turn
    adds to it exactly the number of requests the loop records, which is at
    most the cap. And when the provider answers every request with tool
    calls, the turn adds exactly the cap (three when the cap is 3, never a
    fourth) and ends with the fixed warning. *)
Theorem runAgentTurn_iteration_cap (served : Ext -> nat) (history : list JSON)
    (userMessage : string) (w : World Ext) :
  countsCompletions served ->
  served (ext (snd (fst (runAgentTurn history userMessage w))))
  = served (ext w) + providerCalls (snd (runAgentTurn history userMessage w))
  /\ served (ext (snd (fst (runAgentTurn history userMessage w))))
     <= served (ext w) + AGENT_MAX_ITERATIONS
  /\ (alwaysRequestsTools ->
      served (ext (snd (fst (runAgentTurn history userMessage w))))
      = served (ext w) + AGENT_MAX_ITERATIONS
      /\ exists updatedHistory,
           fst (fst (runAgentTurn history userMessage w))
           = MaxIterations MAX_ITERATIONS_REPLY updatedHistory).
Proof.
  intros Hcounts. unfold runAgentTurn.
  pose proof (served_buildSystemPrompt served Hcounts userMessage w) as Hprompt.
  destruct (buildSystemPrompt userMessage w) as [systemPrompt w0]. simpl in Hprompt.
  set (messages := systemMessage systemPrompt :: history ++ [userMessageOf userMessage]).
  pose proof (agentLoop_served served Hcounts AGENT_MAX_ITERATIONS userMessage messages w0 [])
    as Hserved.
  pose proof (agentLoop_calls AGENT_MAX_ITERATIONS userMessage messages w0 []) as Hmost.
  change (providerCalls []) with 0 in *.
  split; [lia|]. split; [lia|].
  intros Halways.
  destruct (agentLoop_exhausts AGENT_MAX_ITERATIONS Halways userMessage messages w0 [])
    as [Hexact Hout].
  change (providerCalls []) with 0 in *.
  split; [lia|exact Hout].
Qed.

Lemma toolResults_ids (calls : list ToolCall) (toolResults : list JSON) :
  Forall2 (fun call m => exists out, m = toolMessage (tc_id call) out) calls toolResults ->
  length toolResults = length calls
  /\ map toolCallIdOf toolResults = map (fun call => Some (tc_id call)) calls
  /\ Forall (fun m => hasRole "tool" m = true) toolResults.
Proof.
  induction 1 as [|call m calls toolResults [out ->] _ (Hl & Hids & Hroles)]; [done|].
  simpl. rewrite Hl, Hids. repeat split. by constructor.
Qed.

(** C4, as the code has it. When the response to a completion carries the
    tool calls [calls], the loop goes on with the message list extended by
    the assistant message and then by exactly one tool message per call, in
    the order of the calls, the i-th carrying the id of the i-th call,
    whatever the order in which the executions settle. The ids of the tool
    messages are then pairwise distinct exactly when those of the calls
    are. *)
Theorem tool_results_follow_requests (remaining : nat) (userMessage : string)
    (messages : list JSON) (w : World Ext) (log : list Event)
    (p : LLMProvider Ext) (x x' : Ext) (r : LLMResponse) (call : ToolCall)
    (calls : list ToolCall) :
  getActiveProvider (ext w) = (Ok p, x) ->
  complete p messages getOpenAITools x = (Ok r, x') ->
  toolCalls r = Some (call :: calls) ->
  exists toolResults w' log',
    agentLoop (S remaining) userMessage messages w log
    = agentLoop remaining userMessage
        ((messages ++ [assistantMessage r]) ++ toolResults) w' log'
    /\ length toolResults = length (call :: calls)
    /\ map toolCallIdOf toolResults = map (fun c => Some (tc_id c)) (call :: calls)
    /\ Forall (fun m => hasRole "tool" m = true) toolResults
    /\ (NoDup (map toolCallIdOf toolResults) <-> NoDup (map tc_id (call :: calls))).
Proof.
  intros Hp Hc Htc.
  destruct (agentLoop_step remaining userMessage messages w log p x r x' call calls Hp Hc Htc)
    as (toolResults & w' & log' & _ & Hloop & HF & _).
  destruct (toolResults_ids _ _ HF) as (Hl & Hids & Hroles).
  exists toolResults, w', log'. repeat split; try done.
  - rewrite Hids. intros Hnd.
    rewrite <- (map_map tc_id Some) in Hnd.
    by apply (NoDup_fmap_1 Some) in Hnd.
  - rewrite Hids. intros Hnd.
    rewrite <- (map_map tc_id Some). by apply (NoDup_fmap_2 Some).
Qed.

Lemma runAgentTurn_history_prefix_aux (history : list JSON) (userMessage : string)
    (w : World Ext) :
  match returned (fst (fst (runAgentTurn history userMessage w))) with
  | Some (reply, updatedHistory) =>
      exists pushed,
        updatedHistory = history ++ userMessageOf userMessage :: pushed
        /\ Forall pushedInTurn pushed
  | None => True
  end.
Proof.
  unfold runAgentTurn.
  destruct (buildSystemPrompt userMessage w) as [systemPrompt w0].
  pose proof (agentLoop_spec AGENT_MAX_ITERATIONS userMessage
                (systemMessage systemPrompt :: history ++ [userMessageOf userMessage]) w0 [])
    as Hspec.
  assert (Heq : forall pushed,
            slice1 ((systemMessage systemPrompt :: history ++ [userMessageOf userMessage])
                    ++ pushed)
            = history ++ userMessageOf userMessage :: pushed).
  { intros pushed. unfold slice1. simpl. rewrite drop_0. by rewrite <- app_assoc. }
  destruct (fst (fst (agentLoop _ _ _ _ _))) as [reply hist|reply hist|e|]; simpl; [| |done|done].
  - destruct Hspec as (pushed & r & -> & Hall & _). rewrite Heq. eauto.
  - destruct Hspec as (pushed & -> & Hall & _). rewrite Heq. eauto.
Qed.

(** C10. Whichever way a turn returns, its [updatedHistory] is the prior
    history, unchanged, then the user message with the new text, then what
    the loop pushed: assistant messages built by the provider and tool
    results. The injected system message, first in the list sent to the
    provider, is not among them: [updatedHistory] holds a message equal to
    it only if the prior history or a provider response supplied one. *)
Theorem runAgentTurn_history_prefix (history : list JSON) (userMessage : string)
    (w : World Ext) :
  match returned (fst (fst (runAgentTurn history userMessage w))) with
  | Some (reply, updatedHistory) =>
      exists pushed,
        updatedHistory = history ++ userMessageOf userMessage :: pushed
        /\ Forall pushedInTurn pushed
        /\ (let injected := systemMessage (fst (buildSystemPrompt userMessage w)) in
            ~ In injected history ->
            (forall r, producedBy r -> assistantMessage r <> injected) ->
            ~ In injected updatedHistory)
  | None => True
  end.
Proof.
  unfold runAgentTurn.
  destruct (buildSystemPrompt userMessage w) as [systemPrompt w0]. simpl fst.
  pose proof (agentLoop_spec AGENT_MAX_ITERATIONS userMessage
                (systemMessage systemPrompt :: history ++ [userMessageOf userMessage]) w0 [])
    as Hspec.
  assert (Hgoal : forall updatedHistory pushed,
    updatedHistory
    = slice1 ((systemMessage systemPrompt :: history ++ [userMessageOf userMessage]) ++ pushed) ->
    Forall pushedInTurn pushed ->
    exists pushed0,
      updatedHistory = history ++ userMessageOf userMessage :: pushed0
      /\ Forall pushedInTurn pushed0
      /\ (~ In (systemMessage systemPrompt) history ->
          (forall r, producedBy r -> assistantMessage r <> systemMessage systemPrompt) ->
          ~ In (systemMessage systemPrompt) updatedHistory)).
  { intros updatedHistory pushed -> Hall. exists pushed.
    assert (Heq : slice1 ((systemMessage systemPrompt :: history ++ [userMessageOf userMessage])
                          ++ pushed)
                  = history ++ userMessageOf userMessage :: pushed).
    { unfold slice1. simpl. rewrite drop_0. by rewrite <- app_assoc. }
    rewrite Heq. split; [done|]. split; [done|].
    intros Hhist Hprov Hin. apply List.in_app_or in Hin as [Hin|[Hin|Hin]].
    - auto.
    - discriminate Hin.
    - rewrite Forall_forall in Hall. apply list_elem_of_In in Hin.
      destruct (Hall _ Hin) as [(id & out & Hm)|(r & Hr & Hm)].
      + discriminate Hm.
      + by apply (Hprov r Hr). }
  destruct (fst (fst (agentLoop _ _ _ _ _))) as [reply hist|reply hist|e|]; simpl; [| |done|done].
  - destruct Hspec as (pushed & r & Hh & Hall & _). eauto.
  - destruct Hspec as (pushed & Hh & Hall & _). eauto.
Qed.

End AgentFacts.

(** ** The background fact extraction *)

Section FactExtraction.
Context {Ext : Type} `{JSEngine} `{StoreEnv Ext} `{AgentEnv Ext}.

Lemma agentLoop_facts_irrelevant (F1 F2 : FactsEnv Ext) (remaining : nat) :
  forall um messages (w : World Ext) log,
    fst (fst (@agentLoop Ext _ _ F1 _ remaining um messages w log))
    = fst (fst (@agentLoop Ext _ _ F2 _ remaining um messages w log))
    /\ snd (@agentLoop Ext _ _ F1 _ remaining um messages w log)
       = snd (@agentLoop Ext _ _ F2 _ remaining um messages w log).
Proof.
  induction remaining as [|remaining IH]; intros um messages w log; [done|].
  cbn [agentLoop].
  destruct (getActiveProvider (ext w)) as [[p|e] x]; [|done].
  destruct (complete p messages getOpenAITools x) as [[r|e] x']; [|done].
  destruct (toolCalls r) as [[|call calls]|].
  - by do 2 destruct (extractAndSaveFacts _ _ _).
  - destruct (promiseAll _ _ _) as [[[toolResults|] w'] log']; [|done]. apply IH.
  - by do 2 destruct (extractAndSaveFacts _ _ _).
Qed.

(** C8. What a turn returns does not depend on the background fact
    extraction: under any two behaviours of the extraction backend
    (success, failure, text that does not parse), the turn ends the same
    way, with the same reply and the same updated history, after the same
    calls; and the only exceptions that leave [runAgentTurn] are the
    provider's. *)
Theorem runAgentTurn_independent_of_fact_extraction (F1 F2 : FactsEnv Ext)
    (history : list JSON) (userMessage : string) (w : World Ext) :
  fst (fst (@runAgentTurn Ext _ _ F1 _ history userMessage w))
  = fst (fst (@runAgentTurn Ext _ _ F2 _ history userMessage w))
  /\ snd (@runAgentTurn Ext _ _ F1 _ history userMessage w)
     = snd (@runAgentTurn Ext _ _ F2 _ history userMessage w)
  /\ match fst (fst (@runAgentTurn Ext _ _ F1 _ history userMessage w)) with
     | Raised e => thrownByProvider e
     | _ => True
     end.
Proof.
  split; [|split].
  - unfold runAgentTurn. destruct (buildSystemPrompt userMessage w) as [prompt w0].
    apply agentLoop_facts_irrelevant.
  - unfold runAgentTurn. destruct (buildSystemPrompt userMessage w) as [prompt w0].
    apply agentLoop_facts_irrelevant.
  - pose proof (@runAgentTurn_exceptions Ext _ _ F1 _ history userMessage w) as Ho.
    by destruct (fst (fst (runAgentTurn history userMessage w))).
Qed.

End FactExtraction.

(** ** The provider adapters *)

Section AdapterFacts.
Context `{JSEngine}.

Lemma openai_fromResponse_contract name response :
  keepsContract (OpenAI.fromResponse name response).
Proof.
  unfold OpenAI.fromResponse.
  destruct (OpenAI.choices response) as [|msg rest]; [done|].
  destruct (get "tool_calls" (OpenAI.object msg)) as [[| | | |[|tc tcs]|]|]; simpl;
    try (split; split; try done; [by intros (? & ? & ?)|eauto]).
  split; split; try done; [eauto|by intros [? ?]].
Qed.

Lemma toolUse_calls blocks :
  length (omap Anthropic.toToolCall (List.filter Anthropic.isToolUse blocks))
  = length (List.filter Anthropic.isToolUse blocks).
Proof.
  induction blocks as [|b blocks IH]; simpl; [done|].
  destruct b; simpl; [done| |done]. f_equal. exact IH.
Qed.

Lemma anthropic_fromResponse_contract blocks :
  exactlyOne (Anthropic.fromResponse blocks).
Proof.
  unfold Anthropic.fromResponse.
  pose proof (toolUse_calls blocks) as Hlen.
  destruct (Nat.ltb_spec 0 (length (List.filter Anthropic.isToolUse blocks))) as [Hpos|Hzero];
    simpl.
  - destruct (omap Anthropic.toToolCall (List.filter Anthropic.isToolUse blocks))
      as [|call calls]; [simpl in Hlen; lia|].
    split; split; try done; [eauto|by intros [? ?]].
  - split; split; try done; [by intros (? & ? & ?)|eauto].
Qed.

Lemma google_fromResponse_contract response :
  keepsContract (Google.fromResponse response).
Proof.
  unfold Google.fromResponse.
  destruct (Google.functionCalls response) as [[|fc fcs]|]; simpl.
  - destruct (Google.text response); simpl; [|done].
    split; split; try done; [by intros (? & ? & ?)|eauto].
  - split; split; try done; [eauto|by intros [? ?]].
  - destruct (Google.text response); simpl; [|done].
    split; split; try done; [by intros (? & ? & ?)|eauto].
Qed.

(** C5. Whatever the backend answers, the response an adapter's [complete]
    resolves to has exactly one of [content] and [toolCalls] non-null:
    [content] is null exactly when [toolCalls] is a non-empty list, and
    [toolCalls] is null exactly when [content] is a string. This holds of
    the OpenAI-compatible, the Anthropic and the Google adapter. *)
Theorem adapters_keep_contract :
  (forall (Ext : Type) (client : OpenAI.Client Ext) (id name model : string)
          (messages : list JSON) (tools : list ToolSpec) (x : Ext),
      keepsContract
        (fst (complete (OpenAI.makeOpenAICompatible client id name model) messages tools x)))
  /\ (forall (Ext : Type) (client : Anthropic.Client Ext) (model : string)
             (messages : list JSON) (tools : list ToolSpec) (x : Ext),
        keepsContract
          (fst (complete (Anthropic.createAnthropicProvider client model) messages tools x)))
  /\ (forall (Ext : Type) (client : Google.Client Ext) (model : string)
             (messages : list JSON) (tools : list ToolSpec) (x : Ext),
        keepsContract
          (fst (complete (Google.createGoogleProvider client model) messages tools x))).
Proof.
  split; [|split]; intros Ext client.
  - intros id name model messages tools x. simpl.
    destruct (client _ x) as [[response|e] x']; [|done].
    apply openai_fromResponse_contract.
  - intros model messages tools x. simpl.
    destruct (Anthropic.toAnthropicMessages messages) as [[system msgs]|e]; [|done].
    destruct (client _ x) as [[blocks|e] x']; [|done].
    apply anthropic_fromResponse_contract.
  - intros model messages tools x. simpl.
    destruct (Google.toGeminiHistory messages) as [[[system history] lastUserMessage]|e];
      [|done].
    destruct (Google.toolDecls tools) as [decls|e]; [|done].
    destruct (client _ x) as [[response|e] x']; [|done].
    apply google_fromResponse_contract.
Qed.

(** C7, where the code falls short of it. The sanitizer filters the
    [required] list of the schema itself and of no schema nested in it: in a
    tool schema whose property [meta] is an object with a required property
    [title], it strips the property (its name is one of the unsupported
    keys) and leaves the nested [required: ["title"]] standing, naming a
    property that is no longer declared. *)
Theorem nested_required_left_unfiltered :
  Gemini.requiredDeclared (JObject Stub.nestedSchema) = true
  /\ Gemini.sanitizeGeminiParams Stub.nestedSchema
     = Ok [("properties",
             JObject [("meta",
               JObject [("type", JString "object");
                        ("properties", JObject []);
                        ("required", JArray [JString "title"])])]);
           ("required", JArray [JString "meta"])]
  /\ (forall clean, Gemini.sanitizeGeminiParams Stub.nestedSchema = Ok clean ->
        Gemini.requiredDeclared (JObject clean) = false).
Proof.
  assert (Hs : Gemini.sanitizeGeminiParams Stub.nestedSchema
     = Ok [("properties",
             JObject [("meta",
               JObject [("type", JString "object");
                        ("properties", JObject []);
                        ("required", JArray [JString "title"])])]);
           ("required", JArray [JString "meta"])]) by reflexivity.
  split; [reflexivity|]. split; [exact Hs|].
  intros clean Hc. rewrite Hs in Hc. injection Hc as <-. reflexivity.
Qed.

End AdapterFacts.

(** ** The properties at work on test doubles *)

Lemma runAgentTurn_iteration_cap_witness :
  ext (snd (fst (@runAgentTurn nat Stub.engine Stub.store Stub.facts
                   (Stub.agent 3 (Stub.requests [Stub.call "call_1"]) (fun _ => 0))
                   [] "hi" Stub.world0)))
  = 3
  /\ exists updatedHistory,
       fst (fst (@runAgentTurn nat Stub.engine Stub.store Stub.facts
                   (Stub.agent 3 (Stub.requests [Stub.call "call_1"]) (fun _ => 0))
                   [] "hi" Stub.world0))
       = MaxIterations MAX_ITERATIONS_REPLY updatedHistory.
Proof.
  assert (Hcounts : @countsCompletions nat Stub.store Stub.facts
                      (Stub.agent 3 (Stub.requests [Stub.call "call_1"]) (fun _ => 0))
                      (fun n => n)).
  { split; [reflexivity|]. split; [by intros x p x1 [= <- <-]|].
    split; [|repeat split].
    intros tool [<-|[]] args w. by destruct args. }
  apply (proj2 (proj2 (@runAgentTurn_iteration_cap nat Stub.engine Stub.store Stub.facts
                         (Stub.agent 3 (Stub.requests [Stub.call "call_1"]) (fun _ => 0))
                         (fun n => n) [] "hi" Stub.world0 Hcounts))).
  split.
  - intros x. eexists _, _. reflexivity.
  - intros x p x1 [= <- <-] messages x2.
    eexists _, _, _, _. split; reflexivity.
Defined.

Lemma tool_results_follow_requests_witness :
  exists toolResults w' log',
    @agentLoop nat Stub.engine Stub.store Stub.facts
      (Stub.agent 3 (Stub.requests [Stub.call "a"; Stub.call "b"]) (fun _ => 1))
      2 "hi" [userMessageOf "hi"] Stub.world0 []
    = @agentLoop nat Stub.engine Stub.store Stub.facts
        (Stub.agent 3 (Stub.requests [Stub.call "a"; Stub.call "b"]) (fun _ => 1))
        1 "hi"
        (([userMessageOf "hi"]
          ++ [assistantMessage (Stub.requests [Stub.call "a"; Stub.call "b"])])
         ++ toolResults) w' log'
    /\ length toolResults = 2
    /\ map toolCallIdOf toolResults = [Some "a"; Some "b"]
    /\ Forall (fun m => hasRole "tool" m = true) toolResults
    /\ (NoDup (map toolCallIdOf toolResults) <-> NoDup ["a"; "b"]).
Proof.
  apply (@tool_results_follow_requests nat Stub.engine Stub.store Stub.facts
           (Stub.agent 3 (Stub.requests [Stub.call "a"; Stub.call "b"]) (fun _ => 1))
           1 "hi" [userMessageOf "hi"] Stub.world0 []
           (Stub.respond (Stub.requests [Stub.call "a"; Stub.call "b"])) 0 1
           (Stub.requests [Stub.call "a"; Stub.call "b"]) (Stub.call "a") [Stub.call "b"]);
    reflexivity.
Defined.

(** C4 as the specification states it fails on a response whose tool calls
    share an id: the two tool messages pushed carry the same
    [tool_call_id]. *)
Lemma duplicate_ids_counterexample :
  returned
    (fst (fst (@runAgentTurn nat Stub.engine Stub.store Stub.facts
                 (Stub.agent 1 (Stub.requests [Stub.call "dup"; Stub.call "dup"]) (fun _ => 0))
                 [] "hi" Stub.world0)))
  = Some (MAX_ITERATIONS_REPLY,
          [userMessageOf "hi";
           assistantMessage (Stub.requests [Stub.call "dup"; Stub.call "dup"]);
           toolMessage "dup" "Echo: ";
           toolMessage "dup" "Echo: "])
  /\ ~ NoDup (map toolCallIdOf [toolMessage "dup" "Echo: "; toolMessage "dup" "Echo: "]).
Proof.
  split; [reflexivity|].
  simpl. intros Hnd. apply NoDup_cons in Hnd as [Hnotin _].
  apply Hnotin. by left.
Qed.

(** ** More on the schema sanitizer *)

Section GeminiDeclFacts.
Context `{JSEngine}.
Import Gemini.

Lemma Forall_spread (P : string * JSON -> Prop) base extra :
  List.Forall P base -> List.Forall P extra -> List.Forall P (spread base extra).
Proof.
  unfold spread. intros Hb He. revert base Hb.
  induction He as [|[k v] extra Hkv _ IH]; intros base Hb; simpl; [done|].
  apply IH. by apply Forall_set.
Qed.

(** What a tool declaration sent to Gemini never contains: at no depth of
    the declaration is there a property named [additionalProperties],
    [$schema], [$defs], [$ref], [examples], [default], [title] or
    [definitions]. *)
Theorem toolDecl_mentions_no_unsupported (t : ToolSpec) :
  match Google.toolDecl t with
  | Ok decl => mentionsUnsupported decl = false
  | Throw _ => True
  end.
Proof.
  unfold Google.toolDecl.
  pose proof (sanitize_clean (match fn_parameters t with Some p => p | None => [] end))
    as Hclean.
  destruct (sanitizeGeminiParams _) as [clean|e]; simpl; [|done].
  assert (Hps : mentionsUnsupported
                  (JObject (spread [("type", JString "OBJECT")] clean)) = false).
  { apply clean_fields. apply Forall_spread; [|done].
    constructor; [split; reflexivity|constructor]. }
  simpl in Hps. simpl. by rewrite Hps.
Qed.

Lemma remove_keys k fs : List.Forall (fun kv => fst kv <> k) (remove k fs).
Proof.
  apply List.Forall_forall. intros kv Hin.
  apply List.filter_In in Hin as [_ Hne].
  destruct (String.eqb_spec k (fst kv)); [done|]. congruence.
Qed.

Lemma sanitize_without_type raw :
  match sanitizeGeminiParams raw with
  | Ok clean => List.Forall (fun kv => fst kv <> "type") clean
  | Throw _ => True
  end.
Proof.
  unfold sanitizeGeminiParams.
  pose proof (remove_keys "type" (stripRecord raw)) as Hs.
  set (stripped := remove "type" (stripRecord raw)) in *.
  destruct (assoc "required" stripped) as [required|] eqn:Hreq.
  - destruct required as [| | | |req|];
      try (destruct (truthy _); [apply Forall_remove|]; done).
    destruct (assoc "properties" stripped) as [p|] eqn:Hp;
      [|by apply Forall_remove].
    destruct (truthy (Some p)); [|by apply Forall_remove].
    destruct (filterIn req p) as [kept|] eqn:Hf; [|done].
    assert (Hset : List.Forall (fun kv => fst kv <> "type")
                     (set "required" (JArray kept) stripped)).
    { apply Forall_set; [simpl; discriminate|done]. }
    destruct (Nat.eqb (length kept) 0); [by apply Forall_remove|done].
  - destruct (assoc "properties" stripped); simpl; done.
Qed.

Lemma assoc_spread_other k base extra :
  List.Forall (fun kv => fst kv <> k) extra ->
  assoc k (spread base extra) = assoc k base.
Proof.
  unfold spread. intros He. revert base.
  induction He as [|[k' v] extra Hne _ IH]; intros base; simpl; [done|].
  rewrite IH. apply assoc_set_ne. exact Hne.
Qed.

(** The schema of a declaration is always typed ["OBJECT"]: whatever
    [type] the tool's own schema gives is removed before the spread. *)
Theorem toolDecl_type_is_OBJECT (t : ToolSpec) :
  match Google.toolDecl t with
  | Ok decl =>
      exists parameters,
        get "parameters" decl = Some (JObject parameters)
        /\ assoc "type" parameters = Some (JString "OBJECT")
  | Throw _ => True
  end.
Proof.
  unfold Google.toolDecl.
  pose proof (sanitize_without_type (match fn_parameters t with Some p => p | None => [] end))
    as Hnt.
  destruct (sanitizeGeminiParams _) as [clean|e]; simpl; [|done].
  eexists. split; [reflexivity|]. by rewrite assoc_spread_other.
Qed.

(** What the sanitizer guarantees of the top-level [required]: if the
    sanitized schema still has a truthy [required], it is a non-empty array,
    the schema has [properties], and every entry of the array passed the
    [in] test against them; every entry was in the original list. *)
Theorem sanitize_top_level_required (raw : list (string * JSON)) :
  match sanitizeGeminiParams raw with
  | Ok clean =>
      match assoc "required" clean with
      | Some required =>
          truthy (Some required) = false
          \/ exists kept props req,
               required = JArray kept
               /\ kept <> []
               /\ assoc "properties" clean = Some props
               /\ assoc "required" (stripRecord raw) = Some (JArray req)
               /\ (forall k, In k kept -> In k req /\ hasProperty k props = Ok true)
      | None => True
      end
  | Throw _ => True
  end.
Proof.
  unfold sanitizeGeminiParams.
  set (stripped := remove "type" (stripRecord raw)).
  assert (Hreq0 : assoc "required" stripped = assoc "required" (stripRecord raw)).
  { by apply assoc_remove_ne. }
  destruct (assoc "required" stripped) as [required|] eqn:Hreq.
  - destruct required as [| |r|s|req|fs].
    1-4,6:
      destruct (assoc "properties" stripped);
      (destruct (truthy _) eqn:Ht;
       [by rewrite assoc_remove_eq|rewrite Hreq; by left]).
    destruct (assoc "properties" stripped) as [p|] eqn:Hp.
    2:{ simpl. by rewrite assoc_remove_eq. }
    destruct (truthy (Some p)); [|by rewrite assoc_remove_eq].
    destruct (filterIn req p) as [kept|] eqn:Hf; [|done].
    destruct kept as [|k0 kept]; simpl Nat.eqb; cbv iota.
    + by rewrite assoc_remove_eq.
    + rewrite assoc_set_eq. right. exists (k0 :: kept), p, req.
      split; [done|]. split; [done|]. split.
      { rewrite assoc_set_ne by done. exact Hp. }
      split; [by rewrite <- Hreq0|].
      intros k Hk. split.
      * eapply filterIn_sub; eauto.
      * eapply filterIn_kept; eauto.
  - destruct (assoc "properties" stripped); simpl; by rewrite Hreq.
Qed.

End GeminiDeclFacts.

(** ** More on the provider adapters *)

Section AdapterShapeFacts.
Context `{JSEngine}.






Lemma orElse_nonempty (s alt : string) : alt <> EmptyString -> orElse s alt <> EmptyString.
Proof. unfold orElse. by destruct (String.eqb_spec s ""). Qed.

(** A text reply of the Anthropic or the Google adapter is never the empty
    string: an empty text is replaced by "(no response)". The message they
    build carries the same text. *)
Theorem text_replies_are_not_empty :
  (forall blocks,
      match content (Anthropic.fromResponse blocks) with
      | Some text =>
          text <> EmptyString
          /\ get "content" (assistantMessage (Anthropic.fromResponse blocks))
             = Some (JString text)
      | None => True
      end)
  /\ (forall response,
        match Google.fromResponse response with
        | Ok r =>
            match content r with
            | Some text =>
                text <> EmptyString
                /\ get "content" (assistantMessage r) = Some (JString text)
            | None => True
            end
        | Throw _ => True
        end).
Proof.
  split.
  - intros blocks. unfold Anthropic.fromResponse.
    destruct (Nat.ltb 0 _); simpl; [done|].
    split; [by apply orElse_nonempty|done].
  - intros response. unfold Google.fromResponse.
    destruct (Google.functionCalls response) as [[|fc fcs]|];
      try (destruct (Google.text response) as [t|]; [|done];
           simpl; split; [by apply orElse_nonempty|done]).
    done.
Qed.

End AdapterShapeFacts.

(** ** More on the agent loop *)

Section AgentLogFacts.
Context {Ext : Type} `{JSEngine} `{StoreEnv Ext} `{FactsEnv Ext} `{AgentEnv Ext}.

(** The log of [settle]: one dispatch per execution that settles, in the
    order in which they settle. *)
Lemma settle_log (steps : nat) :
  forall pending calls values (w : World Ext) log,
    length pending = steps ->
    (forall i, i ∈ pending -> i < length calls) ->
    exists order,
      order ≡ₚ pending
      /\ snd (settle steps pending calls values w log)
         = log ++ omap (fun i => dispatchEvent <$> calls !! i) order.
Proof.
  induction steps as [|steps IH]; intros pending calls values w log Hlen Hin.
  - destruct pending; [|done]. exists []. simpl. by rewrite app_nil_r.
  - cbn [settle].
    set (position := settlesNext w (length pending) mod length pending) in *.
    assert (Hpos : position < length pending).
    { subst position. apply Nat.mod_upper_bound. lia. }
    destruct (lookup_lt_is_Some_2 _ _ Hpos) as [i Hi]. rewrite Hi.
    assert (Hi_in : i ∈ pending) by (by eapply list_elem_of_lookup_2).
    destruct (lookup_lt_is_Some_2 _ _ (Hin i Hi_in)) as [call Hcall].
    rewrite Hcall.
    destruct (toolTask call w) as [message w1].
    pose proof (delete_Permutation _ _ _ Hi) as Hperm.
    destruct (IH (delete position pending) calls (<[i:=Some message]> values) w1
                (log ++ [ToolDispatch (tc_name call) (tc_arguments call)]))
      as (order & Ho & Hlog).
    + rewrite length_delete by eauto. lia.
    + intros j Hj. apply Hin. rewrite Hperm. by right.
    + exists (i :: order). split.
      * rewrite Hperm. by constructor.
      * rewrite Hlog. simpl. rewrite Hcall. simpl. by rewrite <- app_assoc.
Qed.

Lemma omap_lookup_seq {A B : Type} (f : A -> B) (l : list A) (from : nat) (prefix : list A) :
  length prefix = from ->
  omap (fun i => f <$> (prefix ++ l) !! i) (seq from (length l)) = map f l.
Proof.
  revert from prefix. induction l as [|a l IH]; intros from prefix Hlen; simpl; [done|].
  rewrite lookup_app_r by lia. replace (from - length prefix) with 0 by lia. simpl.
  f_equal. specialize (IH (S from) (prefix ++ [a])).
  rewrite <- app_assoc in IH. simpl in IH. apply IH.
  rewrite length_app. simpl. lia.
Qed.

(** Every tool call of a batch is dispatched, once: the dispatches a batch
    adds to the log are those of its calls, in the order in which the
    executions settled. *)
Theorem promiseAll_dispatches_each_call_once (calls : list ToolCall) (w : World Ext)
    (log : list Event) :
  exists dispatched,
    snd (promiseAll calls w log) = log ++ dispatched
    /\ dispatched ≡ₚ map dispatchEvent calls.
Proof.
  unfold promiseAll.
  destruct (settle_log (length calls) (seq 0 (length calls)) calls
              (replicate (length calls) None) w log) as (order & Ho & Hlog).
  { by rewrite length_seq. }
  { intros i Hi. apply elem_of_seq in Hi. lia. }
  destruct (settle _ _ _ _ _ _) as [[values w'] log']. simpl in *.
  exists (omap (fun i => dispatchEvent <$> calls !! i) order). split; [done|].
  rewrite Ho.
  pose proof (omap_lookup_seq dispatchEvent calls 0 [] eq_refl) as Hseq.
  simpl in Hseq. by rewrite Hseq.
Qed.

(** What the loop adds to the log: dispatches, and completion requests
    whose message list extends the list the loop was entered with. *)
Lemma agentLoop_log (remaining : nat) :
  forall um messages (w : World Ext) log,
    exists added,
      snd (agentLoop remaining um messages w log) = log ++ added
      /\ Forall (fun e =>
                   match e with
                   | ProviderCall sent => exists pushed, sent = messages ++ pushed
                   | ToolDispatch _ _ => True
                   end) added.
Proof.
  induction remaining as [|remaining IH]; intros um messages w log.
  - exists []. simpl. by rewrite app_nil_r.
  - destruct (getActiveProvider (ext w)) as [[p|e] x] eqn:Hp.
    2:{ exists []. cbn [agentLoop]. rewrite Hp. simpl. by rewrite app_nil_r. }
    assert (Hfirst : exists pushed, messages = messages ++ pushed).
    { exists []. by rewrite app_nil_r. }
    destruct (complete p messages getOpenAITools x) as [[r|e] x'] eqn:Hc.
    2:{ exists [ProviderCall messages]. cbn [agentLoop]. rewrite Hp, Hc. simpl.
        split; [done|]. by constructor. }
    destruct (toolCalls r) as [[|call calls]|] eqn:Htc.
    + exists [ProviderCall messages]. cbn [agentLoop]. rewrite Hp, Hc, Htc.
      destruct (extractAndSaveFacts _ _ _) as [u w1]. simpl.
      split; [done|]. by constructor.
    + destruct (agentLoop_step remaining um messages w log p x r x' call calls Hp Hc Htc)
        as (toolResults & w' & log' & Hpa & -> & _ & _).
      destruct (promiseAll_dispatches_each_call_once (call :: calls) (withExt x' w)
                  (log ++ [ProviderCall messages])) as (dispatched & Hd & Hperm).
      rewrite Hpa in Hd. simpl in Hd. subst log'.
      destruct (IH um ((messages ++ [assistantMessage r]) ++ toolResults) w'
                  ((log ++ [ProviderCall messages]) ++ dispatched))
        as (added & -> & Hadded).
      exists ([ProviderCall messages] ++ dispatched ++ added).
      split; [by rewrite <- !app_assoc|].
      apply Forall_app. split; [by constructor|].
      apply Forall_app. split.
      * apply Forall_forall. intros e He. rewrite Hperm in He.
        apply list_elem_of_fmap in He as (c & -> & _). done.
      * eapply Forall_impl; [exact Hadded|].
        intros [sent|name args]; [|done]. intros [pushed ->].
        exists ([assistantMessage r] ++ toolResults ++ pushed).
        by rewrite <- !app_assoc.
    + exists [ProviderCall messages]. cbn [agentLoop]. rewrite Hp, Hc, Htc.
      destruct (extractAndSaveFacts _ _ _) as [u w1]. simpl.
      split; [done|]. by constructor.
Qed.

(** The provider is always sent the system prompt of the turn first, then
    the prior history, then the new user message, then what the loop has
    pushed so far. *)
Theorem provider_sees_prompt_history_and_user (history : list JSON) (userMessage : string)
    (w : World Ext) :
  Forall (fun e =>
            match e with
            | ProviderCall sent =>
                exists pushed,
                  sent = systemMessage (fst (buildSystemPrompt userMessage w))
                         :: history ++ userMessageOf userMessage :: pushed
            | ToolDispatch _ _ => True
            end)
         (snd (runAgentTurn history userMessage w)).
Proof.
  unfold runAgentTurn.
  destruct (buildSystemPrompt userMessage w) as [prompt w0]. simpl fst.
  destruct (agentLoop_log AGENT_MAX_ITERATIONS userMessage
              (systemMessage prompt :: history ++ [userMessageOf userMessage]) w0 [])
    as (added & -> & Hadded).
  simpl. eapply Forall_impl; [exact Hadded|].
  intros [sent|name args]; [|done]. intros [pushed ->].
  exists pushed. simpl. by rewrite <- app_assoc.
Qed.

(** With an iteration cap of zero the provider is never asked: the turn
    returns the warning at once, with the prior history and the user
    message as its updated history. *)
Theorem no_iterations_no_request (history : list JSON) (userMessage : string)
    (w : World Ext) :
  AGENT_MAX_ITERATIONS = 0 ->
  fst (fst (runAgentTurn history userMessage w))
  = MaxIterations MAX_ITERATIONS_REPLY (history ++ [userMessageOf userMessage])
  /\ snd (runAgentTurn history userMessage w) = [].
Proof.
  intros Hcap. unfold runAgentTurn.
  destruct (buildSystemPrompt userMessage w) as [prompt w0].
  rewrite Hcap. simpl. unfold slice1. simpl. by rewrite drop_0.
Qed.

(** A first response without tool calls ends the turn after one request:
    the reply is its content (or the placeholder), and the updated history
    is the prior history, the user message and the assistant message. *)
Theorem first_text_response_ends_turn (history : list JSON) (userMessage : string)
    (w : World Ext) (p : LLMProvider Ext) (x x' : Ext) (r : LLMResponse) :
  0 < AGENT_MAX_ITERATIONS ->
  getActiveProvider (ext (snd (buildSystemPrompt userMessage w))) = (Ok p, x) ->
  complete p
    (systemMessage (fst (buildSystemPrompt userMessage w))
     :: history ++ [userMessageOf userMessage])
    getOpenAITools x = (Ok r, x') ->
  toolCalls r = None \/ toolCalls r = Some [] ->
  fst (fst (runAgentTurn history userMessage w))
  = FinalReply (orDefault (content r) "(no response)")
      (history ++ [userMessageOf userMessage; assistantMessage r])
  /\ providerCalls (snd (runAgentTurn history userMessage w)) = 1.
Proof.
  intros Hcap Hp Hc Htc. unfold runAgentTurn.
  destruct (buildSystemPrompt userMessage w) as [prompt w0]. simpl in Hp, Hc.
  destruct AGENT_MAX_ITERATIONS as [|cap]; [lia|].
  cbn [agentLoop]. rewrite Hp, Hc.
  destruct Htc as [->| ->];
    destruct (extractAndSaveFacts _ _ _) as [u w1]; simpl;
    unfold slice1; simpl; rewrite drop_0, <- app_assoc; done.
Qed.

(** No system message enters the stored conversation: if the prior history
    holds none and the provider builds none, the updated history holds
    none. *)
Theorem updatedHistory_has_no_system_message (history : list JSON) (userMessage : string)
    (w : World Ext) :
  Forall (fun m => hasRole "system" m = false) history ->
  (forall r, producedBy r -> hasRole "system" (assistantMessage r) = false) ->
  match returned (fst (fst (runAgentTurn history userMessage w))) with
  | Some (_, updatedHistory) => Forall (fun m => hasRole "system" m = false) updatedHistory
  | None => True
  end.
Proof.
  intros Hhist Hprov.
  pose proof (runAgentTurn_history_prefix_aux history userMessage w) as Hpre.
  destruct (returned _) as [[reply updatedHistory]|]; [|done].
  destruct Hpre as (pushed & -> & Hpushed).
  apply Forall_app. split; [done|]. constructor; [done|].
  eapply Forall_impl; [exact Hpushed|].
  intros m [(id & out & ->)|(r & Hr & <-)]; [done|auto].
Qed.

End AgentLogFacts.

(** ** What a turn leaves alone *)

Section NoteFacts.
Import Memory.

Lemma updateNote_length now b key rows index :
  length (fst (updateNote now b key rows index)) = length rows.
Proof.
  revert index. induction rows as [|n rows IH]; intros index; simpl; [done|].
  destruct (note_id n =? key)%Z.
  - specialize (IH (ftsDelete (ftsEntryOf n) index
                      ++ [ftsEntryOf {| note_id := note_id n; title := title n;
                                        body := b; note_ts := now |}])).
    destruct (updateNote _ _ _ rows _). simpl in *. by rewrite IH.
  - specialize (IH index). destruct (updateNote _ _ _ rows _). simpl in *. by rewrite IH.
Qed.

Lemma saveNote_frame now t b d :
  messages (saveNote now t b d) = messages d
  /\ messages_seq (saveNote now t b d) = messages_seq d
  /\ core_memories (saveNote now t b d) = core_memories d
  /\ setup_state (saveNote now t b d) = setup_state d
  /\ length (notes d) <= length (notes (saveNote now t b d)) <= S (length (notes d)).
Proof.
  unfold saveNote. destruct (findNote t d) as [existing|].
  - pose proof (updateNote_length now b (note_id existing) (notes d) (notes_fts d)) as Hl.
    destruct (updateNote _ _ _ _ _) as [rows index]. simpl in *. repeat split; lia.
  - simpl. rewrite length_app. simpl. repeat split; lia.
Qed.

End NoteFacts.

Section TurnFrameFacts.
Context {Ext : Type} `{JSEngine} `{StoreEnv Ext} `{FactsEnv Ext} `{AgentEnv Ext}.

Lemma sameConversations_refl (w : World Ext) : sameConversations w w.
Proof. by split. Qed.

Lemma sameConversations_trans (w1 w2 w3 : World Ext) :
  sameConversations w1 w2 -> sameConversations w2 w3 -> sameConversations w1 w3.
Proof. intros [? ?] [? ?]. split; congruence. Qed.

Lemma saveNote_world (t b : string) (w : World Ext) :
  sameConversations w (saveNote t b w)
  /\ Memory.core_memories (db (saveNote t b w)) = Memory.core_memories (db w)
  /\ length (Memory.notes (db (saveNote t b w))) <= S (length (Memory.notes (db w))).
Proof.
  unfold saveNote.
  pose proof (saveNote_frame (unixepoch (ext w)) t b (db w)) as (? & ? & ? & ? & ? & ?).
  destruct (upsertMemory t b (ext w)) as [ok x]. simpl.
  split; [by split|]. split; [done|lia].
Qed.

Lemma saveFacts_world (facts : list JSON) :
  forall w : World Ext,
    sameConversations w (snd (saveFacts facts w))
    /\ Memory.core_memories (db (snd (saveFacts facts w))) = Memory.core_memories (db w)
    /\ length (Memory.notes (db (snd (saveFacts facts w))))
       <= length (Memory.notes (db w)) + length facts.
Proof.
  induction facts as [|fact facts IH]; intros w.
  - simpl. split; [apply sameConversations_refl|]. split; [done|lia].
  - assert (Hskip :
      sameConversations w (snd (saveFacts facts w))
      /\ Memory.core_memories (db (snd (saveFacts facts w))) = Memory.core_memories (db w)
      /\ length (Memory.notes (db (snd (saveFacts facts w))))
         <= length (Memory.notes (db w)) + length (fact :: facts)).
    { destruct (IH w) as (? & ? & ?). split; [done|]. split; [done|]. simpl. lia. }
    assert (Hstop :
      sameConversations w w
      /\ Memory.core_memories (db w) = Memory.core_memories (db w)
      /\ length (Memory.notes (db w)) <= length (Memory.notes (db w)) + length (fact :: facts)).
    { split; [apply sameConversations_refl|]. split; [done|lia]. }
    cbn [saveFacts].
    destruct fact as [|b0|r0|s0|items|fields];
      [exact Hstop|exact Hskip|exact Hskip|exact Hskip|exact Hskip|].
    simpl get.
    destruct (truthy (assoc "title" fields) && truthy (assoc "body" fields));
      [|exact Hskip].
    destruct (assoc "title" fields) as [[| | |t| |]|]; try exact Hstop.
    destruct (assoc "body" fields) as [[| | |b| |]|]; try exact Hstop.
    + destruct (saveNote_world (trim t) (trim b) w) as (Hc & Hm & Hn).
      destruct (IH (saveNote (trim t) (trim b) w)) as (Hc' & Hm' & Hn').
      split; [by eapply sameConversations_trans|].
      split; [congruence|]. simpl length. lia.
Qed.

(** The background fact extraction is contained: its promise is always
    fulfilled, whatever the backend or the parser do; it adds at most five
    notes; and it leaves the conversations and the core memories alone.
    Without an API key it does nothing at all. *)
Theorem extractAndSaveFacts_is_contained (userMessage assistantReply : string)
    (w : World Ext) :
  fst (extractAndSaveFacts userMessage assistantReply w) = Ok tt
  /\ sameConversations w (snd (extractAndSaveFacts userMessage assistantReply w))
  /\ Memory.core_memories (db (snd (extractAndSaveFacts userMessage assistantReply w)))
     = Memory.core_memories (db w)
  /\ length (Memory.notes (db (snd (extractAndSaveFacts userMessage assistantReply w))))
     <= length (Memory.notes (db w)) + 5
  /\ (OPENAI_API_KEY = EmptyString ->
      snd (extractAndSaveFacts userMessage assistantReply w) = w).
Proof.
  unfold extractAndSaveFacts.
  destruct (String.eqb_spec OPENAI_API_KEY "") as [Hkey|Hkey].
  { simpl. split; [done|]. split; [apply sameConversations_refl|].
    split; [done|]. split; [lia|done]. }
  assert (Hbody :
    sameConversations w (snd (extractAndSaveFactsBody userMessage assistantReply w))
    /\ Memory.core_memories (db (snd (extractAndSaveFactsBody userMessage assistantReply w)))
       = Memory.core_memories (db w)
    /\ length (Memory.notes (db (snd (extractAndSaveFactsBody userMessage assistantReply w))))
       <= length (Memory.notes (db w)) + 5).
  { unfold extractAndSaveFactsBody.
    destruct (createExtraction _ (ext w)) as [[c|e] x]; simpl.
    2:{ split; [by split|]. split; [done|lia]. }
    destruct (JSON_parse (orDefault c "{}")) as [parsed|]; simpl.
    2:{ split; [by split|]. split; [done|lia]. }
    destruct (saveFacts_world (firstn 5 (factsIn parsed)) (withExt x w)) as (Hc & Hm & Hn).
    split; [exact Hc|]. split; [exact Hm|].
    etransitivity; [exact Hn|]. simpl.
    pose proof (firstn_le_length 5 (factsIn parsed)). lia. }
  destruct (extractAndSaveFactsBody userMessage assistantReply w) as [[u|e] w']; simpl in *.
  - destruct Hbody as (Hc & Hm & Hn).
    split; [done|]. split; [done|]. split; [done|]. split; [done|]. intros Hk. congruence.
  - destruct Hbody as (Hc & Hm & Hn).
    split; [done|]. split; [done|]. split; [done|]. split; [done|]. intros Hk. congruence.
Qed.

End TurnFrameFacts.

Section TurnKeepsConversations.
Context {Ext : Type} `{JSEngine} `{StoreEnv Ext} `{FactsEnv Ext} `{AgentEnv Ext}.

Lemma dispatchTool_keeps (name rawArgs : string) (w : World Ext) :
  toolsKeepMessages -> sameConversations w (snd (dispatchTool name rawArgs w)).
Proof.
  intros Hkeep. unfold dispatchTool, lookupTool.
  destruct (List.find _ tools) as [tool|] eqn:Hfind; [|apply sameConversations_refl].
  apply List.find_some in Hfind as [Hin _].
  destruct (JSON_parse rawArgs) as [args|]; [|apply sameConversations_refl].
  pose proof (Hkeep tool Hin args w) as Hk.
  destruct (execute tool args w) as [[output|err] w']; exact Hk.
Qed.

Lemma settle_keeps (steps : nat) :
  toolsKeepMessages ->
  forall pending calls values (w : World Ext) log,
    sameConversations w (snd (fst (settle steps pending calls values w log))).
Proof.
  intros Hkeep. induction steps as [|steps IH]; intros pending calls values w log.
  - apply sameConversations_refl.
  - cbn [settle]. destruct (pending !! _) as [i|]; [|apply sameConversations_refl].
    destruct (calls !! i) as [call|]; [|apply sameConversations_refl].
    unfold toolTask.
    pose proof (dispatchTool_keeps (tc_name call) (tc_arguments call) w Hkeep) as Hd.
    destruct (dispatchTool (tc_name call) (tc_arguments call) w) as [output w1].
    eapply sameConversations_trans; [exact Hd|apply IH].
Qed.

Lemma promiseAll_keeps (calls : list ToolCall) (w : World Ext) (log : list Event) :
  toolsKeepMessages -> sameConversations w (snd (fst (promiseAll calls w log))).
Proof.
  intros Hkeep. unfold promiseAll.
  pose proof (settle_keeps (length calls) Hkeep (seq 0 (length calls)) calls
                (replicate (length calls) None) w log) as Hs.
  by destruct (settle _ _ _ _ _ _) as [[values w'] log'].
Qed.

Lemma agentLoop_keeps (remaining : nat) :
  toolsKeepMessages ->
  forall um messages (w : World Ext) log,
    sameConversations w (snd (fst (agentLoop remaining um messages w log))).
Proof.
  intros Hkeep. induction remaining as [|remaining IH]; intros um messages w log.
  - apply sameConversations_refl.
  - cbn [agentLoop].
    destruct (getActiveProvider (ext w)) as [[p|e] x]; [|by split].
    destruct (complete p messages getOpenAITools x) as [[r|e] x']; [|by split].
    assert (Hfinal : forall reply,
      sameConversations w (snd (extractAndSaveFacts um reply (withExt x' w)))).
    { intros reply.
      destruct (extractAndSaveFacts_is_contained um reply (withExt x' w)) as (_ & Hc & _).
      exact Hc. }
    destruct (toolCalls r) as [[|call calls]|].
    + specialize (Hfinal (orDefault (content r) "(no response)")).
      by destruct (extractAndSaveFacts _ _ _).
    + pose proof (promiseAll_keeps (call :: calls) (withExt x' w)
                    (log ++ [ProviderCall messages]) Hkeep) as Hp.
      destruct (promiseAll _ _ _) as [[[toolResults|] w'] log']; [|exact Hp].
      eapply sameConversations_trans; [exact Hp|apply IH].
    + specialize (Hfinal (orDefault (content r) "(no response)")).
      by destruct (extractAndSaveFacts _ _ _).
Qed.

Lemma buildSystemPrompt_db (userMessage : string) (w : World Ext) :
  db (snd (buildSystemPrompt userMessage w)) = db w.
Proof.
  unfold buildSystemPrompt.
  destruct (negb isSupabaseConfigured); [done|].
  destruct (semanticSearch userMessage 3 (ext w)) as [memories x].
  by destruct (Nat.eqb (length memories) 0).
Qed.

(** A turn does not write the conversation table: unless a tool does, the
    stored messages of every chat are after the turn what they were before
    it. Persisting the updated history is left to the caller. *)
Theorem turn_keeps_stored_conversations (history : list JSON) (userMessage : string)
    (w : World Ext) :
  toolsKeepMessages ->
  sameConversations w (snd (fst (runAgentTurn history userMessage w)))
  /\ forall chatId,
       Memory.loadHistory chatId (db (snd (fst (runAgentTurn history userMessage w))))
       = Memory.loadHistory chatId (db w).
Proof.
  intros Hkeep.
  assert (Hsame : sameConversations w (snd (fst (runAgentTurn history userMessage w)))).
  { unfold runAgentTurn.
    pose proof (buildSystemPrompt_db userMessage w) as Hdb.
    destruct (buildSystemPrompt userMessage w) as [prompt w0]. simpl in Hdb.
    pose proof (agentLoop_keeps AGENT_MAX_ITERATIONS Hkeep userMessage
                  (systemMessage prompt :: history ++ [userMessageOf userMessage]) w0 [])
      as [Hm Hs].
    split; congruence. }
  split; [exact Hsame|].
  intros chatId. destruct Hsame as [Hm _].
  unfold Memory.loadHistory, Memory.stmtLoadMsgs. by rewrite Hm.
Qed.

(** The system prompt of a turn begins with the base prompt, and building
    it does not touch the database. *)
Theorem buildSystemPrompt_extends_base (userMessage : string) (w : World Ext) :
  String.prefix (BASE_SYSTEM_PROMPT (ext w)) (fst (buildSystemPrompt userMessage w)) = true
  /\ db (snd (buildSystemPrompt userMessage w)) = db w.
Proof.
  split; [|apply buildSystemPrompt_db].
  unfold buildSystemPrompt.
  set (base := BASE_SYSTEM_PROMPT (ext w)).
  set (coreBlock := if Nat.ltb 0 _ then _ else _).
  assert (Happ : forall a b c : string, (a +:+ b) +:+ c = a +:+ (b +:+ c)).
  { intros a b c. induction a as [|ch a IH]; [done|].
    change (String ch ((a +:+ b) +:+ c) = String ch (a +:+ (b +:+ c))). by f_equal. }
  destruct (negb isSupabaseConfigured); [apply prefix_append|].
  destruct (semanticSearch userMessage 3 (ext w)) as [memories x].
  destruct (Nat.eqb (length memories) 0); cbn [fst]; [apply prefix_append|].
  rewrite Happ. apply prefix_append.
Qed.

End TurnKeepsConversations.

(** ** More on the store *)

Section StoreMoreFacts.
Context `{JSEngine}.
Import Memory.

(** [saveHistory] replaces the history of its chat and nothing else: it
    leaves the loaded history of every other chat, the notes and their
    index, the core memories and the setup state as they were. *)
Theorem saveHistory_frame (now chatId : Z) (M : list JSON) (d : Db) :
  List.Forall wellFormed M ->
  exists d',
    saveHistory now chatId M d = Ok d'
    /\ notes d' = notes d /\ notes_seq d' = notes_seq d /\ notes_fts d' = notes_fts d
    /\ core_memories d' = core_memories d /\ setup_state d' = setup_state d
    /\ forall other, other <> chatId -> loadHistory other d' = loadHistory other d.
Proof.
  intros HM.
  destruct (stmtLoadMsgs_saved now chatId M d HM)
    as (d' & rows & Hs & Hm & _ & Hc & _ & Hn1 & Hn2 & Hn3 & Hn4 & Hn5).
  exists d'. repeat split; try done.
  intros other Hne. unfold loadHistory, stmtLoadMsgs.
  rewrite Hm, List.filter_app, (filter_other_chat _ _ Hc other Hne), app_nil_r.
  by rewrite filter_kept.
Qed.

(** The last save wins: after saving [M1] and then [M2] for a chat, loading
    it returns [M2], with as many rows as [M2] has messages. Saving the
    same list twice is the case [M1 = M2]. *)
Theorem saveHistory_replaces (now1 now2 chatId : Z) (M1 M2 : list JSON) (d : Db) :
  List.Forall wellFormed M1 ->
  List.Forall wellFormed M2 ->
  exists d1 d2,
    saveHistory now1 chatId M1 d = Ok d1
    /\ saveHistory now2 chatId M2 d1 = Ok d2
    /\ loadHistory chatId d2 = Ok M2
    /\ length (stmtLoadMsgs chatId d2) = length M2.
Proof.
  intros HM1 HM2.
  destruct (stmtLoadMsgs_saved now1 chatId M1 d HM1) as (d1 & rows1 & Hs1 & _).
  destruct (stmtLoadMsgs_saved now2 chatId M2 d1 HM2)
    as (d2 & rows2 & Hs2 & _ & Hl & _ & Hraw & _).
  exists d1, d2. split; [done|]. split; [done|]. split.
  - unfold loadHistory. rewrite Hl. by apply rowMessage_stored.
  - rewrite Hl. rewrite <- (length_map raw_json), Hraw. by rewrite length_map.
Qed.

End StoreMoreFacts.

Section NoteStoreFacts.
Import Memory.

Lemma find_app_none {A : Type} (f : A -> bool) (l1 l2 : list A) :
  List.find f l1 = None -> List.find f (l1 ++ l2) = List.find f l2.
Proof.
  induction l1 as [|a l1 IH]; simpl; [done|]. destruct (f a); [done|exact IH].
Qed.

Lemma find_updated now b t rows index existing :
  List.find (fun n => String.eqb (lower (title n)) (lower t)) rows = Some existing ->
  List.find (fun n => String.eqb (lower (title n)) (lower t))
    (fst (updateNote now b (note_id existing) rows index))
  = Some {| note_id := note_id existing; title := title existing;
            body := b; note_ts := now |}.
Proof.
  revert index. induction rows as [|n rows IH]; intros index; simpl; [done|].
  destruct (String.eqb (lower (title n)) (lower t)) eqn:Hmatch.
  - intros [= ->]. rewrite Z.eqb_refl.
    destruct (updateNote _ _ _ rows _) as [rows' index']. simpl. by rewrite Hmatch.
  - intros Hfind.
    destruct (note_id n =? note_id existing)%Z.
    + specialize (IH (ftsDelete (ftsEntryOf n) index
                        ++ [ftsEntryOf {| note_id := note_id n; title := title n;
                                          body := b; note_ts := now |}]) Hfind).
      destruct (updateNote _ _ _ rows _) as [rows' index']. simpl in *.
      by rewrite Hmatch.
    + specialize (IH index Hfind).
      destruct (updateNote _ _ _ rows index) as [rows' index']. simpl in *.
      by rewrite Hmatch.
Qed.

(** A saved note can be found again under its title, in any letter case,
    with the body just saved; saving under the title of an existing note
    overwrites that note instead of adding one. *)
Theorem saveNote_then_findNote (now : Z) (t b : string) (d : Db) :
  exists n,
    findNote t (saveNote now t b d) = Some n
    /\ body n = b
    /\ lower (title n) = lower t
    /\ length (notes (saveNote now t b d))
       = match findNote t d with
         | Some _ => length (notes d)
         | None => S (length (notes d))
         end.
Proof.
  unfold saveNote, findNote.
  destruct (List.find _ (notes d)) as [existing|] eqn:Hfind.
  - pose proof (find_updated now b t (notes d) (notes_fts d) existing Hfind) as Hf.
    pose proof (updateNote_length now b (note_id existing) (notes d) (notes_fts d)) as Hl.
    destruct (updateNote _ _ _ _ _) as [rows index]. simpl in *.
    eexists. split; [exact Hf|]. simpl. split; [done|]. split; [|done].
    apply List.find_some in Hfind as [_ Heq]. by apply String.eqb_eq.
  - simpl. rewrite (find_app_none _ _ _ Hfind). simpl. rewrite String.eqb_refl.
    eexists. split; [reflexivity|]. simpl. split; [done|]. split; [done|].
    rewrite length_app. simpl. lia.
Qed.

End NoteStoreFacts.

Section NoteIndexFacts.
Import Memory.

Lemma ftsEntry_eqb_eq (a b : FtsEntry) : ftsEntry_eqb a b = true <-> a = b.
Proof.
  unfold ftsEntry_eqb. destruct a as [i1 t1 b1], b as [i2 t2 b2]. simpl.
  rewrite !andb_true_iff, Z.eqb_eq, !String.eqb_eq. split.
  - intros [[-> ->] ->]. done.
  - intros [= -> -> ->]. done.
Qed.

Lemma filter_perm {A : Type} (f : A -> bool) (l l' : list A) :
  l ≡ₚ l' -> List.filter f l ≡ₚ List.filter f l'.
Proof.
  induction 1 as [|a l l' _ IH|a a' l|l1 l2 l3 _ IH1 _ IH2]; simpl.
  - done.
  - destruct (f a); [by constructor|done].
  - destruct (f a), (f a'); try done. by constructor.
  - by etransitivity.
Qed.

Lemma ftsDelete_perm (e : FtsEntry) (l l' : list FtsEntry) :
  l ≡ₚ l' -> ftsDelete e l ≡ₚ ftsDelete e l'.
Proof. apply filter_perm. Qed.

Lemma ftsDelete_absent (e : FtsEntry) (l : list FtsEntry) :
  ~ In e l -> ftsDelete e l = l.
Proof.
  induction l as [|e' l IH]; simpl; [done|].
  intros Hnot. destruct (ftsEntry_eqb e e') eqn:He; simpl.
  - apply ftsEntry_eqb_eq in He. subst. destruct Hnot. by left.
  - rewrite IH; [done|]. intros Hin. apply Hnot. by right.
Qed.

Lemma ftsDelete_head (e : FtsEntry) (l : list FtsEntry) :
  ftsDelete e (e :: l) = ftsDelete e l.
Proof.
  unfold ftsDelete. simpl.
  destruct (ftsEntry_eqb e e) eqn:He; [done|].
  assert (ftsEntry_eqb e e = true) by (by apply ftsEntry_eqb_eq). congruence.
Qed.

Lemma updateNote_sync now b key (rows : list NoteRow) :
  forall index others,
    index ≡ₚ map ftsEntryOf rows ++ others ->
    NoDup (map note_id rows ++ map fts_rowid others) ->
    snd (updateNote now b key rows index)
      ≡ₚ map ftsEntryOf (fst (updateNote now b key rows index)) ++ others
    /\ map note_id (fst (updateNote now b key rows index)) = map note_id rows.
Proof.
  induction rows as [|n rows IH]; intros index others Hperm Hnd; simpl; [done|].
  simpl in Hperm, Hnd. apply NoDup_cons in Hnd as [Hfresh Hnd].
  destruct (note_id n =? key)%Z.
  - set (n' := {| note_id := note_id n; title := title n; body := b; note_ts := now |}).
    destruct (IH (ftsDelete (ftsEntryOf n) index ++ [ftsEntryOf n'])
                (ftsEntryOf n' :: others)) as [Hp Hids].
    + rewrite (ftsDelete_perm _ _ _ Hperm).
      rewrite ftsDelete_head, ftsDelete_absent.
      * rewrite <- app_assoc. apply Permutation_app_head.
        by rewrite <- Permutation_cons_append.
      * intros Hin. apply Hfresh. apply list_elem_of_In.
        apply List.in_app_or in Hin as [Hin|Hin].
        -- apply List.in_app_iff. left.
           apply List.in_map_iff in Hin as (m & Hm & Hin).
           apply List.in_map_iff. exists m. split; [|done].
           by apply (f_equal fts_rowid) in Hm.
        -- apply List.in_app_iff. right.
           apply List.in_map_iff. by exists (ftsEntryOf n).
    + simpl. apply NoDup_app. apply NoDup_app in Hnd as (Hn1 & Hn2 & Hn3).
      split; [done|]. split.
      * intros i Hi. rewrite elem_of_cons. intros [->|Hin].
        -- apply Hfresh. rewrite elem_of_app. by left.
        -- by apply (Hn2 i).
      * apply NoDup_cons. split; [|done].
        intros Hin. apply Hfresh. rewrite elem_of_app. by right.
    + destruct (updateNote now b key rows _) as [rows' index']. simpl in *.
      split; [|by rewrite Hids].
      rewrite Hp. by rewrite <- Permutation_middle.
  - destruct (IH index (ftsEntryOf n :: others)) as [Hp Hids].
    + rewrite Hperm. by rewrite <- Permutation_middle.
    + simpl. apply NoDup_app. apply NoDup_app in Hnd as (Hn1 & Hn2 & Hn3).
      split; [done|]. split.
      * intros i Hi. rewrite elem_of_cons. intros [->|Hin].
        -- apply Hfresh. rewrite elem_of_app. by left.
        -- by apply (Hn2 i).
      * apply NoDup_cons. split; [|done].
        intros Hin. apply Hfresh. rewrite elem_of_app. by right.
    + destruct (updateNote now b key rows index) as [rows' index']. simpl in *.
      split; [|by rewrite Hids].
      rewrite Hp. by rewrite <- Permutation_middle.
Qed.

Lemma max_keys_bound (l : list Z) (i : Z) :
  In i l -> (i <= fold_right Z.max 0 l)%Z.
Proof.
  induction l as [|a l IH]; simpl; [done|].
  intros [->|Hin]; [lia|]. specialize (IH Hin). lia.
Qed.

(** Saving a note keeps the full-text index in step with the notes: if
    every note had its one index entry before, every note has its one index
    entry after, the new or changed note among them, and the keys stay
    distinct. *)
Theorem saveNote_keeps_index_in_sync (now : Z) (t b : string) (d : Db) :
  ftsInSync d -> ftsInSync (saveNote now t b d).
Proof.
  intros [Hnd Hperm]. unfold ftsInSync, saveNote.
  destruct (findNote t d) as [existing|].
  - destruct (updateNote_sync now b (note_id existing) (notes d) (notes_fts d) [])
      as [Hp Hids].
    + by rewrite app_nil_r.
    + by rewrite app_nil_r.
    + destruct (updateNote _ _ _ _ _) as [rows index]. simpl in *.
      rewrite app_nil_r in Hp. split; [by rewrite Hids|done].
  - simpl. split.
    + rewrite map_app. simpl. apply NoDup_app. split; [done|]. split.
      * intros i Hi. rewrite elem_of_cons. intros [->|Hin]; [|by apply elem_of_nil in Hin].
        apply list_elem_of_In, max_keys_bound in Hi. unfold nextKey in Hi. lia.
      * apply NoDup_singleton.
    + rewrite map_app. simpl. by apply Permutation_app.
Qed.

(** *** Core memories and setup state *)

Lemma find_upsertCore now k l v rows :
  List.find (fun r => String.eqb (cm_key r) k) (upsertCore now k l v rows)
  = Some {| cm_key := k; cm_label := l; cm_value := v; cm_ts := now |}.
Proof.
  induction rows as [|r rows IH]; simpl.
  - by rewrite String.eqb_refl.
  - destruct (String.eqb (cm_key r) k) eqn:Hk; simpl.
    + by rewrite String.eqb_refl.
    + by rewrite Hk.
Qed.

Lemma find_upsertCore_other now k l v k' rows :
  k' <> k ->
  List.find (fun r => String.eqb (cm_key r) k') (upsertCore now k l v rows)
  = List.find (fun r => String.eqb (cm_key r) k') rows.
Proof.
  intros Hne. induction rows as [|r rows IH]; simpl.
  - destruct (String.eqb_spec k k'); congruence.
  - destruct (String.eqb_spec (cm_key r) k) as [Hk|Hk]; simpl.
    + destruct (String.eqb_spec k k'); [congruence|].
      destruct (String.eqb_spec (cm_key r) k'); congruence.
    + destruct (String.eqb (cm_key r) k'); [done|exact IH].
Qed.

Lemma keys_upsertCore now k l v rows :
  map cm_key (upsertCore now k l v rows)
  = if existsb (fun r => String.eqb (cm_key r) k) rows
    then map cm_key rows else map cm_key rows ++ [k].
Proof.
  induction rows as [|r rows IH]; simpl; [done|].
  destruct (String.eqb_spec (cm_key r) k) as [Hk|Hk]; simpl.
  - by rewrite Hk.
  - rewrite IH. by destruct (existsb _ rows).
Qed.

(** [setCoreMemory] is an upsert on the key: afterwards the key maps to the
    new label and value, every other key maps to what it did, the keys keep
    their order (a new key comes last) and stay distinct; nothing else in
    the database changes. *)
Theorem setCoreMemory_upserts (now : Z) (k l v : string) (d : Db) :
  coreMemory k (setCoreMemory now k l v d)
  = Some {| cm_key := k; cm_label := l; cm_value := v; cm_ts := now |}
  /\ (forall k', k' <> k -> coreMemory k' (setCoreMemory now k l v d) = coreMemory k' d)
  /\ map cm_key (getAllCoreMemories (setCoreMemory now k l v d))
     = (if existsb (fun r => String.eqb (cm_key r) k) (core_memories d)
        then map cm_key (core_memories d) else map cm_key (core_memories d) ++ [k])
  /\ (NoDup (map cm_key (core_memories d)) ->
      NoDup (map cm_key (core_memories (setCoreMemory now k l v d))))
  /\ messages (setCoreMemory now k l v d) = messages d
  /\ notes (setCoreMemory now k l v d) = notes d.
Proof.
  unfold coreMemory, setCoreMemory, getAllCoreMemories. simpl.
  split; [apply find_upsertCore|]. split; [intros k' Hne; by apply find_upsertCore_other|].
  split; [apply keys_upsertCore|]. split; [|done].
  intros Hnd. rewrite keys_upsertCore.
  destruct (existsb _ (core_memories d)) eqn:Hex; [done|].
  apply NoDup_app. split; [done|]. split; [|apply NoDup_singleton].
  intros k0 Hin. rewrite elem_of_cons. intros [->|Hnil]; [|by apply elem_of_nil in Hnil].
  apply list_elem_of_In, List.in_map_iff in Hin as (r & Hr & Hin).
  assert (existsb (fun r => String.eqb (cm_key r) k) (core_memories d) = true).
  { apply List.existsb_exists. exists r. split; [done|]. by apply String.eqb_eq. }
  congruence.
Qed.

Lemma find_upsertStep c s rows :
  List.find (fun r => (fst r =? c)%Z) (upsertStep c s rows) = Some (c, s).
Proof.
  induction rows as [|r rows IH]; simpl.
  - by rewrite Z.eqb_refl.
  - destruct (fst r =? c)%Z eqn:Hc; simpl.
    + by rewrite Z.eqb_refl.
    + by rewrite Hc.
Qed.

Lemma find_upsertStep_other c s c' rows :
  c' <> c ->
  List.find (fun r => (fst r =? c')%Z) (upsertStep c s rows)
  = List.find (fun r => (fst r =? c')%Z) rows.
Proof.
  intros Hne. induction rows as [|r rows IH]; simpl.
  - destruct (Z.eqb_spec c c'); congruence.
  - destruct (Z.eqb_spec (fst r) c) as [Hc|Hc]; simpl.
    + destruct (Z.eqb_spec c c'); [congruence|].
      destruct (Z.eqb_spec (fst r) c'); congruence.
    + destruct (fst r =? c')%Z; [done|exact IH].
Qed.

Lemma find_filter_out c c' (rows : list (Z * Z)) :
  List.find (fun r => (fst r =? c')%Z) (List.filter (fun r => negb (fst r =? c)%Z) rows)
  = if (c' =? c)%Z then None else List.find (fun r => (fst r =? c')%Z) rows.
Proof.
  induction rows as [|r rows IH]; simpl; [by destruct (c' =? c)%Z|].
  destruct (Z.eqb_spec (fst r) c) as [Hc|Hc]; simpl.
  - rewrite IH. destruct (Z.eqb_spec c' c) as [->|Hne]; [done|].
    destruct (Z.eqb_spec (fst r) c'); [congruence|done].
  - destruct (Z.eqb_spec (fst r) c') as [Hc'|Hc']; [|exact IH].
    destruct (Z.eqb_spec c' c); [congruence|done].
Qed.

(** The setup step of a chat: set, it is read back; cleared, it is gone;
    and neither touches the step of another chat. *)
Theorem setup_step_roundtrip (chatId step : Z) (d : Db) :
  getSetupStep chatId (setSetupStep chatId step d) = Some step
  /\ getSetupStep chatId (clearSetupState chatId d) = None
  /\ (forall other, other <> chatId ->
        getSetupStep other (setSetupStep chatId step d) = getSetupStep other d
        /\ getSetupStep other (clearSetupState chatId d) = getSetupStep other d).
Proof.
  unfold getSetupStep, setSetupStep, clearSetupState. simpl.
  split; [by rewrite find_upsertStep|]. split.
  - by rewrite find_filter_out, Z.eqb_refl.
  - intros other Hne. rewrite find_upsertStep_other by done. split; [done|].
    rewrite find_filter_out. by destruct (Z.eqb_spec other chatId).
Qed.

End NoteIndexFacts.

(** ** The request side of the adapters *)

Section ConversionFacts.
Context `{JSEngine}.

Lemma historyFrom_prompt (nonSystem : list JSON) :
  forall history lastUserMessage,
    match Google.historyFrom nonSystem history lastUserMessage with
    | Ok (_, prompt) =>
        prompt = match last nonSystem with
                 | Some m => if hasRole "user" m then geminiUserText m else lastUserMessage
                 | None => lastUserMessage
                 end
    | Throw _ => True
    end.
Proof.
  induction nonSystem as [|m rest IH]; intros history lum; [done|].
  assert (Hlast : rest <> [] -> last (m :: rest) = last rest).
  { destruct rest; [done|]. intros _. reflexivity. }
  cbn [Google.historyFrom].
  destruct (hasRole "user" m) eqn:Hu.
  - destruct rest as [|m' rest'].
    + simpl. by rewrite Hu.
    + rewrite Hlast by done. apply IH.
  - assert (Hskip : forall history',
      match Google.historyFrom rest history' lum with
      | Ok (_, prompt) =>
          prompt = match last (m :: rest) with
                   | Some m0 => if hasRole "user" m0 then geminiUserText m0 else lum
                   | None => lum
                   end
      | Throw _ => True
      end).
    { intros history'. destruct rest as [|m' rest'].
      - simpl. by rewrite Hu.
      - rewrite Hlast by done. apply IH. }
    destruct (hasRole "assistant" m).
    + destruct (Nat.ltb 0 (length (toolCallsOf m))).
      * destruct (Google.functionCallParts (toolCallsOf m)) as [parts|e]; [|done].
        apply Hskip.
      * destruct (negb _); apply Hskip.
    + destruct (hasRole "tool" m); apply Hskip.
Qed.

(** The prompt the Google adapter sends is the text of the last non-system
    message when that is a user message, and the empty string otherwise; in
    particular it is empty whenever the conversation ends with a tool result
    or an assistant message, as it does on every iteration of the agent loop
    after the first. The system instruction is the content of the last
    system message. *)
Theorem gemini_prompt_is_last_user_message (messages : list JSON) :
  match Google.toGeminiHistory messages with
  | Ok (system, _, prompt) =>
      prompt = geminiPrompt messages /\ system = Google.systemOf messages
  | Throw _ => True
  end
  /\ (forall earlier m,
        hasRole "system" m = false -> hasRole "user" m = false ->
        geminiPrompt (earlier ++ [m]) = EmptyString).
Proof.
  split.
  - unfold Google.toGeminiHistory.
    pose proof (historyFrom_prompt
                  (List.filter (fun m => negb (hasRole "system" m)) messages) [] EmptyString)
      as Hp.
    destruct (Google.historyFrom _ _ _) as [[history prompt]|e]; simpl; [|done].
    split; [|done]. rewrite Hp. unfold geminiPrompt. by destruct (last _).
  - intros earlier m Hs Hu. unfold geminiPrompt.
    rewrite List.filter_app. simpl. rewrite Hs. simpl.
    rewrite last_snoc. by rewrite Hu.
Qed.

Lemma Forall_removelast {A : Type} (P : A -> Prop) (l : list A) :
  Forall P l -> Forall P (removelast l).
Proof.
  induction 1 as [|a l Ha Hl IH]; simpl; [constructor|].
  destruct l; [constructor|]. by constructor.
Qed.

Lemma pushToolResult_roles (block : JSON) (msgs : list JSON) :
  Forall userOrAssistant msgs ->
  Forall userOrAssistant (Anthropic.pushToolResult block msgs)
  /\ length (Anthropic.pushToolResult block msgs) <= S (length msgs).
Proof.
  intros Hall. unfold Anthropic.pushToolResult.
  assert (Hnew : Forall userOrAssistant
            (msgs ++ [JObject [("role", JString "user"); ("content", JArray [block])]])
          /\ length (msgs ++ [JObject [("role", JString "user"); ("content", JArray [block])]])
             <= S (length msgs)).
  { split.
    - apply Forall_app. split; [done|]. constructor; [by left|constructor].
    - rewrite length_app. simpl. lia. }
  cbv zeta.
  destruct (last msgs) as [[| | | | |fields]|] eqn:Hl; try exact Hnew.
  destruct (assoc "content" fields) as [[| | | |blocks|]|]; try exact Hnew.
  destruct (hasRole "user" (JObject fields)) eqn:Hr; [|exact Hnew].
  split.
  - apply Forall_app. split; [by apply Forall_removelast|].
    constructor; [|constructor]. left.
    unfold hasRole, roleOf in *. simpl in *. by rewrite assoc_set_ne.
  - rewrite length_app. simpl.
    assert (Hlen : length (removelast msgs) <= length msgs).
    { clear. induction msgs as [|a l IH]; simpl; [lia|]. destruct l; simpl in *; lia. }
    lia.
Qed.

Lemma convertOne_roles (m : JSON) (system : string) (msgs : list JSON) :
  Forall userOrAssistant msgs ->
  match Anthropic.convertOne m (system, msgs) with
  | Ok (system', msgs') =>
      Forall userOrAssistant msgs'
      /\ length msgs' <= S (length msgs)
      /\ system' = (if hasRole "system" m
                    then orDefault (asString (get "content" m)) EmptyString
                    else system)
  | Throw _ => True
  end.
Proof.
  intros Hall. unfold Anthropic.convertOne.
  destruct (hasRole "system" m); [split; [done|split; [lia|done]]|].
  destruct (hasRole "user" m).
  { split; [|split; [rewrite length_app; simpl; lia|done]].
    apply Forall_app. split; [done|]. constructor; [by left|constructor]. }
  destruct (hasRole "assistant" m).
  { destruct (Anthropic.toolUsesOf (toolCallsOf m)) as [uses|e]; [|done]. simpl.
    destruct (Nat.ltb 0 _).
    - split; [|split; [rewrite length_app; simpl; lia|done]].
      apply Forall_app. split; [done|]. constructor; [by right|constructor].
    - split; [done|split; [lia|done]]. }
  destruct (hasRole "tool" m).
  { destruct (pushToolResult_roles
                (JObject ([("type", JString "tool_result");
                           ("tool_use_id",
                             match get "tool_call_id" m with
                             | Some JNull | None => JString EmptyString
                             | Some v => v
                             end)]
                          ++ optField "content" (textOrStringify (get "content" m))))
                msgs Hall) as [Hr Hlen].
    split; [exact Hr|split; [exact Hlen|done]]. }
  split; [done|split; [lia|done]].
Qed.

Lemma toAnthropicMessagesFrom_roles (messages : list JSON) :
  forall system msgs,
    Forall userOrAssistant msgs ->
    match Anthropic.toAnthropicMessagesFrom messages (system, msgs) with
    | Ok (system', msgs') =>
        Forall userOrAssistant msgs'
        /\ length msgs' <= length msgs + length messages
        /\ system' = fold_left
                       (fun system m =>
                          if hasRole "system" m
                          then orDefault (asString (get "content" m)) EmptyString
                          else system)
                       messages system
    | Throw _ => True
    end.
Proof.
  induction messages as [|m messages IH]; intros system msgs Hall.
  - simpl. split; [done|split; [lia|done]].
  - cbn [Anthropic.toAnthropicMessagesFrom].
    pose proof (convertOne_roles m system msgs Hall) as Hone.
    destruct (Anthropic.convertOne m (system, msgs)) as [[system1 msgs1]|e]; [|done].
    destruct Hone as (Hall1 & Hlen1 & ->). simpl.
    specialize (IH (if hasRole "system" m
                    then orDefault (asString (get "content" m)) EmptyString
                    else system) msgs1 Hall1).
    destruct (Anthropic.toAnthropicMessagesFrom messages _) as [[system2 msgs2]|e]; [|done].
    destruct IH as (Hall2 & Hlen2 & ->). split; [done|]. split; [simpl; lia|done].
Qed.

(** The conversation the Anthropic adapter sends holds user and assistant
    messages only, at most one per canonical message (system messages are
    taken out, and a tool result becomes a block of a user message). The
    system text it sends is the content of the last system message, the
    same the Google adapter sends as its system instruction. *)
Theorem anthropic_conversation_roles (messages : list JSON) :
  match Anthropic.toAnthropicMessages messages with
  | Ok (system, msgs) =>
      Forall userOrAssistant msgs
      /\ length msgs <= length messages
      /\ system = Google.systemOf messages
  | Throw _ => True
  end.
Proof.
  unfold Anthropic.toAnthropicMessages.
  pose proof (toAnthropicMessagesFrom_roles messages EmptyString [] (Forall_nil_2 _)) as Hr.
  destruct (Anthropic.toAnthropicMessagesFrom messages _) as [[system msgs]|e]; [|done].
  destruct Hr as (Hall & Hlen & ->). split; [done|]. split; [simpl in Hlen; lia|done].
Qed.

End ConversionFacts.

(** ** More properties at work on test doubles *)

Lemma no_iterations_no_request_witness :
  fst (fst (@runAgentTurn nat Stub.engine Stub.store Stub.facts
              (Stub.agent 0 (Stub.says "hello") (fun _ => 0)) [] "hi" Stub.world0))
  = MaxIterations MAX_ITERATIONS_REPLY ([] ++ [userMessageOf "hi"])
  /\ snd (@runAgentTurn nat Stub.engine Stub.store Stub.facts
            (Stub.agent 0 (Stub.says "hello") (fun _ => 0)) [] "hi" Stub.world0)
     = [].
Proof.
  apply (@no_iterations_no_request nat Stub.engine Stub.store Stub.facts
           (Stub.agent 0 (Stub.says "hello") (fun _ => 0)) [] "hi" Stub.world0).
  reflexivity.
Defined.

Lemma first_text_response_ends_turn_witness :
  fst (fst (@runAgentTurn nat Stub.engine Stub.store Stub.facts
              (Stub.agent 3 (Stub.says "hello") (fun _ => 0)) [] "hi" Stub.world0))
  = FinalReply (orDefault (content (Stub.says "hello")) "(no response)")
      ([] ++ [userMessageOf "hi"; assistantMessage (Stub.says "hello")])
  /\ providerCalls
       (snd (@runAgentTurn nat Stub.engine Stub.store Stub.facts
               (Stub.agent 3 (Stub.says "hello") (fun _ => 0)) [] "hi" Stub.world0))
     = 1.
Proof.
  apply (@first_text_response_ends_turn nat Stub.engine Stub.store Stub.facts
           (Stub.agent 3 (Stub.says "hello") (fun _ => 0)) [] "hi" Stub.world0
           (Stub.respond (Stub.says "hello")) 0 1 (Stub.says "hello")).
  - simpl. lia.
  - reflexivity.
  - reflexivity.
  - left. reflexivity.
Defined.

Lemma updatedHistory_has_no_system_message_witness :
  match
    returned
      (fst (fst (@runAgentTurn nat Stub.engine Stub.store Stub.facts
                   (Stub.agent 3 (Stub.says "hello") (fun _ => 0))
                   [Stub.plainMessage "user" "earlier"] "hi" Stub.world0)))
  with
  | Some (_, updatedHistory) => Forall (fun m => hasRole "system" m = false) updatedHistory
  | None => True
  end.
Proof.
  apply (@updatedHistory_has_no_system_message nat Stub.engine Stub.store Stub.facts
           (Stub.agent 3 (Stub.says "hello") (fun _ => 0))
           [Stub.plainMessage "user" "earlier"] "hi" Stub.world0).
  - repeat constructor.
  - intros r (x & p & x1 & messages & x2 & Hp & Hc).
    simpl in Hp. injection Hp as <- <-. simpl in Hc. injection Hc as <- _.
    reflexivity.
Defined.

Lemma turn_keeps_stored_conversations_witness :
  sameConversations {| db := Stub.busyDb; ext := 0 |}
    (snd (fst (@runAgentTurn nat Stub.engine Stub.store Stub.facts
                 (Stub.agent 3 (Stub.requests [Stub.call "call_1"]) (fun _ => 0))
                 [] "hi" {| db := Stub.busyDb; ext := 0 |})))
  /\ forall chatId,
       @Memory.loadHistory Stub.engine chatId
         (db (snd (fst (@runAgentTurn nat Stub.engine Stub.store Stub.facts
                          (Stub.agent 3 (Stub.requests [Stub.call "call_1"]) (fun _ => 0))
                          [] "hi" {| db := Stub.busyDb; ext := 0 |}))))
       = @Memory.loadHistory Stub.engine chatId (db {| db := Stub.busyDb; ext := 0 |}).
Proof.
  apply (@turn_keeps_stored_conversations nat Stub.engine Stub.store Stub.facts
           (Stub.agent 3 (Stub.requests [Stub.call "call_1"]) (fun _ => 0))
           [] "hi" {| db := Stub.busyDb; ext := 0 |}).
  intros tool [<-|[]] args w. simpl.
  destruct args; split; reflexivity.
Defined.

Lemma saveHistory_frame_witness :
  exists d',
    @Memory.saveHistory Stub.engine 100 7 [Stub.plainMessage "user" "hi"] Stub.busyDb = Ok d'
    /\ Memory.notes d' = Memory.notes Stub.busyDb
    /\ Memory.notes_seq d' = Memory.notes_seq Stub.busyDb
    /\ Memory.notes_fts d' = Memory.notes_fts Stub.busyDb
    /\ Memory.core_memories d' = Memory.core_memories Stub.busyDb
    /\ Memory.setup_state d' = Memory.setup_state Stub.busyDb
    /\ forall other, other <> 7%Z ->
         @Memory.loadHistory Stub.engine other d'
         = @Memory.loadHistory Stub.engine other Stub.busyDb.
Proof.
  apply (@saveHistory_frame Stub.engine 100 7 [Stub.plainMessage "user" "hi"] Stub.busyDb).
  repeat constructor; try (eexists; reflexivity); vm_compute; congruence.
Defined.

Lemma saveHistory_replaces_witness :
  exists d1 d2,
    @Memory.saveHistory Stub.engine 100 7 [Stub.plainMessage "user" "hi"] Stub.busyDb = Ok d1
    /\ @Memory.saveHistory Stub.engine 101 7
         [Stub.plainMessage "user" "hi"; Stub.plainMessage "assistant" "hello"] d1 = Ok d2
    /\ @Memory.loadHistory Stub.engine 7 d2
       = Ok [Stub.plainMessage "user" "hi"; Stub.plainMessage "assistant" "hello"]
    /\ length (Memory.stmtLoadMsgs 7 d2)
       = length [Stub.plainMessage "user" "hi"; Stub.plainMessage "assistant" "hello"].
Proof.
  apply (@saveHistory_replaces Stub.engine 100 101 7 [Stub.plainMessage "user" "hi"]
           [Stub.plainMessage "user" "hi"; Stub.plainMessage "assistant" "hello"] Stub.busyDb);
    repeat constructor; try (eexists; reflexivity); vm_compute; congruence.
Defined.

Lemma saveNote_keeps_index_in_sync_witness :
  ftsInSync (Memory.saveNote 9 "Colour" "blue" Stub.busyDb).
Proof.
  apply (saveNote_keeps_index_in_sync 9 "Colour" "blue" Stub.busyDb).
  split; simpl.
  - apply NoDup_singleton.
  - reflexivity.
Defined.

(** ** The provider registry *)

Section RegistryFacts.
Context {Ext : Type} `{JSEngine} `{Registry.SDKs Ext}.
Import Registry.






(** Without a stored choice the active provider is OpenAI with the
    configured model; so it is when the stored value has no colon or
    nothing after it. *)
Theorem loadActiveSpec_defaults (config : Config) (d : Memory.Db) :
  (coreMemory ACTIVE_LLM_KEY d = None ->
   loadActiveSpec config d = ("openai", OPENAI_MODEL config))
  /\ (forall entry,
        coreMemory ACTIVE_LLM_KEY d = Some entry ->
        (forall c, In c (list_ascii_of_string (Memory.cm_value entry)) -> c <> colon) ->
        loadActiveSpec config d = ("openai", OPENAI_MODEL config)).
Proof.
  unfold loadActiveSpec, coreMemory, Memory.getAllCoreMemories. split.
  - by intros ->.
  - intros entry -> Hnocolon.
    assert (Hs : split colon (Memory.cm_value entry) = [Memory.cm_value entry]).
    { induction (Memory.cm_value entry) as [|c s IH]; [done|]. simpl.
      destruct (Ascii.eqb_spec c colon) as [->|_].
      - exfalso. apply (Hnocolon colon); [by left|done].
      - rewrite IH; [done|]. intros c' Hin. apply Hnocolon. by right. }
    rewrite Hs. simpl. by rewrite andb_false_r.
Qed.

End RegistryFacts.


(** ** A turn with a provider of the registry *)

Section RegistryTurnFacts.
Context {Ext : Type} `{JSEngine} `{StoreEnv Ext} `{FactsEnv Ext} `{AgentEnv Ext}
  `{Registry.SDKs Ext}.

Lemma openai_complete_contract (client : OpenAI.Client Ext) (id name model : string)
    (messages : list JSON) (tools : list ToolSpec) (x : Ext) :
  keepsContract
    (fst (complete (OpenAI.makeOpenAICompatible client id name model) messages tools x)).
Proof.
  simpl. destruct (client _ x) as [[response|e] x']; [|done].
  apply openai_fromResponse_contract.
Qed.

Lemma anthropic_complete_contract (client : Anthropic.Client Ext) (model : string)
    (messages : list JSON) (tools : list ToolSpec) (x : Ext) :
  keepsContract
    (fst (complete (Anthropic.createAnthropicProvider client model) messages tools x)).
Proof.
  simpl.
  destruct (Anthropic.toAnthropicMessages messages) as [[system msgs]|e]; [|done].
  destruct (client _ x) as [[blocks|e] x']; [|done].
  apply anthropic_fromResponse_contract.
Qed.

Lemma google_complete_contract (client : Google.Client Ext) (model : string)
    (messages : list JSON) (tools : list ToolSpec) (x : Ext) :
  keepsContract
    (fst (complete (Google.createGoogleProvider client model) messages tools x)).
Proof.
  simpl.
  destruct (Google.toGeminiHistory messages) as [[[system history] lastUserMessage]|e];
    [|done].
  destruct (Google.toolDecls tools) as [decls|e]; [|done].
  destruct (client _ x) as [[response|e] x']; [|done].
  apply google_fromResponse_contract.
Qed.

(** Every provider the registry builds keeps the contract of
    [LLMResponse]. *)
Lemma buildProvider_keeps_contract (config : Registry.Config) (providerId model : string)
    (p : LLMProvider Ext) :
  Registry.buildProvider config providerId model = Ok p ->
  forall messages tools x, keepsContract (fst (complete p messages tools x)).
Proof.
  unfold Registry.buildProvider.
  destruct (String.eqb providerId "openai").
  { intros [= <-] messages tools x. apply openai_complete_contract. }
  destruct (String.eqb providerId "anthropic").
  { destruct (String.eqb _ _); [done|]. intros [= <-] messages tools x.
    apply anthropic_complete_contract. }
  destruct (String.eqb providerId "google").
  { destruct (String.eqb _ _); [done|]. intros [= <-] messages tools x.
    apply google_complete_contract. }
  destruct (String.eqb providerId "groq"); [|done].
  destruct (String.eqb _ _); [done|]. intros [= <-] messages tools x.
  apply openai_complete_contract.
Qed.

(** C1. With the active provider one the registry builds (the only kind the
    program has), whatever the backends answer and whatever the history:
    when a turn returns, its reply is either the content of a response the
    provider gave, a response with a content string and with no tool calls
    on it, or the fixed warning, returned after the loop ran out of
    iterations. The step that ends the turn never has both content and
    tool calls. *)
Theorem runAgentTurn_terminal_outcomes (history : list JSON) (userMessage : string)
    (w : World Ext) :
  (forall x p x1,
     getActiveProvider x = (Ok p, x1) ->
     exists config providerId model, Registry.buildProvider config providerId model = Ok p) ->
  match fst (fst (runAgentTurn history userMessage w)) with
  | FinalReply reply _ =>
      exists r, producedBy r /\ toolCalls r = None /\ content r = Some reply
  | MaxIterations reply _ => reply = MAX_ITERATIONS_REPLY
  | Raised _ => True
  | Pending => True
  end.
Proof.
  intros Hregistry. unfold runAgentTurn.
  destruct (buildSystemPrompt userMessage w) as [systemPrompt w0].
  pose proof (agentLoop_spec AGENT_MAX_ITERATIONS userMessage
                (systemMessage systemPrompt :: history ++ [userMessageOf userMessage]) w0 [])
    as Hspec.
  destruct (fst (fst (agentLoop _ _ _ _ _))) as [reply hist|reply hist|e|]; [| |done|done].
  - destruct Hspec as (pushed & r & _ & _ & Hr & Hnone & ->).
    exists r. split; [exact Hr|].
    destruct Hr as (x & p & x1 & messages & x2 & Hp & Hc).
    destruct (Hregistry _ _ _ Hp) as (config & providerId & model & Hbuild).
    pose proof (buildProvider_keeps_contract config providerId model p Hbuild
                  messages getOpenAITools x1) as Hcontract.
    rewrite Hc in Hcontract. destruct Hcontract as [Hcontent Htools].
    destruct (content r) as [text|] eqn:Htext.
    + split; [|done]. apply Htools. by exists text.
    + exfalso. destruct (proj1 Hcontent eq_refl) as (call & calls & Hcalls).
      destruct Hnone as [Hn|Hn]; congruence.
  - by destruct Hspec as (pushed & _ & _ & ?).
Qed.

End RegistryTurnFacts.

Lemma runAgentTurn_terminal_outcomes_witness :
  exists r,
    @producedBy nat (Stub.registryAgent 3) r
    /\ toolCalls r = None /\ content r = Some "hello".
Proof.
  apply (@runAgentTurn_terminal_outcomes nat Stub.engine Stub.store Stub.facts
           (Stub.registryAgent 3) Stub.backend [] "hi" Stub.world0).
  intros x p x1 [= <- <-]. by exists Stub.config, "openai", "gpt-4o".
Defined.

(** ** The remember tool *)

Section RememberFacts.
Context {Ext : Type} `{JSEngine} `{StoreEnv Ext}.

Lemma saveNote_db (t b : string) (w : World Ext) :
  db (saveNote t b w) = Memory.saveNote (unixepoch (ext w)) t b (db w).
Proof. unfold saveNote. by destruct (upsertMemory t b (ext w)). Qed.

Lemma saveNote_found (now : Z) (t b : string) (d : Memory.Db) :
  exists n, Memory.findNote t (Memory.saveNote now t b d) = Some n /\ Memory.body n = b.
Proof.
  unfold Memory.saveNote, Memory.findNote.
  destruct (List.find _ (Memory.notes d)) as [existing|] eqn:Hfind.
  - pose proof (find_updated now b t (Memory.notes d) (Memory.notes_fts d) existing Hfind)
      as Hf.
    destruct (Memory.updateNote _ _ _ _ _) as [rows index]. simpl in *.
    eexists. split; [exact Hf|done].
  - simpl. rewrite (find_app_none _ _ _ Hfind). simpl. rewrite String.eqb_refl.
    eexists. split; [reflexivity|done].
Qed.

(** The remember tool either refuses and changes nothing, or saves: it
    throws only on arguments it cannot read, and then nothing is written;
    it answers that title and body are required, and then nothing is
    written; or it confirms, and then both trimmed texts are not empty, the
    note is found under its title with the body given, and no conversation
    has changed. *)
Theorem remember_saves_or_refuses (args : JSON) (w : World Ext) :
  match execute rememberTool args w with
  | (Throw _, w') => w' = w
  | (Ok reply, w') =>
      (reply = "Error: both title and body are required." /\ w' = w)
      \/ exists t b,
           argText "title" args = Ok t /\ argText "body" args = Ok b
           /\ t <> EmptyString /\ b <> EmptyString
           /\ reply = checkMark +:+ " Remembered: **" +:+ t +:+ "**"
           /\ (exists n, Memory.findNote t (db w') = Some n /\ Memory.body n = b)
           /\ Memory.messages (db w') = Memory.messages (db w)
  end.
Proof.
  cbn [execute rememberTool].
  destruct (argText "title" args) as [t|e]; [|done].
  destruct (argText "body" args) as [b|e]; [|done].
  destruct (String.eqb_spec t EmptyString) as [->|Ht]; simpl; [by left|].
  destruct (String.eqb_spec b EmptyString) as [->|Hb]; simpl; [by left|].
  right. exists t, b. repeat (split; [done|]).
  split; [rewrite saveNote_db; apply saveNote_found|].
  destruct (saveNote_world t b w) as ([Hm _] & _). by rewrite Hm.
Qed.

(** The remember tool as Gemini sees it, and as it runs. The sanitizer
    removes every property named [title] from a schema, so the declaration
    sent to Gemini has one parameter only, [body]; and the tool refuses every
    call whose arguments have no [title], writing nothing. *)
Theorem remember_title_not_declared_to_gemini :
  trim EmptyString = EmptyString ->
  (exists decl params props,
     Google.toolDecl (spec rememberTool) = Ok decl
     /\ get "parameters" decl = Some params
     /\ get "properties" params = Some (JObject props)
     /\ keys props = ["body"])
  /\ (forall (args : JSON) (w : World Ext),
        args <> JNull ->
        get "title" args = None ->
        execute rememberTool args w
        = (Ok "Error: both title and body are required.", w)).
Proof.
  intros Htrim. split.
  - unfold Google.toolDecl, Gemini.sanitizeGeminiParams. simpl.
    destruct (existsb _ Object_prototype_names); simpl;
      eexists _, _, _; (split; [reflexivity|]); (split; [reflexivity|]);
      (split; [reflexivity|]); reflexivity.
  - intros args w Hnull Htitle. cbn [execute rememberTool].
    unfold argText, readProp. rewrite Htitle.
    destruct args; try done; simpl; rewrite Htrim; simpl; done.
Qed.

End RememberFacts.

Lemma remember_title_not_declared_to_gemini_witness :
  @execute nat (@rememberTool nat Stub.engine Stub.store)
    (JObject [("body", JString "likes tea")]) Stub.world0
  = (Ok "Error: both title and body are required.", Stub.world0).
Proof.
  apply (@remember_title_not_declared_to_gemini nat Stub.engine Stub.store eq_refl);
    [discriminate|reflexivity].
Defined.

(** ** The shell tool *)

Section ShellFacts.
Context {Ext : Type} `{Shell.ShellEnv Ext}.
Import Shell.

Lemma sameText_eq (a b : JsString) : sameText a b = true <-> a = b.
Proof.
  revert b. induction a as [|x a IH]; intros [|y b]; simpl; try done.
  rewrite andb_true_iff, N.eqb_eq, IH. split.
  - by intros [-> ->].
  - by intros [= -> ->].
Qed.

Lemma trimEnd_app_word (word rest : JsString) :
  List.Forall (fun c => isSpace c = false) word ->
  trimEnd (word ++ rest) = word ++ trimEnd rest.
Proof.
  induction 1 as [|c word Hc _ IH]; [done|].
  cbn [app trimEnd]. rewrite IH, Hc. by destruct (word ++ trimEnd rest).
Qed.

Lemma trimEnd_blank_led (s : JsString) :
  match s with [] => True | c :: _ => isSpace c = true end ->
  match trimEnd s with [] => True | c :: _ => isSpace c = true end.
Proof.
  destruct s as [|c s]; [done|]. intros Hc. cbn [trimEnd]. rewrite Hc.
  by destruct (trimEnd s).
Qed.

Lemma splitSpaces_word (word rest : JsString) :
  List.Forall (fun c => isSpace c = false) word ->
  match rest with [] => True | c :: _ => isSpace c = true end ->
  exists pieces, splitSpaces false (word ++ rest) = word :: pieces.
Proof.
  intros Hword Hrest. induction Hword as [|c word Hc _ IH].
  - destruct rest as [|sp rest]; simpl; [by eexists|]. rewrite Hrest. by eexists.
  - destruct IH as [pieces IH]. cbn [app splitSpaces]. rewrite Hc, IH. by eexists.
Qed.

Lemma trim_word_app (word rest : JsString) :
  word <> [] ->
  List.Forall (fun c => isSpace c = false) word ->
  trim (word ++ rest) = word ++ trimEnd rest.
Proof.
  intros Hne Hword. unfold trim.
  destruct Hword as [|c word Hc Hword]; [done|].
  cbn [app trimStart]. rewrite Hc.
  change (c :: word ++ rest) with ((c :: word) ++ rest).
  apply trimEnd_app_word. by constructor.
Qed.

Lemma parseExecutable_word (word rest : JsString) :
  word <> [] ->
  List.Forall (fun c => isSpace c = false) word ->
  match rest with [] => True | c :: _ => isSpace c = true end ->
  parseExecutable (word ++ rest) = word.
Proof.
  intros Hne Hword Hrest. unfold parseExecutable.
  rewrite trim_word_app by done.
  destruct (splitSpaces_word word (trimEnd rest) Hword (trimEnd_blank_led rest Hrest))
    as [pieces ->].
  done.
Qed.

(** The allowlist looks at the first word only. For a command line that is
    a word, white space, and anything after it, the executable checked is
    the word; if the word is allowed the whole trimmed line goes to the
    shell, whatever follows the word, and otherwise nothing runs. *)
Theorem shell_allowlist_checks_first_word_only
    (word rest cwd : JsString) (sp : N) (x : Ext) :
  word <> [] ->
  List.Forall (fun c => isSpace c = false) word ->
  isSpace sp = true ->
  parseExecutable (word ++ sp :: rest) = word
  /\ shellExec (word ++ sp :: rest) cwd x
     = if isAllowed word
       then (report (fst (runCommand (trim (word ++ sp :: rest)) cwd x)),
             snd (runCommand (trim (word ++ sp :: rest)) cwd x))
       else (refusal word, x).
Proof.
  intros Hne Hword Hsp.
  split; [by apply parseExecutable_word|].
  unfold shellExec. rewrite trim_word_app by done.
  pose proof (trimEnd_blank_led (sp :: rest) Hsp) as Hled.
  destruct (sameText (word ++ trimEnd (sp :: rest)) []) eqn:Hempty.
  { apply sameText_eq in Hempty. by destruct word. }
  rewrite (parseExecutable_word word (trimEnd (sp :: rest)) Hne Hword Hled).
  destruct (isAllowed word); simpl; [|done].
  by destruct (runCommand _ cwd x).
Qed.

(** Nothing runs for a command whose first word, lower-cased, is no entry
    of the allowlist (trimmed and lower-cased): the reply is the refusal,
    or the request for a command when the line is blank. *)
Theorem shell_runs_only_allowlisted (commandArg cwd : JsString) (x : Ext) :
  (forall entry,
     In entry (splitOn comma SHELL_ALLOWED_COMMANDS) ->
     toLowerCase (trim entry) <> toLowerCase (parseExecutable (trim commandArg))) ->
  shellExec commandArg cwd x
  = (if sameText (trim commandArg) []
     then lit "Error: 'command' is required."
     else refusal (parseExecutable (trim commandArg)),
     x).
Proof.
  intros Hout. unfold shellExec.
  destruct (sameText (trim commandArg) []); [done|].
  assert (Hno : isAllowed (parseExecutable (trim commandArg)) = false).
  { apply not_true_is_false. unfold isAllowed, allowed.
    intros Hin. apply List.existsb_exists in Hin as (e & Hin & Heq).
    apply sameText_eq in Heq.
    apply List.filter_In in Hin as [Hin _].
    apply List.in_map_iff in Hin as (entry & <- & Hin).
    by apply (Hout entry Hin). }
  by rewrite Hno.
Qed.

End ShellFacts.

Lemma shell_allowlist_checks_first_word_only_witness :
  snd (@Shell.shellExec nat Stub.shell
         (Shell.lit "echo" ++ 32%N :: Shell.lit "hi; rm -rf /") (Shell.lit "/tmp") 0)
  = 1.
Proof.
  destruct (@shell_allowlist_checks_first_word_only nat Stub.shell
              (Shell.lit "echo") (Shell.lit "hi; rm -rf /") (Shell.lit "/tmp") 32%N 0)
    as [_ Hrun].
  - discriminate.
  - repeat constructor.
  - reflexivity.
  - rewrite Hrun. reflexivity.
Defined.

Lemma shell_runs_only_allowlisted_witness :
  snd (@Shell.shellExec nat Stub.shell (Shell.lit "rm -rf /") (Shell.lit "/tmp") 0) = 0.
Proof.
  rewrite (@shell_runs_only_allowlisted nat Stub.shell); [reflexivity|].
  intros entry Hin. vm_compute in Hin.
  destruct Hin as [<-|[<-|[<-|[<-|[]]]]]; vm_compute; discriminate.
Defined.

(** ** MCP tools in the registry *)

Section McpFacts.
Context {Ext : Type}.
Variable callMcpTool : string -> JSON -> World Ext -> Result string * World Ext.
Import Mcp.

Lemma built_tools_are_mcp (connected : list (string * list ListedTool)) :
  List.Forall (fun t => isMcp t = true) (buildMcpTools callMcpTool (getMcpTools connected)).
Proof.
  unfold buildMcpTools, getMcpTools.
  apply List.Forall_forall. intros t Hin.
  apply List.in_map_iff in Hin as (m & <- & Hin).
  apply List.in_concat in Hin as (ms & Hms & Hin).
  apply List.in_map_iff in Hms as ([name listed] & <- & _).
  unfold discovered in Hin. apply List.in_map_iff in Hin as (t & <- & _).
  reflexivity.
Qed.

Lemma filter_all {A : Type} (f : A -> bool) (l : list A) :
  List.Forall (fun a => f a = true) l -> List.filter f l = l.
Proof. induction 1 as [|a l Ha _ IH]; simpl; [done|]. by rewrite Ha, IH. Qed.

Lemma filter_none {A : Type} (f : A -> bool) (l : list A) :
  List.Forall (fun a => f a = true) l -> List.filter (fun a => negb (f a)) l = [].
Proof. induction 1 as [|a l Ha _ IH]; simpl; [done|]. by rewrite Ha. Qed.

Lemma filter_filter_same {A : Type} (f : A -> bool) (l : list A) :
  List.filter f (List.filter f l) = List.filter f l.
Proof.
  induction l as [|a l IH]; simpl; [done|].
  destruct (f a) eqn:Ha; simpl; [by rewrite Ha, IH|done].
Qed.

Lemma filter_filter_none {A : Type} (f : A -> bool) (l : list A) :
  List.filter f (List.filter (fun a => negb (f a)) l) = [].
Proof.
  induction l as [|a l IH]; simpl; [done|].
  destruct (f a) eqn:Ha; simpl; [done|]. by rewrite Ha.
Qed.

(** Refreshing the MCP tools of the registry. Every tool built from what
    the connected servers list is named [mcp__...]; so after a refresh the
    tools that are not MCP tools are the ones from before, in their order,
    the MCP tools are exactly the ones just built, a second refresh replaces
    the first instead of adding to it, and a name that does not start with
    [mcp__] is looked up to the same tool as before. *)
Theorem refreshMcpTools_replaces_mcp_tools
    (tools : list (ToolDefinition Ext)) (before connected : list (string * list ListedTool)) :
  let built := buildMcpTools callMcpTool (getMcpTools connected) in
  let earlier := buildMcpTools callMcpTool (getMcpTools before) in
  List.filter (fun t => negb (isMcp t)) (refreshMcpTools tools built)
  = List.filter (fun t => negb (isMcp t)) tools
  /\ List.filter isMcp (refreshMcpTools tools built) = built
  /\ refreshMcpTools (refreshMcpTools tools earlier) built = refreshMcpTools tools built
  /\ (forall name,
        startsWith "mcp__" name = false ->
        List.find (fun t => String.eqb (fn_name (spec t)) name) (refreshMcpTools tools built)
        = List.find (fun t => String.eqb (fn_name (spec t)) name) tools).
Proof.
  intros built earlier.
  pose proof (built_tools_are_mcp connected) as Hbuilt.
  pose proof (built_tools_are_mcp before) as Hearlier.
  fold built in Hbuilt. fold earlier in Hearlier.
  unfold refreshMcpTools.
  split; [|split; [|split]].
  - rewrite List.filter_app, filter_filter_same, (filter_none isMcp built Hbuilt).
    by rewrite app_nil_r.
  - rewrite List.filter_app, filter_filter_none, (filter_all isMcp built Hbuilt). done.
  - rewrite List.filter_app, filter_filter_same, (filter_none isMcp earlier Hearlier).
    by rewrite app_nil_r.
  - intros name Hname.
    assert (Hskip : forall l : list (ToolDefinition Ext),
               List.Forall (fun t => isMcp t = true) l ->
               List.find (fun t => String.eqb (fn_name (spec t)) name) l = None).
    { induction 1 as [|t l Ht _ IH]; simpl; [done|].
      destruct (String.eqb_spec (fn_name (spec t)) name) as [Heq|_]; [|exact IH].
      unfold isMcp in Ht. rewrite Heq in Ht. congruence. }
    induction tools as [|t tools' IH]; simpl.
    + by apply Hskip.
    + destruct (String.eqb_spec (fn_name (spec t)) name) as [Heq|Hne].
      * assert (Hnot : isMcp t = false) by (unfold isMcp; by rewrite Heq).
        rewrite Hnot. simpl. destruct (String.eqb_spec (fn_name (spec t)) name); done.
      * destruct (isMcp t); simpl; [exact IH|].
        destruct (String.eqb_spec (fn_name (spec t)) name); [done|exact IH].
Qed.

End McpFacts.
